(** * argon2id: credential-string codec and verification pipeline

    A shallow embedding of [argon2id.go] (package [argon2id]) together with
    the parts of the Go standard library that decide its behaviour:
    [encoding/base64] (the [RawURLEncoding] codec), [strings.Split],
    [fmt.Sprintf] / [fmt.Sscanf] with the [%d] and [%s] verbs,
    [strconv.ParseInt] / [strconv.ParseUint], [unicode/utf8] decoding and
    [crypto/subtle.ConstantTimeCompare].

    Go [string]s are modelled as [string] (a sequence of 8-bit characters),
    [[]byte] as [list byte], machine integers as [Z] with explicit
    truncation.  The key-derivation primitive [argon2.IDKey] lives in an
    external module; it is a parameter of [HashPassword] and
    [VerifyPassword].  It is given the type of a partial function: [None]
    stands for a call that does not return (the library panics on
    [time < 1] and on [threads < 1]). *)

From Stdlib Require Import ZArith List Strings.String Strings.Ascii Strings.Byte Bool Lia.
Import ListNotations.

Local Open Scope string_scope.
Local Open Scope list_scope.
Local Open Scope Z_scope.

(** ** Bytes and machine integers *)

Definition byte_to_Z (b : byte) : Z := Z.of_N (Byte.to_N b).

(** [byte(z)]: conversion to [uint8] keeps the low eight bits. *)
Definition byte_of_Z (z : Z) : byte :=
  match Byte.of_N (Z.to_N (z mod 256)) with
  | Some b => b
  | None => x00
  end.

Definition ascii_to_Z (c : ascii) : Z := Z.of_N (N_of_ascii c).

(** [uint32(z)], [uint8(z)]: wrap-around conversions. *)
Definition uint32 (z : Z) : Z := z mod 2 ^ 32.
Definition uint8 (z : Z) : Z := z mod 2 ^ 8.

(** [[]byte(s)] and [string(b)]. *)
Definition bytes_of_string (s : string) : list byte := list_byte_of_string s.
Definition string_of_bytes (b : list byte) : string := string_of_list_byte b.

(** [len(b)] for a slice. *)
Definition len {A} (l : list A) : Z := Z.of_nat (List.length l).

(** ** Errors

    The package's six sentinel errors, and the errors that it propagates
    unchanged from [fmt.Sscanf] and from the base64 decoder. *)

Inductive scan_error : Type :=
| ScanUnexpectedEOF      (* io.ErrUnexpectedEOF *)
| ScanEOF                (* io.EOF *)
| ScanInputMismatch      (* "input does not match format" *)
| ScanUnexpectedNewline  (* "unexpected newline" *)
| ScanExpectedInteger    (* "expected integer" *)
| ScanSyntax             (* strconv.NumError with ErrSyntax *)
| ScanRange              (* strconv.NumError with ErrRange *)
| ScanOverflow           (* "integer overflow on token ..." *)
| ScanBadFormat.         (* a format or an operand list outside the model *)

Inductive error : Type :=
| ErrPasswordRequired
| ErrSaltRequired
| ErrArgon2KeyRequired
| ErrInvalidKeyLength
| ErrArgonVersionMismatch
| ErrHashNotEqualPassword
| ScanError (e : scan_error)
| CorruptInputError (offset : Z).

(** ** encoding/base64, specialised to [RawURLEncoding]

    [RawURLEncoding] is [URLEncoding.WithPadding(NoPadding)]: the URL-safe
    alphabet, no padding character, non-strict decoding. *)

Module base64.

Definition encodeURL : string :=
  "ABCDEFGHIJKLMNOPQRSTUVWXYZabcdefghijklmnopqrstuvwxyz0123456789-_".

(** [enc.encode[v]] *)
Definition encode (v : Z) : ascii :=
  match String.get (Z.to_nat v) encodeURL with
  | Some c => c
  | None => "A"%char
  end.

Fixpoint IndexByte (s : string) (c : ascii) (i : Z) : option Z :=
  match s with
  | EmptyString => None
  | String d s' => if Ascii.eqb d c then Some i else IndexByte s' c (i + 1)
  end.

(** [enc.decodeMap[c]]: the position of [c] in the alphabet, [0xff] for
    every other byte. *)
Definition decodeMap (c : ascii) : Z :=
  match IndexByte encodeURL c 0 with
  | Some i => i
  | None => 255
  end.

Definition sextet (val : Z) (shift : Z) : ascii :=
  encode (Z.land (Z.shiftr val shift) 63).

(** [Encoding.Encode]: whole groups of three bytes give four characters;
    a remainder of one or two bytes gives two or three characters and,
    without padding, nothing more. *)
Fixpoint Encode (src : list byte) : string :=
  match src with
  | [] => ""
  | b0 :: b1 :: b2 :: rest =>
      let val := Z.lor (Z.lor (Z.shiftl (byte_to_Z b0) 16)
                              (Z.shiftl (byte_to_Z b1) 8)) (byte_to_Z b2) in
      String (sextet val 18) (String (sextet val 12)
        (String (sextet val 6) (String (sextet val 0) (Encode rest))))
  | [b0; b1] =>
      let val := Z.lor (Z.shiftl (byte_to_Z b0) 16)
                       (Z.shiftl (byte_to_Z b1) 8) in
      String (sextet val 18) (String (sextet val 12)
        (String (sextet val 6) ""))
  | [b0] =>
      let val := Z.shiftl (byte_to_Z b0) 16 in
      String (sextet val 18) (String (sextet val 12) "")
  end.

Definition EncodeToString (src : list byte) : string := Encode src.

(** The outcome of one run of [decodeQuantum]'s collecting loop. *)
Inductive collected : Type :=
| Collected (rest : string) (si : Z) (dbuf : list Z) (dlen : nat)
| Finished (si : Z)
| Corrupt (si : Z) (offset : Z).

(** The [for j := 0; j < len(dbuf); j++] loop of [decodeQuantum].  [src]
    is the input from index [si] on; [dbuf] holds the [j] sextets read
    so far.  Line breaks are skipped; with [NoPadding] every other byte
    outside the alphabet is corrupt input. *)
Fixpoint collect (src : string) (si : Z) (j : nat) (dbuf : list Z)
  : collected :=
  if Nat.eqb j 4 then Collected src si dbuf 4
  else
    match src with
    | EmptyString =>
        match j with
        | O => Finished si
        | S O => Corrupt si (si - 1)
        | _ => Collected src si dbuf j
        end
    | String c rest =>
        let si := si + 1 in
        let out := decodeMap c in
        if negb (out =? 255) then collect rest si (S j) (dbuf ++ [out])
        else if (Ascii.eqb c "010" || Ascii.eqb c "013")%bool
             then collect rest si j dbuf
             else Corrupt si (si - 1)
    end.

(** [decodeQuantum]: the remaining input, the new index, the decoded
    bytes and the error. *)
Definition decodeQuantum (src : string) (si : Z)
  : string * Z * list byte * option error :=
  match collect src si 0 [] with
  | Finished nsi => ("", nsi, [], None)
  | Corrupt nsi off => ("", nsi, [], Some (CorruptInputError off))
  | Collected rest nsi dbuf dlen =>
      let d i := nth i dbuf 0 in
      let val := Z.lor (Z.lor (Z.lor (Z.shiftl (d 0%nat) 18)
                                     (Z.shiftl (d 1%nat) 12))
                              (Z.shiftl (d 2%nat) 6)) (d 3%nat) in
      let b2 := byte_of_Z (Z.shiftr val 0) in
      let b1 := byte_of_Z (Z.shiftr val 8) in
      let b0 := byte_of_Z (Z.shiftr val 16) in
      (rest, nsi, firstn (dlen - 1) [b0; b1; b2], None)
  end.

(** The [for si < len(src)] loop of [Encoding.Decode].  (The two loops
    before it decode eight and four valid characters at a time and fall
    back on [decodeQuantum]; they compute the same bytes.)  Every run of
    [decodeQuantum] on a non-empty input consumes a character, so
    [length src] iterations are enough. *)
Fixpoint Decode_loop (fuel : nat) (src : string) (si : Z) (dst : list byte)
  : list byte * option error :=
  match fuel with
  | O => (dst, None)
  | S fuel' =>
      match src with
      | EmptyString => (dst, None)
      | _ =>
          match decodeQuantum src si with
          | (_, _, _, Some e) => (dst, Some e)
          | (rest, nsi, out, None) => Decode_loop fuel' rest nsi (dst ++ out)
          end
      end
  end.

(** [Encoding.DecodeString]: [dbuf[:n], err]. *)
Definition DecodeString (s : string) : list byte * option error :=
  Decode_loop (String.length s) s 0 [].

End base64.

(** ** The two codec helpers of the package *)

Definition EncodeToBase64String (b : list byte) : string :=
  base64.EncodeToString b.

Definition DecodeBase64String (s : string) : list byte * option error :=
  base64.DecodeString s.

(** ** strings.Split, for a one-byte separator *)

Module strings.

(** [Count(s, sep)] *)
Fixpoint Count (s : string) (sep : ascii) : nat :=
  match s with
  | EmptyString => O
  | String c s' => if Ascii.eqb c sep then S (Count s' sep) else Count s' sep
  end.

(** [m := Index(s, sep)] together with the two slices [s[:m]] and
    [s[m+len(sep):]]; [None] when [m < 0]. *)
Fixpoint cut (s : string) (sep : ascii) : option (string * string) :=
  match s with
  | EmptyString => None
  | String c s' =>
      if Ascii.eqb c sep then Some ("", s')
      else match cut s' sep with
           | Some (a, b) => Some (String c a, b)
           | None => None
           end
  end.

(** The loop of [genSplit]: at most [n] cuts, then the rest. *)
Fixpoint genSplit (n : nat) (s : string) (sep : ascii) : list string :=
  match n with
  | O => [s]
  | S n' =>
      match cut s sep with
      | None => [s]
      | Some (a, rest) => a :: genSplit n' rest sep
      end
  end.

(** [Split(s, sep)] is [genSplit(s, sep, 0, -1)], which sets
    [n = Count(s, sep) + 1] and cuts [n - 1] times. *)
Definition Split (s : string) (sep : ascii) : list string :=
  genSplit (Count s sep) s sep.

End strings.

(** ** strconv: decimal parsing *)

Module strconv.

Inductive num_error : Type := ErrSyntax | ErrRange.

Definition maxUint64 : Z := 2 ^ 64 - 1.

(** The digit loop of [ParseUint(s, 10, 64)]. *)
Fixpoint ParseUint_loop (s : string) (n : Z) : Z * option num_error :=
  match s with
  | EmptyString => (n, None)
  | String c s' =>
      let c := ascii_to_Z c in
      if (48 <=? c) && (c <=? 57) then
        let d := c - 48 in
        if maxUint64 / 10 + 1 <=? n then (maxUint64, Some ErrRange)
        else
          let n := n * 10 in
          let n1 := n + d in
          if maxUint64 <? n1 then (maxUint64, Some ErrRange)
          else ParseUint_loop s' n1
      else (0, Some ErrSyntax)
  end.

(** [ParseUint(s, 10, 64)].  In base 10 an underscore and a letter are
    syntax errors. *)
Definition ParseUint (s : string) : Z * option num_error :=
  match s with
  | EmptyString => (0, Some ErrSyntax)
  | _ => ParseUint_loop s 0
  end.

(** [ParseInt(s, 10, 64)]. *)
Definition ParseInt (s : string) : Z * option num_error :=
  match s with
  | EmptyString => (0, Some ErrSyntax)
  | String c0 s1 =>
      let '(neg, s') :=
        if Ascii.eqb c0 "+" then (false, s1)
        else if Ascii.eqb c0 "-" then (true, s1)
        else (false, s) in
      match ParseUint s' with
      | (_, Some ErrSyntax) => (0, Some ErrSyntax)
      | (un, _) =>
          let cutoff := 2 ^ 63 in
          if negb neg && (cutoff <=? un) then (cutoff - 1, Some ErrRange)
          else if neg && (cutoff <? un) then (- cutoff, Some ErrRange)
          else (if neg then - un else un, None)
      end
  end.

End strconv.

(** ** unicode/utf8: decoding one rune *)

Module utf8.

Definition RuneError : Z := 65533.

(** The table [first], by ranges of the leading byte: the size of the
    encoding and the accepted range of the second byte; [None] is the
    entry [xx] of an invalid leading byte.  Leading bytes below [0x80]
    are handled before the table is consulted. *)
Definition first (p0 : Z) : option (nat * Z * Z) :=
  if p0 <? 194 then None
  else if p0 <? 224 then Some (2%nat, 128, 191)
  else if p0 =? 224 then Some (3%nat, 160, 191)
  else if p0 <? 237 then Some (3%nat, 128, 191)
  else if p0 =? 237 then Some (3%nat, 128, 159)
  else if p0 <? 240 then Some (3%nat, 128, 191)
  else if p0 =? 240 then Some (4%nat, 144, 191)
  else if p0 <? 244 then Some (4%nat, 128, 191)
  else if p0 =? 244 then Some (4%nat, 128, 143)
  else None.

Definition cont (b : Z) : bool := (128 <=? b) && (b <=? 191).

(** [DecodeRuneInString]: the rune and its width in bytes. *)
Definition DecodeRuneInString (s : string) : Z * nat :=
  match s with
  | EmptyString => (RuneError, 0%nat)
  | String c0 s1 =>
      let p0 := ascii_to_Z c0 in
      if p0 <? 128 then (p0, 1%nat)
      else
        match first p0 with
        | None => (RuneError, 1%nat)
        | Some (sz, lo, hi) =>
            if (String.length s <? sz)%nat then (RuneError, 1%nat)
            else
              match s1 with
              | EmptyString => (RuneError, 1%nat)
              | String c1 s2 =>
                  let b1 := ascii_to_Z c1 in
                  if (b1 <? lo) || (hi <? b1) then (RuneError, 1%nat)
                  else if (sz <=? 2)%nat then
                    (Z.lor (Z.shiftl (Z.land p0 31) 6) (Z.land b1 63), 2%nat)
                  else
                    match s2 with
                    | EmptyString => (RuneError, 1%nat)
                    | String c2 s3 =>
                        let b2 := ascii_to_Z c2 in
                        if negb (cont b2) then (RuneError, 1%nat)
                        else if (sz <=? 3)%nat then
                          (Z.lor (Z.lor (Z.shiftl (Z.land p0 15) 12)
                                        (Z.shiftl (Z.land b1 63) 6))
                                 (Z.land b2 63), 3%nat)
                        else
                          match s3 with
                          | EmptyString => (RuneError, 1%nat)
                          | String c3 _ =>
                              let b3 := ascii_to_Z c3 in
                              if negb (cont b3) then (RuneError, 1%nat)
                              else
                                (Z.lor (Z.lor (Z.lor
                                   (Z.shiftl (Z.land p0 7) 18)
                                   (Z.shiftl (Z.land b1 63) 12))
                                   (Z.shiftl (Z.land b2 63) 6))
                                   (Z.land b3 63), 4%nat)
                          end
                    end
              end
        end
  end.

Fixpoint drop (n : nat) (s : string) : string :=
  match n, s with
  | S n', String _ s' => drop n' s'
  | _, _ => s
  end.

(** The runes of a string, in reading order: what successive calls of
    the scanner's [ReadRune] deliver.  A rune is at least one byte wide,
    so [length s] steps exhaust the string. *)
Fixpoint runes_loop (fuel : nat) (s : string) : list Z :=
  match fuel with
  | O => []
  | S fuel' =>
      match s with
      | EmptyString => []
      | _ =>
          let '(r, size) := DecodeRuneInString s in
          r :: runes_loop fuel' (drop size s)
      end
  end.

Definition runes (s : string) : list Z := runes_loop (String.length s) s.

End utf8.

(** ** fmt: [Sprintf] and [Sscanf] for the verbs the package uses *)

Module fmt.

(** *** Printing *)

Inductive arg : Type :=
| ArgInt (v : Z)          (* any integer operand: int, uint32, uint8 *)
| ArgString (s : string).

Definition digit (d : Z) : ascii := ascii_of_N (Z.to_N (48 + d)).

(** The digit loop of [fmtInteger] in base 10: the buffer is filled from
    its end.  A 64-bit value has at most twenty digits. *)
Fixpoint fmtInteger_loop (fuel : nat) (u : Z) (buf : string) : string :=
  match fuel with
  | O => buf
  | S fuel' =>
      if 10 <=? u then
        let next := u / 10 in
        fmtInteger_loop fuel' next (String (digit (u - next * 10)) buf)
      else String (digit u) buf
  end.

(** [%d]: a minus sign for a negative operand, no sign otherwise. *)
Definition fmtInteger (v : Z) : string :=
  if v <? 0 then String "-" (fmtInteger_loop 20 (- v) "")
  else fmtInteger_loop 20 v "".

(** [Sprintf] for formats made of literal bytes, [%d], [%s] and [%%]. *)
Fixpoint Sprintf (format : string) (a : list arg) : string :=
  match format with
  | EmptyString => ""
  | String c rest =>
      if negb (Ascii.eqb c "%") then String c (Sprintf rest a)
      else
        match rest with
        | EmptyString => "%!(NOVERB)"
        | String verb rest' =>
            if Ascii.eqb verb "%" then String "%" (Sprintf rest' a)
            else
              match a with
              | [] =>
                  String.append (String.append "%!" (String verb "(MISSING)"))
                                (Sprintf rest' [])
              | x :: a' =>
                  let out :=
                    match x with
                    | ArgInt v =>
                        if Ascii.eqb verb "d" then fmtInteger v
                        else String.append
                               (String.append "%!" (String verb "(int="))
                               (String.append (fmtInteger v) ")")
                    | ArgString s =>
                        if Ascii.eqb verb "s" then s
                        else String.append
                               (String.append "%!" (String verb "(string="))
                               (String.append s ")")
                    end in
                  String.append out (Sprintf rest' a')
              end
        end
  end.

(** *** Scanning *)

Definition hugeWid : Z := 2 ^ 30.

(** The scanner state [ss]: the runes not yet read and [count], the
    number of runes consumed.  No width is given in the formats of this
    package, so [argLimit] stays at [hugeWid]. *)
Record ss : Type := mkss { input : list Z; count : Z }.

(** [ss.ReadRune] / [ss.getRune]: [None] is [eof]. *)
Definition getRune (s : ss) : option (Z * ss) :=
  if hugeWid <=? count s then None
  else
    match input s with
    | [] => None
    | r :: rs => Some (r, mkss rs (count s + 1))
    end.

(** The table [space]. *)
Definition isSpace (r : Z) : bool :=
  if 65536 <=? r then false
  else ((9 <=? r) && (r <=? 13)) || (r =? 32) || (r =? 133) || (r =? 160)
       || (r =? 5760) || ((8192 <=? r) && (r <=? 8202))
       || ((8232 <=? r) && (r <=? 8233)) || (r =? 8239) || (r =? 8287)
       || (r =? 12288).

Fixpoint indexRune (ok : string) (r : Z) : bool :=
  match ok with
  | EmptyString => false
  | String c ok' => (ascii_to_Z c =? r) || indexRune ok' r
  end.

(** [ss.peek] *)
Definition peek (s : ss) (ok : string) : bool :=
  match getRune s with
  | None => false
  | Some (r, _) => indexRune ok r
  end.

(** [ss.SkipSpace] with [nlIsSpace = false], as [Sscanf] sets it. *)
Fixpoint SkipSpace_loop (rs : list Z) (cnt : Z) : ss + scan_error :=
  if hugeWid <=? cnt then inl (mkss rs cnt)
  else
    match rs with
    | [] => inl (mkss rs cnt)
    | r :: rs' =>
        if (r =? 13) && peek (mkss rs' (cnt + 1)) (String "010" "")
        then SkipSpace_loop rs' (cnt + 1)
        else if r =? 10 then inr ScanUnexpectedNewline
        else if negb (isSpace r) then inl (mkss rs cnt)
        else SkipSpace_loop rs' (cnt + 1)
    end.

Definition SkipSpace (s : ss) : ss + scan_error :=
  SkipSpace_loop (input s) (count s).

(** [ss.notEOF]: [io.EOF] at the end of the input. *)
Definition notEOF (s : ss) : option scan_error :=
  match getRune s with
  | None => Some ScanEOF
  | Some _ => None
  end.

(** [buf.writeRune] for the runes that [accept] lets through (signs
    and digits: all below [0x80], one byte each). *)
Definition writeRune (buf : string) (r : Z) : string :=
  String.append buf (String (ascii_of_N (Z.to_N r)) "").

(** [ss.accept]: one rune of [ok] is moved to the token buffer. *)
Definition accept (s : ss) (ok : string) (buf : string)
  : bool * ss * string :=
  match getRune s with
  | None => (false, s, buf)
  | Some (r, s') =>
      if indexRune ok r then (true, s', writeRune buf r)
      else (false, s, buf)
  end.

Definition sign : string := "+-".
Definition decimalDigits : string := "0123456789".

(** [for s.accept(digits) {}] *)
Fixpoint accept_loop (rs : list Z) (cnt : Z) (ok : string) (buf : string)
  : ss * string :=
  if hugeWid <=? cnt then (mkss rs cnt, buf)
  else
    match rs with
    | [] => (mkss rs cnt, buf)
    | r :: rs' =>
        if indexRune ok r then accept_loop rs' (cnt + 1) ok (writeRune buf r)
        else (mkss rs cnt, buf)
    end.

(** [ss.scanNumber(digits, false)] *)
Definition scanNumber (s : ss) (digits : string) (buf : string)
  : (ss * string) + scan_error :=
  match notEOF s with
  | Some e => inr e
  | None =>
      match accept s digits buf with
      | (false, _, _) => inr ScanExpectedInteger
      | (true, s', buf') => inl (accept_loop (input s') (count s') digits buf')
      end
  end.

Definition of_num_error (e : strconv.num_error) : scan_error :=
  match e with
  | strconv.ErrSyntax => ScanSyntax
  | strconv.ErrRange => ScanRange
  end.

(** [ss.scanInt('d', bitSize)] *)
Definition scanInt (s : ss) (bitSize : Z) : (Z * ss) + scan_error :=
  match SkipSpace s with
  | inr e => inr e
  | inl s =>
      match notEOF s with
      | Some e => inr e
      | None =>
          let '(_, s, buf) := accept s sign "" in
          match scanNumber s decimalDigits buf with
          | inr e => inr e
          | inl (s, tok) =>
              match strconv.ParseInt tok with
              | (_, Some e) => inr (of_num_error e)
              | (i, None) =>
                  if (- 2 ^ (bitSize - 1) <=? i) && (i <? 2 ^ (bitSize - 1))
                  then inl (i, s)
                  else inr ScanOverflow
              end
          end
      end
  end.

(** [ss.scanUint('d', bitSize)] *)
Definition scanUint (s : ss) (bitSize : Z) : (Z * ss) + scan_error :=
  match SkipSpace s with
  | inr e => inr e
  | inl s =>
      match notEOF s with
      | Some e => inr e
      | None =>
          match scanNumber s decimalDigits "" with
          | inr e => inr e
          | inl (s, tok) =>
              match strconv.ParseUint tok with
              | (_, Some e) => inr (of_num_error e)
              | (i, None) =>
                  if i <? 2 ^ bitSize then inl (i, s) else inr ScanOverflow
              end
          end
      end
  end.

(** The operands of [Sscanf], by pointer type. *)
Inductive operand : Type := PtrInt | PtrUint32 | PtrUint8.

(** [intBits]: the width of [int] on a 64-bit platform. *)
Definition intBits : Z := 64.

(** [ss.scanOne('d', arg)] *)
Definition scanOne (s : ss) (arg : operand) : (Z * ss) + scan_error :=
  match arg with
  | PtrInt => scanInt s intBits
  | PtrUint32 => scanUint s 32
  | PtrUint8 => scanUint s 8
  end.

Inductive advanced : Type :=
| Adv (w : Z) (format : string) (s : ss)
| AdvErr (e : scan_error).

(** [ss.advance]: literal bytes of the format are matched against the
    input up to the next verb.  The result is the number [w] of format
    bytes consumed ([-1] on a mismatch) and the format that is left.
    The formats of this package contain no space, which [advance] would
    treat specially; such a format is answered with [ScanBadFormat]. *)
Fixpoint advance (format : string) (i : Z) (s : ss) : advanced :=
  match format with
  | EmptyString => Adv i format s
  | String fc rest =>
      let fmtc := ascii_to_Z fc in
      if isSpace fmtc then AdvErr ScanBadFormat
      else
        let literal (rest : string) (i : Z) :=
          match getRune s with
          | None => AdvErr ScanUnexpectedEOF
          | Some (inputc, s') =>
              if negb (fmtc =? inputc) then Adv (-1) format s
              else advance rest (i + 1) s'
          end in
        if Ascii.eqb fc "%" then
          match rest with
          | EmptyString => AdvErr ScanBadFormat
          | String nextc rest' =>
              if negb (Ascii.eqb nextc "%") then Adv i format s
              else literal rest' (i + 1)
          end
        else literal rest i
  end.

Definition finish (a : list operand) (vals : list Z)
  : list Z * option scan_error :=
  match a with
  | [] => (vals, None)
  | _ => (vals, Some ScanBadFormat)
  end.

(** [ss.doScanf]: [a] are the operands not yet filled, [vals] the values
    stored so far.  Each iteration consumes at least one byte of the
    format.  The only verb of this package's formats is [%d], without a
    width; any other verb is answered with [ScanBadFormat]. *)
Fixpoint doScanf (fuel : nat) (format : string) (s : ss)
         (a : list operand) (vals : list Z) : list Z * option scan_error :=
  match fuel with
  | O => finish a vals
  | S fuel' =>
      match format with
      | EmptyString => finish a vals
      | String f0 frest =>
          match advance format 0 s with
          | AdvErr e => (vals, Some e)
          | Adv w format' s' =>
              if 0 <? w then doScanf fuel' format' s' a vals
              else if negb (Ascii.eqb f0 "%") then
                if w <? 0 then (vals, Some ScanInputMismatch)
                else finish a vals
              else
                match frest with
                | String "d" frest' =>
                    match SkipSpace s' with
                    | inr e => (vals, Some e)
                    | inl s1 =>
                        match a with
                        | [] => (vals, Some ScanBadFormat)
                        | arg :: a' =>
                            match scanOne s1 arg with
                            | inr e => (vals, Some e)
                            | inl (v, s2) =>
                                doScanf fuel' frest' s2 a' (vals ++ [v])
                            end
                        end
                    end
                | _ => (vals, Some ScanBadFormat)
                end
          end
      end
  end.

(** [Sscanf(str, format, a...)]: the values stored through the operand
    pointers and the error. *)
Definition Sscanf (str : string) (format : string) (a : list operand)
  : list Z * option scan_error :=
  doScanf (String.length format) format (mkss (utf8.runes str) 0) a [].

End fmt.

(** ** crypto/subtle *)

Module subtle.

(** [v |= x[i] ^ y[i]] over all indices. *)
Fixpoint accumulate (x y : list byte) (v : Z) : Z :=
  match x, y with
  | a :: x', b :: y' =>
      accumulate x' y' (Z.lor v (Z.lxor (byte_to_Z a) (byte_to_Z b)))
  | _, _ => v
  end.

(** [int((uint32(x^y) - 1) >> 31)] *)
Definition ConstantTimeByteEq (x y : Z) : Z :=
  Z.shiftr (uint32 (uint32 (Z.lxor x y) - 1)) 31.

Definition ConstantTimeCompare (x y : list byte) : Z :=
  if negb (len x =? len y) then 0
  else ConstantTimeByteEq (accumulate x y 0) 0.

End subtle.

(** ** golang.org/x/crypto/argon2 *)

Module argon2.

(** [const Version = 0x13] *)
Definition Version : Z := 19.

End argon2.

(** ** The package *)

Record Options : Type := mkOptions {
  Time : Z;      (* uint32 *)
  Memory : Z;    (* uint32 *)
  Threads : Z;   (* uint8 *)
  KeyLen : Z     (* uint32 *)
}.

Definition DefaultOptions : Options :=
  {| Time := 1; Memory := 64 * 1024; Threads := 4; KeyLen := 32 |}.

(** The values of the Go type [Options]. *)
Definition Options_ok (o : Options) : Prop :=
  0 <= Time o < 2 ^ 32 /\ 0 <= Memory o < 2 ^ 32 /\
  0 <= Threads o < 2 ^ 8 /\ 0 <= KeyLen o < 2 ^ 32.

(** What a call does: it returns a value, returns an error, or does not
    return because the derivation primitive did not. *)
Inductive result (A : Type) : Type :=
| Ok (a : A)
| Err (e : error)
| Panic.
Arguments Ok {A} a.
Arguments Err {A} e.
Arguments Panic {A}.

(** The type of [argon2.IDKey(password, salt, time, memory, threads,
    keyLen)]. *)
Definition primitive : Type :=
  list byte -> list byte -> Z -> Z -> Z -> Z -> option (list byte).

Definition HashPassword (IDKey : primitive)
           (password salt : string) (options : Options) : result string :=
  if String.eqb password "" then Err ErrPasswordRequired
  else if String.eqb salt "" then Err ErrSaltRequired
  else
    match IDKey (bytes_of_string password) (bytes_of_string salt)
                (Time options) (Memory options) (Threads options)
                (KeyLen options) with
    | None => Panic
    | Some hash =>
        let b64Salt := EncodeToBase64String (bytes_of_string salt) in
        let b64Hash := EncodeToBase64String hash in
        let key := fmt.Sprintf "$argon2id$v=%d$m=%d,t=%d,p=%d$%s$%s"
                     [fmt.ArgInt argon2.Version; fmt.ArgInt (Memory options);
                      fmt.ArgInt (Time options); fmt.ArgInt (Threads options);
                      fmt.ArgString b64Salt; fmt.ArgString b64Hash] in
        Ok key
    end.

Definition VerifyPassword (IDKey : primitive) (password key : string)
  : result unit :=
  if String.eqb password "" then Err ErrPasswordRequired
  else if String.eqb key "" then Err ErrArgon2KeyRequired
  else
    let decodedKey := strings.Split key "$" in
    if negb (len decodedKey =? 6) then Err ErrInvalidKeyLength
    else
      match fmt.Sscanf (nth 2 decodedKey "") "v=%d" [fmt.PtrInt] with
      | (_, Some err) => Err (ScanError err)
      | (vs, None) =>
          let version := nth 0 vs argon2.Version in
          if negb (version =? argon2.Version) then Err ErrArgonVersionMismatch
          else
            match fmt.Sscanf (nth 3 decodedKey "") "m=%d,t=%d,p=%d"
                    [fmt.PtrUint32; fmt.PtrUint32; fmt.PtrUint8] with
            | (_, Some err) => Err (ScanError err)
            | (ps, None) =>
                let p_Memory := nth 0 ps 0 in
                let p_Time := nth 1 ps 0 in
                let p_Threads := nth 2 ps 0 in
                match DecodeBase64String (nth 4 decodedKey "") with
                | (_, Some err) => Err err
                | (salt, None) =>
                    match DecodeBase64String (nth 5 decodedKey "") with
                    | (_, Some err) => Err err
                    | (hash, None) =>
                        let p_KeyLen := uint32 (len hash) in
                        match IDKey (bytes_of_string password) salt
                                    p_Time p_Memory p_Threads p_KeyLen with
                        | None => Panic
                        | Some control =>
                            if subtle.ConstantTimeCompare hash control =? 1
                            then Ok tt
                            else Err ErrHashNotEqualPassword
                        end
                    end
                end
            end
      end.

(** ** Notions used in the statements *)

(** [every P s]: all characters of [s] satisfy [P]. *)
Fixpoint every (P : ascii -> bool) (s : string) : bool :=
  match s with
  | EmptyString => true
  | String c s' => P c && every P s'
  end.

Definition is_digit (c : ascii) : bool :=
  (48 <=? ascii_to_Z c) && (ascii_to_Z c <=? 57).

(** [codes s]: the characters of [s] as runes, for a string of one-byte
    runes. *)
Fixpoint codes (s : string) : list Z :=
  match s with
  | EmptyString => []
  | String c s' => ascii_to_Z c :: codes s'
  end.

Definition is_ascii (c : ascii) : bool := ascii_to_Z c <? 128.

(** The scan of a number stops in front of [rest]. *)
Definition stops (rest : list Z) : Prop :=
  match rest with
  | [] => True
  | r :: _ => fmt.indexRune fmt.decimalDigits r = false
  end.

(** The six segments of the string that [HashPassword] builds around the
    derived [hash]. *)
Definition segments (salt : string) (options : Options) (hash : list byte)
  : list string :=
  [ ""; "argon2id";
    String.append "v=" (fmt.fmtInteger argon2.Version);
    String.append "m=" (String.append (fmt.fmtInteger (Memory options))
      (String.append ",t=" (String.append (fmt.fmtInteger (Time options))
         (String.append ",p=" (fmt.fmtInteger (Threads options))))));
    EncodeToBase64String (bytes_of_string salt);
    EncodeToBase64String hash ].

(** [join] of the segments with the separator ["$"]. *)
Fixpoint join (segs : list string) : string :=
  match segs with
  | [] => ""
  | [s] => s
  | s :: segs' => String.append s (String "$" (join segs'))
  end.

(** The derived key that the package's test expects for the password
    ["password"], the salt ["salt"] and [DefaultOptions]. *)
Definition testVectorHash : list byte :=
  [x39; x6c; x26; x9c; xa1; x5e; x98; xa1; x36; x20; xb8; xcc; xeb; x48; xf5;
   xb2; x8d; x68; x45; x70; xc5; x25; x8a; xaf; x3a; x26; x25; x65; x30; x72;
   xbe; xe5].

(** A stand-in for [argon2.IDKey] in closed examples.  On the test vector
    it answers [testVectorHash]; on every other input it answers [keyLen]
    bytes made from the password and the salt. *)
Definition sampleIDKey : primitive :=
  fun password salt time memory threads keyLen =>
    if String.eqb (string_of_bytes password) "password"
       && String.eqb (string_of_bytes salt) "salt"
       && (time =? 1) && (memory =? 65536) && (threads =? 4) && (keyLen =? 32)
    then Some testVectorHash
    else Some (firstn (Z.to_nat keyLen)
                 (password ++ salt ++ repeat x00 (Z.to_nat keyLen))).

(** The credential string of the package's tests. *)
Definition testVectorKey : string :=
  "$argon2id$v=19$m=65536,t=1,p=4$c2FsdA$OWwmnKFemKE2ILjM60j1so1oRXDFJYqvOiYlZTByvuU".

(** A primitive that never returns. *)
Definition neverIDKey : primitive := fun _ _ _ _ _ _ => None.

(** A line break, which the decoder skips. *)
Definition newline (c : ascii) : bool :=
  Ascii.eqb c "010" || Ascii.eqb c "013".

(** The shapes that the specification gives to the two parsed segments,
    read strictly: [v=<int>] and [m=<int>,t=<int>,p=<int>] with nothing
    before, between or after. *)
Definition is_number (s : string) : bool :=
  negb (String.eqb s "") && every is_digit s.

Definition is_integer (s : string) : bool :=
  match s with
  | EmptyString => false
  | String c s' =>
      if Ascii.eqb c "+" || Ascii.eqb c "-" then is_number s' else is_number s
  end.

Definition version_form (s : string) : bool :=
  match s with
  | String "v" (String "=" d) => is_integer d
  | _ => false
  end.

Definition is_field (name : ascii) (s : string) : bool :=
  match s with
  | String n (String "=" d) => Ascii.eqb n name && is_number d
  | _ => false
  end.

Definition params_form (s : string) : bool :=
  match strings.Split s "," with
  | [m; t; p] => is_field "m" m && is_field "t" t && is_field "p" p
  | _ => false
  end.

(** The characters of the URL-safe alphabet: letters, digits, ["-"] and
    ["_"]. *)
Definition url_safe (c : ascii) : bool :=
  let n := ascii_to_Z c in
  ((65 <=? n) && (n <=? 90)) || ((97 <=? n) && (n <=? 122))
  || ((48 <=? n) && (n <=? 57)) || (n =? 45) || (n =? 95).

(** A byte that the decoder rejects: outside the alphabet and no line
    break. *)
Definition invalid (c : ascii) : bool :=
  (base64.decodeMap c =? 255) && negb (newline c).

Definition no_invalid (s : string) : bool :=
  every (fun c => negb (invalid c)) s.

(** The characters of the alphabet in a string, as their six-bit values,
    in order. *)
Fixpoint symbols (s : string) : list Z :=
  match s with
  | EmptyString => []
  | String c s' =>
      if base64.decodeMap c =? 255 then symbols s'
      else base64.decodeMap c :: symbols s'
  end.

(** The bytes that [decodeQuantum] makes of the [dlen] six-bit values it
    has collected in [dbuf]. *)
Definition quantum (dbuf : list Z) (dlen : nat) : list byte :=
  let d i := nth i dbuf 0 in
  let val := Z.lor (Z.lor (Z.lor (Z.shiftl (d 0%nat) 18)
                                 (Z.shiftl (d 1%nat) 12))
                          (Z.shiftl (d 2%nat) 6)) (d 3%nat) in
  let b2 := byte_of_Z (Z.shiftr val 0) in
  let b1 := byte_of_Z (Z.shiftr val 8) in
  let b0 := byte_of_Z (Z.shiftr val 16) in
  firstn (dlen - 1) [b0; b1; b2].

(** The bytes of a sequence of six-bit values, four values at a time. *)
Fixpoint decode_symbols (vs : list Z) : list byte :=
  match vs with
  | v0 :: v1 :: v2 :: v3 :: rest =>
      quantum [v0; v1; v2; v3] 4 ++ decode_symbols rest
  | [v0; v1; v2] => quantum vs 3
  | [v0; v1] => quantum vs 2
  | _ => []
  end.

(** The parameter segment, as [HashPassword] prints the three values. *)
Definition params_segment (m t p : Z) : string :=
  String.append "m=" (String.append (fmt.fmtInteger m)
    (String.append ",t=" (String.append (fmt.fmtInteger t)
      (String.append ",p=" (fmt.fmtInteger p))))).

(** *** What the two scans accept

    The shapes of the two parsed segments as [Sscanf] reads them, written
    as recognisers over the runes of a segment.  A number may be preceded
    by blanks, and nothing is required of what follows the last number. *)

(** A blank: a space of the table [space] other than the line feed. *)
Definition blank (r : Z) : bool := fmt.isSpace r && negb (r =? 10).

Fixpoint skip_blanks (rs : list Z) : list Z :=
  match rs with
  | [] => []
  | r :: rs' => if blank r then skip_blanks rs' else rs
  end.

Definition digit_rune (r : Z) : bool := (48 <=? r) && (r <=? 57).

(** The decimal digits at the head of [rs], as a string, and what comes
    after them. *)
Fixpoint leading_digits (rs : list Z) : string :=
  match rs with
  | [] => ""
  | r :: rs' =>
      if digit_rune r then String (ascii_of_N (Z.to_N r)) (leading_digits rs')
      else ""
  end.

Fixpoint after_digits (rs : list Z) : list Z :=
  match rs with
  | [] => []
  | r :: rs' => if digit_rune r then after_digits rs' else rs
  end.

(** The value of a string of decimal digits, continuing from [acc]. *)
Fixpoint decimal (ds : string) (acc : Z) : Z :=
  match ds with
  | EmptyString => acc
  | String c ds' => decimal ds' (acc * 10 + (ascii_to_Z c - 48))
  end.

(** The literal text [lit] at the head of [rs]: what comes after it. *)
Fixpoint expect (lit : string) (rs : list Z) : option (list Z) :=
  match lit with
  | EmptyString => Some rs
  | String c lit' =>
      match rs with
      | [] => None
      | r :: rs' => if ascii_to_Z c =? r then expect lit' rs' else None
      end
  end.

(** Blanks, then at least one digit; the value has to fit [bits] bits. *)
Definition read_unsigned (bits : Z) (rs : list Z) : option (Z * list Z) :=
  let rs := skip_blanks rs in
  let ds := leading_digits rs in
  if String.eqb ds "" then None
  else
    let v := decimal ds 0 in
    if v <? 2 ^ bits then Some (v, after_digits rs) else None.

(** Blanks, then an optional sign, then at least one digit; the value has
    to be an [int]. *)
Definition read_signed (rs : list Z) : option (Z * list Z) :=
  let rs := skip_blanks rs in
  let '(neg, rs) :=
    match rs with
    | [] => (false, rs)
    | r :: rs' =>
        if r =? 43 then (false, rs')
        else if r =? 45 then (true, rs')
        else (false, rs)
    end in
  let ds := leading_digits rs in
  if String.eqb ds "" then None
  else
    let v := decimal ds 0 in
    if neg then (if v <=? 2 ^ 63 then Some (- v, after_digits rs) else None)
    else (if v <? 2 ^ 63 then Some (v, after_digits rs) else None).

(** A segment that begins with [v=<int>]: the integer. *)
Definition read_version (s : string) : option Z :=
  match expect "v=" (utf8.runes s) with
  | None => None
  | Some rs =>
      match read_signed rs with
      | None => None
      | Some (v, _) => Some v
      end
  end.

(** A segment that begins with [m=<int>,t=<int>,p=<int>], in this order:
    the three integers. *)
Definition read_params (s : string) : option (Z * Z * Z) :=
  match expect "m=" (utf8.runes s) with
  | None => None
  | Some rs =>
      match read_unsigned 32 rs with
      | None => None
      | Some (m, rs) =>
          match expect ",t=" rs with
          | None => None
          | Some rs =>
              match read_unsigned 32 rs with
              | None => None
              | Some (t, rs) =>
                  match expect ",p=" rs with
                  | None => None
                  | Some rs =>
                      match read_unsigned 8 rs with
                      | None => None
                      | Some (p, _) => Some (m, t, p)
                      end
                  end
              end
          end
      end
  end.

(** The same shapes, said without an algorithm.  A field is a run of
    blanks, a sign where the integer is signed, and one or more decimal
    digits whose value fits the type of the operand. *)
Definition unsigned_field (bits : Z) (v : Z) (field : list Z) : Prop :=
  exists (bl : list Z) (ds : string),
    field = bl ++ codes ds
    /\ forallb blank bl = true
    /\ ds <> "" /\ every is_digit ds = true
    /\ v = decimal ds 0 /\ v < 2 ^ bits.

Definition signed_field (v : Z) (field : list Z) : Prop :=
  exists (bl : list Z) (sg ds : string),
    field = bl ++ codes sg ++ codes ds
    /\ forallb blank bl = true
    /\ (sg = "" \/ sg = "+" \/ sg = "-")
    /\ ds <> "" /\ every is_digit ds = true
    /\ v = (if String.eqb sg "-" then - decimal ds 0 else decimal ds 0)
    /\ - 2 ^ 63 <= v < 2 ^ 63.

(** [v=<int>], then anything that does not continue the integer. *)
Definition version_shape (rs : list Z) (v : Z) : Prop :=
  exists field rest : list Z,
    rs = codes "v=" ++ field ++ rest
    /\ signed_field v field /\ stops rest.

(** [m=<int>,t=<int>,p=<int>], then anything that does not continue the
    last integer. *)
Definition params_shape (rs : list Z) (m t p : Z) : Prop :=
  exists fm ft fp rest : list Z,
    rs = codes "m=" ++ fm ++ codes ",t=" ++ ft ++ codes ",p=" ++ fp ++ rest
    /\ unsigned_field 32 m fm /\ unsigned_field 32 t ft
    /\ unsigned_field 8 p fp /\ stops rest.

(** Two notions for the proofs about the scanner: its state in front of
    [rs] when [n] runes are read in all, and a byte of a format that
    stands for itself (no space and no verb). *)
Definition state (n : Z) (rs : list Z) : fmt.ss :=
  fmt.mkss rs (n - len rs).

Definition literal_byte (c : ascii) : bool :=
  negb (fmt.isSpace (ascii_to_Z c)) && negb (Ascii.eqb c "%").

(** * Properties *)

(** ** Bytes *)

Lemma byte_to_Z_range (b : byte) : 0 <= byte_to_Z b < 256.
Proof.
  unfold byte_to_Z. pose proof (Byte.to_N_bounded b). lia.
Qed.

Lemma byte_of_to_Z (b : byte) : byte_of_Z (byte_to_Z b) = b.
Proof.
  unfold byte_of_Z. rewrite Z.mod_small by apply byte_to_Z_range.
  unfold byte_to_Z. rewrite N2Z.id, Byte.of_to_N. reflexivity.
Qed.

Lemma byte_of_Z_mod (z : Z) : byte_of_Z (z mod 256) = byte_of_Z z.
Proof. unfold byte_of_Z. rewrite Z.mod_mod by lia. reflexivity. Qed.

(** ** Disjoint bit fields add up *)

Lemma lor_shiftl_add (hi lo k : Z) :
  0 <= k -> 0 <= lo < 2 ^ k -> Z.lor (Z.shiftl hi k) lo = hi * 2 ^ k + lo.
Proof.
  intros Hk Hlo.
  rewrite Z.shiftl_mul_pow2 by assumption.
  rewrite <- Z.lxor_lor, <- Z.add_nocarry_lxor; try reflexivity.
  all: apply Z.bits_inj'; intros n Hn; rewrite Z.land_spec, Z.bits_0.
  all: destruct (Z.ltb_spec n k).
  all: try (rewrite Z.mul_pow2_bits_low by lia; reflexivity).
  all: replace lo with (lo mod 2 ^ k) by (apply Z.mod_small; lia).
  all: rewrite Z.mod_pow2_bits_high by lia; apply andb_false_r.
Qed.

Lemma list_ind3 {A} (P : list A -> Prop) :
  P [] -> (forall a, P [a]) -> (forall a b, P [a; b]) ->
  (forall a b c l, P l -> P (a :: b :: c :: l)) ->
  forall l, P l.
Proof.
  intros H0 H1 H2 H3 l.
  enough (P l /\ (forall a, P (a :: l)) /\ (forall a b, P (a :: b :: l)))
    by tauto.
  induction l as [|x l (IH0 & IH1 & IH2)]; auto.
Qed.

Lemma lor_add (x lo k : Z) :
  0 <= k -> x mod 2 ^ k = 0 -> 0 <= lo < 2 ^ k -> Z.lor x lo = x + lo.
Proof.
  intros Hk Hx Hlo.
  assert (E : x = x / 2 ^ k * 2 ^ k).
  { pose proof (Z.div_mod x (2 ^ k)). lia. }
  rewrite E at 1. rewrite <- Z.shiftl_mul_pow2 by lia.
  rewrite lor_shiftl_add by lia. lia.
Qed.

Ltac bits_to_arith :=
  repeat rewrite Z.shiftr_div_pow2 by lia;
  repeat rewrite Z.shiftl_mul_pow2 by lia;
  change 63 with (Z.ones 6); repeat rewrite Z.land_ones by lia.

Ltac arith := Z.div_mod_to_equations; lia.

Lemma pack3 (a b c : Z) :
  0 <= a < 256 -> 0 <= b < 256 -> 0 <= c < 256 ->
  Z.lor (Z.lor (Z.shiftl a 16) (Z.shiftl b 8)) c = a * 65536 + b * 256 + c.
Proof.
  intros. bits_to_arith.
  rewrite (lor_add _ (b * 2 ^ 8) 16) by arith.
  rewrite (lor_add _ c 8) by arith. lia.
Qed.

Lemma unpack4 (val : Z) :
  0 <= val < 2 ^ 24 ->
  Z.lor (Z.lor (Z.lor (Z.shiftl (Z.land (Z.shiftr val 18) 63) 18)
                      (Z.shiftl (Z.land (Z.shiftr val 12) 63) 12))
               (Z.shiftl (Z.land (Z.shiftr val 6) 63) 6))
        (Z.land (Z.shiftr val 0) 63) = val.
Proof.
  intros. bits_to_arith.
  rewrite (lor_add _ (_ * 2 ^ 12) 18) by arith.
  rewrite (lor_add _ (_ * 2 ^ 6) 12) by arith.
  rewrite (lor_add _ (_ mod 2 ^ 6) 6) by arith.
  arith.
Qed.

Lemma byte_of_Z_eq (z : Z) (b : byte) : z mod 256 = byte_to_Z b -> byte_of_Z z = b.
Proof.
  intros H. rewrite <- byte_of_Z_mod, H. apply byte_of_to_Z.
Qed.

(** ** The codec *)

Module base64_facts.
Import base64.

Lemma decodeMap_encode (v : Z) :
  0 <= v < 64 -> decodeMap (encode v) = v.
Proof.
  intros Hv.
  assert (H : forallb (fun n => decodeMap (encode (Z.of_nat n)) =? Z.of_nat n)
                (seq 0 64) = true) by (vm_compute; reflexivity).
  rewrite forallb_forall in H.
  specialize (H (Z.to_nat v)). rewrite Z2Nat.id in H by lia.
  apply Z.eqb_eq, H, in_seq. lia.
Qed.

Lemma sextet_bound (val k : Z) : 0 <= Z.land (Z.shiftr val k) 63 < 64.
Proof.
  change 63 with (Z.ones 6). rewrite Z.land_ones by lia.
  apply Z.mod_pos_bound. lia.
Qed.

Lemma collect_valid (v : Z) (rest : string) (si : Z) (j : nat) (dbuf : list Z) :
  0 <= v < 64 -> (j < 4)%nat ->
  collect (String (encode v) rest) si j dbuf
  = collect rest (si + 1) (S j) (dbuf ++ [v]).
Proof.
  intros Hv Hj.
  destruct j as [|[|[|[|j]]]]; try lia; cbn [collect Nat.eqb];
    rewrite (decodeMap_encode v Hv);
    (destruct (Z.eqb_spec v 255); [lia | reflexivity]).
Qed.

Lemma collect_full (src : string) (si : Z) (dbuf : list Z) :
  collect src si 4 dbuf = Collected src si dbuf 4.
Proof. destruct src; reflexivity. Qed.

(** Four characters of the alphabet are one whole quantum. *)
Lemma decodeQuantum_4 (v0 v1 v2 v3 : Z) (rest : string) (si : Z) :
  0 <= v0 < 64 -> 0 <= v1 < 64 -> 0 <= v2 < 64 -> 0 <= v3 < 64 ->
  decodeQuantum
    (String (encode v0) (String (encode v1)
       (String (encode v2) (String (encode v3) rest)))) si
  = let val := Z.lor (Z.lor (Z.lor (Z.shiftl v0 18) (Z.shiftl v1 12))
                            (Z.shiftl v2 6)) v3 in
    (rest, si + 1 + 1 + 1 + 1,
     [byte_of_Z (Z.shiftr val 16); byte_of_Z (Z.shiftr val 8);
      byte_of_Z (Z.shiftr val 0)], None).
Proof.
  intros H0 H1 H2 H3. unfold decodeQuantum.
  rewrite !collect_valid by (assumption || lia).
  rewrite collect_full. reflexivity.
Qed.

Lemma decodeQuantum_3 (v0 v1 v2 : Z) (si : Z) :
  0 <= v0 < 64 -> 0 <= v1 < 64 -> 0 <= v2 < 64 ->
  decodeQuantum
    (String (encode v0) (String (encode v1) (String (encode v2) ""))) si
  = let val := Z.lor (Z.lor (Z.shiftl v0 18) (Z.shiftl v1 12))
                     (Z.shiftl v2 6) in
    ("", si + 1 + 1 + 1,
     [byte_of_Z (Z.shiftr val 16); byte_of_Z (Z.shiftr val 8)], None).
Proof.
  intros H0 H1 H2. unfold decodeQuantum.
  rewrite !collect_valid by (assumption || lia).
  cbn. rewrite !Z.lor_0_r. reflexivity.
Qed.

Lemma decodeQuantum_2 (v0 v1 : Z) (si : Z) :
  0 <= v0 < 64 -> 0 <= v1 < 64 ->
  decodeQuantum (String (encode v0) (String (encode v1) "")) si
  = let val := Z.lor (Z.shiftl v0 18) (Z.shiftl v1 12) in
    ("", si + 1 + 1, [byte_of_Z (Z.shiftr val 16)], None).
Proof.
  intros H0 H1. unfold decodeQuantum.
  rewrite !collect_valid by (assumption || lia).
  cbn. rewrite !Z.lor_0_r. reflexivity.
Qed.

Lemma unpack3 (val : Z) :
  0 <= val < 2 ^ 24 -> val mod 64 = 0 ->
  Z.lor (Z.lor (Z.shiftl (Z.land (Z.shiftr val 18) 63) 18)
               (Z.shiftl (Z.land (Z.shiftr val 12) 63) 12))
        (Z.shiftl (Z.land (Z.shiftr val 6) 63) 6) = val.
Proof.
  intros. bits_to_arith.
  rewrite (lor_add _ (_ * 2 ^ 12) 18) by arith.
  rewrite (lor_add _ (_ * 2 ^ 6) 12) by arith.
  arith.
Qed.

Lemma unpack2 (val : Z) :
  0 <= val < 2 ^ 24 -> val mod 4096 = 0 ->
  Z.lor (Z.shiftl (Z.land (Z.shiftr val 18) 63) 18)
        (Z.shiftl (Z.land (Z.shiftr val 12) 63) 12) = val.
Proof.
  intros. bits_to_arith.
  rewrite (lor_add _ (_ * 2 ^ 12) 18) by arith.
  arith.
Qed.

Lemma pack2 (a b : Z) :
  0 <= a < 256 -> 0 <= b < 256 ->
  Z.lor (Z.shiftl a 16) (Z.shiftl b 8) = a * 65536 + b * 256.
Proof.
  intros. bits_to_arith.
  rewrite (lor_add _ (b * 2 ^ 8) 16) by arith. lia.
Qed.

(** Decoding undoes encoding, from any index and after any prefix. *)
Lemma Decode_loop_Encode (b : list byte) :
  forall (fuel : nat) (si : Z) (dst : list byte),
    (String.length (Encode b) <= fuel)%nat ->
    Decode_loop fuel (Encode b) si dst = (dst ++ b, None).
Proof.
  induction b as [| b0 | b0 b1 | b0 b1 b2 rest IH] using list_ind3;
    intros fuel si dst Hfuel.
  - destruct fuel; cbn; rewrite app_nil_r; reflexivity.
  - destruct fuel as [|fuel]; [cbn in Hfuel; lia|].
    pose proof (byte_to_Z_range b0) as R0.
    cbn [Encode Decode_loop]. unfold sextet.
    rewrite decodeQuantum_2 by apply sextet_bound.
    cbv zeta. rewrite unpack2.
    + rewrite (byte_of_Z_eq _ b0).
      * destruct fuel; reflexivity.
      * rewrite Z.shiftr_div_pow2, Z.shiftl_mul_pow2 by lia. arith.
    + rewrite Z.shiftl_mul_pow2 by lia. lia.
    + rewrite Z.shiftl_mul_pow2 by lia. arith.
  - destruct fuel as [|fuel]; [cbn in Hfuel; lia|].
    pose proof (byte_to_Z_range b0) as R0.
    pose proof (byte_to_Z_range b1) as R1.
    cbn [Encode Decode_loop]. unfold sextet.
    rewrite decodeQuantum_3 by apply sextet_bound.
    cbv zeta. rewrite pack2 by assumption. rewrite unpack3 by arith.
    rewrite (byte_of_Z_eq _ b0), (byte_of_Z_eq _ b1).
    + destruct fuel; reflexivity.
    + rewrite Z.shiftr_div_pow2 by lia. arith.
    + rewrite Z.shiftr_div_pow2 by lia. arith.
  - destruct fuel as [|fuel]; [cbn in Hfuel; lia|].
    pose proof (byte_to_Z_range b0) as R0.
    pose proof (byte_to_Z_range b1) as R1.
    pose proof (byte_to_Z_range b2) as R2.
    cbn [Encode Decode_loop]. unfold sextet.
    rewrite decodeQuantum_4 by apply sextet_bound.
    cbv zeta. rewrite pack3 by assumption. rewrite unpack4 by lia.
    rewrite (byte_of_Z_eq _ b0), (byte_of_Z_eq _ b1), (byte_of_Z_eq _ b2).
    + rewrite IH.
      * rewrite <- app_assoc. reflexivity.
      * cbn [Encode String.length] in Hfuel. lia.
    + rewrite Z.shiftr_div_pow2 by lia. arith.
    + rewrite Z.shiftr_div_pow2 by lia. arith.
    + rewrite Z.shiftr_div_pow2 by lia. arith.
Qed.

End base64_facts.

Theorem roundtrip (b : list byte) :
  DecodeBase64String (EncodeToBase64String b) = (b, None).
Proof.
  unfold DecodeBase64String, EncodeToBase64String, base64.DecodeString,
    base64.EncodeToString.
  rewrite base64_facts.Decode_loop_Encode by lia. reflexivity.
Qed.

(** ** The comparison *)

Module subtle_facts.
Import subtle.

Lemma byte_to_Z_inj (a b : byte) : byte_to_Z a = byte_to_Z b -> a = b.
Proof.
  intros H. rewrite <- (byte_of_to_Z a), <- (byte_of_to_Z b), H. reflexivity.
Qed.

Lemma lxor_byte_range (a b : byte) :
  0 <= Z.lxor (byte_to_Z a) (byte_to_Z b) < 256.
Proof.
  pose proof (byte_to_Z_range a). pose proof (byte_to_Z_range b).
  split; [apply Z.lxor_nonneg; lia|].
  destruct (Z.eq_dec (Z.lxor (byte_to_Z a) (byte_to_Z b)) 0) as [->|Hne]; [lia|].
  apply (Z.log2_lt_cancel _ 256).
  eapply Z.le_lt_trans; [apply Z.log2_lxor; lia|].
  change (Z.log2 256) with 8.
  destruct (Z.eq_dec (byte_to_Z a) 0) as [Ea|Na];
    destruct (Z.eq_dec (byte_to_Z b) 0) as [Eb|Nb];
    rewrite ?Ea, ?Eb; cbn [Z.log2 Z.max];
    try apply Z.max_lub_lt; try lia;
    try (apply Z.log2_lt_pow2; lia).
Qed.

Lemma lor_range (v w : Z) : 0 <= v < 256 -> 0 <= w < 256 -> 0 <= Z.lor v w < 256.
Proof.
  intros Hv Hw. split; [apply Z.lor_nonneg; lia|].
  destruct (Z.eq_dec (Z.lor v w) 0) as [->|Hne]; [lia|].
  apply (Z.log2_lt_cancel _ 256). rewrite Z.log2_lor by lia.
  change (Z.log2 256) with 8.
  destruct (Z.eq_dec v 0) as [->|Nv]; destruct (Z.eq_dec w 0) as [->|Nw];
    cbn [Z.log2 Z.max]; try apply Z.max_lub_lt; try lia;
    try (apply Z.log2_lt_pow2; lia).
Qed.

Lemma accumulate_range (x : list byte) :
  forall y v, 0 <= v < 256 -> 0 <= accumulate x y v < 256.
Proof.
  induction x as [|a x IH]; intros [|b y] v Hv; cbn; try assumption.
  apply IH, lor_range; [assumption | apply lxor_byte_range].
Qed.

Lemma accumulate_zero (x : list byte) :
  forall y v, 0 <= v -> List.length x = List.length y ->
    (accumulate x y v = 0 <-> v = 0 /\ x = y).
Proof.
  induction x as [|a x IH]; intros [|b y] v Hv Hlen; cbn in *; try discriminate.
  - intuition.
  - pose proof (lxor_byte_range a b) as R.
    rewrite IH by (try apply Z.lor_nonneg; lia).
    rewrite Z.lor_eq_0_iff, Z.lxor_eq_0_iff. split.
    + intros [[-> E] ->]. apply byte_to_Z_inj in E. subst. auto.
    + intros [-> E]. injection E as -> ->. auto.
Qed.

Lemma ConstantTimeByteEq_zero (v : Z) :
  0 <= v < 256 -> (ConstantTimeByteEq v 0 = 1 <-> v = 0).
Proof.
  intros Hv. unfold ConstantTimeByteEq, uint32.
  rewrite Z.lxor_0_r, (Z.mod_small v) by lia.
  rewrite Z.shiftr_div_pow2 by lia.
  destruct (Z.eq_dec v 0) as [->|Hne].
  - split; [reflexivity|]. intros _. reflexivity.
  - rewrite Z.mod_small by lia. rewrite Z.div_small by lia. lia.
Qed.

(** The comparison answers 1 exactly on equal slices. *)
Lemma ConstantTimeCompare_eq (x y : list byte) :
  ConstantTimeCompare x y = 1 <-> x = y.
Proof.
  unfold ConstantTimeCompare, len.
  destruct (Z.eqb_spec (Z.of_nat (List.length x)) (Z.of_nat (List.length y)))
    as [E|N]; cbn [negb].
  - rewrite ConstantTimeByteEq_zero by (apply accumulate_range; lia).
    rewrite accumulate_zero by lia. tauto.
  - split; [discriminate|]. intros ->. contradiction.
Qed.

End subtle_facts.

(** ** Splitting *)

Module strings_facts.
Import strings.

Lemma Count_append (a b : string) (sep : ascii) :
  Count (String.append a b) sep = (Count a sep + Count b sep)%nat.
Proof.
  induction a as [|c a IH]; cbn; [reflexivity|].
  destruct (Ascii.eqb c sep); rewrite IH; reflexivity.
Qed.

Lemma cut_none (a : string) (sep : ascii) :
  Count a sep = O -> cut a sep = None.
Proof.
  induction a as [|c a IH]; cbn; [reflexivity|].
  destruct (Ascii.eqb c sep); [discriminate|].
  intros H. rewrite IH by assumption. reflexivity.
Qed.

Lemma cut_append (a r : string) (sep : ascii) :
  Count a sep = O -> cut (String.append a (String sep r)) sep = Some (a, r).
Proof.
  induction a as [|c a IH]; cbn.
  - rewrite Ascii.eqb_refl. reflexivity.
  - destruct (Ascii.eqb c sep); [discriminate|].
    intros H. rewrite IH by assumption. reflexivity.
Qed.

(** A string without separator is its own single segment. *)
Lemma Split_single (a : string) (sep : ascii) :
  Count a sep = O -> Split a sep = [a].
Proof. intros H. unfold Split. rewrite H. reflexivity. Qed.

(** The first segment is what precedes the first separator. *)
Lemma Split_cons (a r : string) (sep : ascii) :
  Count a sep = O ->
  Split (String.append a (String sep r)) sep = a :: Split r sep.
Proof.
  intros H. unfold Split. rewrite Count_append, H. cbn [Count Nat.add].
  rewrite Ascii.eqb_refl. cbn [genSplit]. rewrite cut_append by assumption.
  reflexivity.
Qed.

Lemma Split_length (s : string) (sep : ascii) :
  List.length (Split s sep) = S (Count s sep).
Proof.
  unfold Split.
  enough (H : forall n s, n = Count s sep ->
                List.length (genSplit n s sep) = S n) by (apply H; reflexivity).
  clear s. induction n as [|n IH]; intros s Hn; [reflexivity|].
  cbn [genSplit].
  assert (Hcut : exists a r, cut s sep = Some (a, r) /\ Count r sep = n).
  { revert Hn. clear IH. induction s as [|c s IHs]; cbn; [discriminate|].
    destruct (Ascii.eqb c sep).
    - intros [= ->]. eauto.
    - intros Hn. destruct (IHs Hn) as (a & r & -> & Hr). eauto. }
  destruct Hcut as (a & r & -> & Hr). cbn. rewrite IH; auto.
Qed.

End strings_facts.

(** ** Decimal numbers: printing and parsing *)

Lemma every_append (P : ascii -> bool) (a b : string) :
  every P (String.append a b) = every P a && every P b.
Proof.
  induction a as [|c a IH]; cbn; [reflexivity|].
  rewrite IH. apply andb_assoc.
Qed.

Lemma every_impl (P Q : ascii -> bool) (s : string) :
  (forall c, P c = true -> Q c = true) -> every P s = true -> every Q s = true.
Proof.
  intros HPQ. induction s as [|c s IH]; cbn; [reflexivity|].
  rewrite !andb_true_iff. intros [Hc Hs]. auto.
Qed.

Lemma ascii_to_Z_range (c : ascii) : 0 <= ascii_to_Z c < 256.
Proof.
  unfold ascii_to_Z. pose proof (N_ascii_bounded c). lia.
Qed.

Lemma ascii_of_to_Z (c : ascii) : ascii_of_N (Z.to_N (ascii_to_Z c)) = c.
Proof.
  unfold ascii_to_Z. rewrite N2Z.id. apply ascii_N_embedding.
Qed.

Module fmt_facts.
Import fmt.

Lemma ascii_to_Z_digit (d : Z) : 0 <= d <= 9 -> ascii_to_Z (digit d) = 48 + d.
Proof.
  intros Hd. unfold ascii_to_Z, digit.
  rewrite N_ascii_embedding by lia. lia.
Qed.

Lemma is_digit_digit (d : Z) : 0 <= d <= 9 -> is_digit (digit d) = true.
Proof.
  intros Hd. unfold is_digit. rewrite ascii_to_Z_digit by assumption.
  apply andb_true_iff. split; apply Z.leb_le; lia.
Qed.

Lemma fmtInteger_loop_digits (fuel : nat) :
  forall u buf, 0 <= u -> every is_digit buf = true ->
    every is_digit (fmtInteger_loop fuel u buf) = true.
Proof.
  induction fuel as [|fuel IH]; intros u buf Hu Hbuf; cbn; [assumption|].
  destruct (Z.leb_spec 10 u).
  - apply IH; [apply Z.div_pos; lia|].
    cbn. rewrite is_digit_digit, Hbuf; [reflexivity|].
    pose proof (Z.div_mod u 10). pose proof (Z.mod_pos_bound u 10). lia.
  - cbn. rewrite is_digit_digit, Hbuf; [reflexivity | lia].
Qed.

Lemma fmtInteger_loop_length (fuel : nat) :
  forall u buf,
    (1 <= String.length (fmtInteger_loop (S fuel) u buf)
       <= S fuel + String.length buf)%nat.
Proof.
  induction fuel as [|fuel IH]; intros u buf.
  - cbn. destruct (10 <=? u); cbn; lia.
  - cbn [fmtInteger_loop]. destruct (10 <=? u).
    + specialize (IH (u / 10) (String (digit (u - u / 10 * 10)) buf)).
      cbn [String.length] in IH. cbn [fmtInteger_loop] in IH. lia.
    + cbn. lia.
Qed.

(** Parsing what was printed continues from the printed value. *)
Lemma ParseUint_loop_fmtInteger_loop (fuel : nat) :
  forall u buf,
    0 <= u <= strconv.maxUint64 -> u < 10 ^ Z.of_nat fuel ->
    strconv.ParseUint_loop (fmtInteger_loop fuel u buf) 0
    = strconv.ParseUint_loop buf u.
Proof.
  unfold strconv.maxUint64.
  induction fuel as [|fuel IH]; intros u buf Hu Hfuel.
  - cbn in Hfuel. assert (u = 0) by lia. subst. reflexivity.
  - cbn [fmtInteger_loop].
    assert (Hpow : 10 ^ Z.of_nat (S fuel) = 10 * 10 ^ Z.of_nat fuel).
    { rewrite Nat2Z.inj_succ, Z.pow_succ_r by lia. reflexivity. }
    pose proof (Z.div_mod u 10) as Hdm.
    pose proof (Z.mod_pos_bound u 10) as Hm.
    destruct (Z.leb_spec 10 u) as [Hge|Hlt].
    + rewrite IH.
      * cbn [strconv.ParseUint_loop].
        rewrite ascii_to_Z_digit by lia.
        replace (48 <=? 48 + (u - u / 10 * 10)) with true
          by (symmetry; apply Z.leb_le; lia).
        replace (48 + (u - u / 10 * 10) <=? 57) with true
          by (symmetry; apply Z.leb_le; lia).
        cbn [andb]. unfold strconv.maxUint64.
        replace ((2 ^ 64 - 1) / 10 + 1 <=? u / 10) with false.
        2:{ symmetry. apply Z.leb_gt.
            assert (u / 10 <= (2 ^ 64 - 1) / 10) by (apply Z.div_le_mono; lia).
            lia. }
        replace (u / 10 * 10 + (48 + (u - u / 10 * 10) - 48)) with u by lia.
        replace (2 ^ 64 - 1 <? u) with false
          by (symmetry; apply Z.ltb_ge; lia).
        reflexivity.
      * split; [apply Z.div_pos; lia|].
        assert (u / 10 <= u) by (apply Z.div_le_upper_bound; lia). lia.
      * apply Z.div_lt_upper_bound; lia.
    + cbn [strconv.ParseUint_loop].
      rewrite ascii_to_Z_digit by lia.
      replace (48 <=? 48 + u) with true by (symmetry; apply Z.leb_le; lia).
      replace (48 + u <=? 57) with true by (symmetry; apply Z.leb_le; lia).
      cbn [andb]. unfold strconv.maxUint64.
      replace ((2 ^ 64 - 1) / 10 + 1 <=? 0) with false by reflexivity.
      replace (0 * 10 + (48 + u - 48)) with u by lia.
      replace (2 ^ 64 - 1 <? u) with false by (symmetry; apply Z.ltb_ge; lia).
      reflexivity.
Qed.

(** [%d] of an unsigned 64-bit value reads back as that value. *)
Lemma ParseUint_fmtInteger (u : Z) :
  0 <= u < 2 ^ 64 -> strconv.ParseUint (fmtInteger u) = (u, None).
Proof.
  intros Hu. unfold fmtInteger.
  destruct (Z.ltb_spec u 0); [lia|].
  unfold strconv.ParseUint.
  pose proof (fmtInteger_loop_length 19 u "") as Hlen.
  destruct (fmtInteger_loop 20 u "") eqn:E; [cbn in Hlen; lia|].
  rewrite <- E. rewrite ParseUint_loop_fmtInteger_loop.
  - reflexivity.
  - unfold strconv.maxUint64. lia.
  - change (10 ^ Z.of_nat 20) with 100000000000000000000. lia.
Qed.

Lemma fmtInteger_digits (u : Z) :
  0 <= u -> every is_digit (fmtInteger u) = true.
Proof.
  intros Hu. unfold fmtInteger. destruct (Z.ltb_spec u 0); [lia|].
  apply fmtInteger_loop_digits; [assumption | reflexivity].
Qed.

Lemma fmtInteger_length (u : Z) :
  0 <= u -> (1 <= String.length (fmtInteger u) <= 20)%nat.
Proof.
  intros Hu. unfold fmtInteger. destruct (Z.ltb_spec u 0); [lia|].
  pose proof (fmtInteger_loop_length 19 u ""). cbn [String.length] in *. lia.
Qed.

End fmt_facts.

Lemma codes_append (a b : string) :
  codes (String.append a b) = codes a ++ codes b.
Proof. induction a as [|c a IH]; cbn; [|rewrite IH]; reflexivity. Qed.

Module utf8_facts.
Import utf8.

Lemma runes_loop_ascii (s : string) :
  forall fuel, (String.length s <= fuel)%nat -> every is_ascii s = true ->
    runes_loop fuel s = codes s.
Proof.
  induction s as [|c s IH]; intros fuel Hfuel Hs.
  - destruct fuel; reflexivity.
  - destruct fuel as [|fuel]; [cbn in Hfuel; lia|].
    cbn in Hs. apply andb_true_iff in Hs as [Hc Hs].
    unfold is_ascii in Hc.
    cbn [runes_loop DecodeRuneInString]. rewrite Hc. cbn [drop codes].
    rewrite IH; [reflexivity | cbn in Hfuel; lia | assumption].
Qed.

(** A string of one-byte runes is read character by character. *)
Lemma runes_ascii (s : string) : every is_ascii s = true -> runes s = codes s.
Proof. intros H. apply runes_loop_ascii; [lia | assumption]. Qed.

End utf8_facts.

Module scan_facts.
Import fmt.

Lemma getRune_cons (r : Z) (rs : list Z) (cnt : Z) :
  cnt < hugeWid -> getRune (mkss (r :: rs) cnt) = Some (r, mkss rs (cnt + 1)).
Proof.
  intros H. unfold getRune. cbn [count input].
  destruct (Z.leb_spec hugeWid cnt); [lia | reflexivity].
Qed.

Lemma indexRune_digit (c : ascii) :
  is_digit c = true -> indexRune decimalDigits (ascii_to_Z c) = true.
Proof.
  unfold is_digit. rewrite andb_true_iff, !Z.leb_le. intros [H1 H2].
  assert (H : In (ascii_to_Z c) [48; 49; 50; 51; 52; 53; 54; 55; 56; 57]).
  { cbn. lia. }
  cbn in H. repeat (destruct H as [<-|H]; [reflexivity|]). contradiction.
Qed.

Lemma isSpace_digit (c : ascii) :
  is_digit c = true -> isSpace (ascii_to_Z c) = false.
Proof.
  unfold is_digit. rewrite andb_true_iff, !Z.leb_le. intros [H1 H2].
  unfold isSpace.
  repeat match goal with
         | |- context [?a <=? ?b] => destruct (Z.leb_spec a b); try lia
         | |- context [?a =? ?b] => destruct (Z.eqb_spec a b); try lia
         end; reflexivity.
Qed.

Lemma writeRune_code (buf : string) (c : ascii) :
  writeRune buf (ascii_to_Z c) = String.append buf (String c "").
Proof. unfold writeRune. rewrite ascii_of_to_Z. reflexivity. Qed.

Lemma append_assoc (a b c : string) :
  String.append (String.append a b) c = String.append a (String.append b c).
Proof. induction a as [|x a IH]; cbn; [|rewrite IH]; reflexivity. Qed.

Lemma append_nil_r (a : string) : String.append a "" = a.
Proof. induction a as [|x a IH]; cbn; [|rewrite IH]; reflexivity. Qed.

Lemma accept_loop_stop (rest : list Z) (cnt : Z) (buf : string) :
  stops rest ->
  accept_loop rest cnt decimalDigits buf = (mkss rest cnt, buf).
Proof.
  intros H. destruct rest as [|r rest]; cbn [accept_loop].
  - destruct (hugeWid <=? cnt); reflexivity.
  - unfold stops in H. rewrite H. destruct (hugeWid <=? cnt); reflexivity.
Qed.

(** A run of digits is consumed whole and becomes the token. *)
Lemma accept_loop_digits (d : string) :
  forall (rest : list Z) (cnt : Z) (buf : string),
    every is_digit d = true -> stops rest ->
    cnt + Z.of_nat (String.length d) <= hugeWid ->
    accept_loop (codes d ++ rest) cnt decimalDigits buf
    = (mkss rest (cnt + Z.of_nat (String.length d)), String.append buf d).
Proof.
  induction d as [|c d IH]; intros rest cnt buf Hd Hrest Hcnt.
  - cbn [codes app String.length]. rewrite accept_loop_stop by assumption.
    rewrite append_nil_r. f_equal. f_equal. cbn. lia.
  - cbn in Hd. apply andb_true_iff in Hd as [Hc Hd].
    cbn [String.length] in Hcnt.
    cbn [codes app accept_loop].
    destruct (Z.leb_spec hugeWid cnt); [lia|].
    rewrite indexRune_digit by assumption.
    rewrite writeRune_code, IH by (assumption || lia).
    rewrite append_assoc. cbn [String.append String.length].
    f_equal. f_equal. lia.
Qed.

Lemma SkipSpace_digit (c : ascii) (rs : list Z) (cnt : Z) :
  is_digit c = true ->
  SkipSpace (mkss (ascii_to_Z c :: rs) cnt) = inl (mkss (ascii_to_Z c :: rs) cnt).
Proof.
  intros Hc. unfold SkipSpace. cbn [input count SkipSpace_loop].
  destruct (hugeWid <=? cnt); [reflexivity|].
  rewrite (isSpace_digit c Hc).
  unfold is_digit in Hc. apply andb_true_iff in Hc as [H1 H2].
  apply Z.leb_le in H1, H2.
  destruct (Z.eqb_spec (ascii_to_Z c) 13); [lia|].
  destruct (Z.eqb_spec (ascii_to_Z c) 10); [lia|].
  reflexivity.
Qed.

(** An unsigned number in decimal digits, followed by something that is
    not a digit, is scanned to its value. *)
Lemma scanUint_digits (d : string) (rest : list Z) (cnt u bitSize : Z) :
  d <> "" -> every is_digit d = true -> stops rest ->
  cnt + Z.of_nat (String.length d) <= hugeWid ->
  strconv.ParseUint d = (u, None) -> u < 2 ^ bitSize ->
  scanUint (mkss (codes d ++ rest) cnt) bitSize
  = inl (u, mkss rest (cnt + Z.of_nat (String.length d))).
Proof.
  intros Hne Hd Hrest Hcnt Hparse Hu.
  destruct d as [|c d]; [contradiction|].
  pose proof Hd as Hd'. cbn in Hd'. apply andb_true_iff in Hd' as [Hc Hd'].
  cbn [String.length] in Hcnt.
  unfold scanUint. cbn [codes app].
  rewrite SkipSpace_digit by assumption.
  unfold notEOF, scanNumber, notEOF, accept.
  rewrite getRune_cons by lia.
  rewrite indexRune_digit by assumption.
  cbn [input count]. rewrite writeRune_code. cbn [String.append].
  rewrite accept_loop_digits by (assumption || lia).
  cbn [String.append]. rewrite Hparse.
  destruct (Z.ltb_spec u (2 ^ bitSize)); [|lia].
  f_equal. f_equal. f_equal. cbn [String.length]. lia.
Qed.

End scan_facts.

Module scanf_facts.
Import fmt scan_facts.

Lemma is_digit_ascii (c : ascii) : is_digit c = true -> is_ascii c = true.
Proof.
  unfold is_digit, is_ascii. rewrite andb_true_iff, !Z.leb_le, Z.ltb_lt. lia.
Qed.

(** One literal byte of the format against the same rune of the input. *)
Lemma advance_literal (c : ascii) (frest : string) (i : Z)
      (rs : list Z) (cnt : Z) :
  isSpace (ascii_to_Z c) = false -> Ascii.eqb c "%" = false ->
  cnt < hugeWid ->
  advance (String c frest) i (mkss (ascii_to_Z c :: rs) cnt)
  = advance frest (i + 1) (mkss rs (cnt + 1)).
Proof.
  intros Hsp Hpc Hcnt. cbn [advance]. rewrite Hsp, Hpc.
  rewrite getRune_cons by assumption. rewrite Z.eqb_refl. reflexivity.
Qed.

Lemma advance_verb (verb : ascii) (frest : string) (i : Z) (s : ss) :
  Ascii.eqb verb "%" = false ->
  advance (String "%" (String verb frest)) i s
  = Adv i (String "%" (String verb frest)) s.
Proof. intros H. cbn [advance]. rewrite H. reflexivity. Qed.

Lemma stops_code (c : ascii) (rs : list Z) :
  indexRune decimalDigits (ascii_to_Z c) = false -> stops (ascii_to_Z c :: rs).
Proof. intros H. exact H. Qed.

Lemma SkipSpace_codes (d : string) (rest : list Z) (cnt : Z) :
  d <> "" -> every is_digit d = true ->
  SkipSpace (mkss (codes d ++ rest) cnt) = inl (mkss (codes d ++ rest) cnt).
Proof.
  intros Hne Hd. destruct d as [|c d]; [contradiction|].
  cbn in Hd. apply andb_true_iff in Hd as [Hc _].
  cbn [codes app]. apply SkipSpace_digit. assumption.
Qed.

(** One iteration of [doScanf] over literal bytes of the format. *)
Lemma doScanf_literals (fuel : nat) (f0 : ascii) (frest : string) (s : ss)
      (a : list operand) (vals : list Z) (w : Z) (format' : string) (s' : ss) :
  advance (String f0 frest) 0 s = Adv w format' s' -> 0 < w ->
  doScanf (S fuel) (String f0 frest) s a vals = doScanf fuel format' s' a vals.
Proof.
  intros Hadv Hw. cbn [doScanf]. rewrite Hadv.
  destruct (Z.ltb_spec 0 w); [reflexivity | lia].
Qed.

(** One iteration of [doScanf] over the verb [%d]. *)
Lemma doScanf_verb_d (fuel : nat) (frest : string) (s s1 s2 : ss)
      (arg : operand) (a : list operand) (vals : list Z) (v : Z) :
  SkipSpace s = inl s1 -> scanOne s1 arg = inl (v, s2) ->
  doScanf (S fuel) (String "%" (String "d" frest)) s (arg :: a) vals
  = doScanf fuel frest s2 a (vals ++ [v]).
Proof.
  intros Hsk Hscan. cbn [doScanf]. rewrite advance_verb by reflexivity.
  cbn. rewrite Hsk, Hscan. reflexivity.
Qed.

(** The parameter segment as [HashPassword] prints it is scanned back to
    the three values. *)
Lemma Sscanf_params (m t p : Z) :
  0 <= m < 2 ^ 32 -> 0 <= t < 2 ^ 32 -> 0 <= p < 2 ^ 8 ->
  Sscanf (String.append "m=" (String.append (fmtInteger m)
           (String.append ",t=" (String.append (fmtInteger t)
             (String.append ",p=" (fmtInteger p))))))
         "m=%d,t=%d,p=%d" [PtrUint32; PtrUint32; PtrUint8]
  = ([m; t; p], None).
Proof.
  intros Hm Ht Hp. unfold Sscanf.
  pose proof (fmt_facts.fmtInteger_digits m ltac:(lia)) as Dm.
  pose proof (fmt_facts.fmtInteger_digits t ltac:(lia)) as Dt.
  pose proof (fmt_facts.fmtInteger_digits p ltac:(lia)) as Dp.
  pose proof (fmt_facts.fmtInteger_length m ltac:(lia)) as Lm.
  pose proof (fmt_facts.fmtInteger_length t ltac:(lia)) as Lt.
  pose proof (fmt_facts.fmtInteger_length p ltac:(lia)) as Lp.
  pose proof (fmt_facts.ParseUint_fmtInteger m ltac:(lia)) as Pm.
  pose proof (fmt_facts.ParseUint_fmtInteger t ltac:(lia)) as Pt.
  pose proof (fmt_facts.ParseUint_fmtInteger p ltac:(lia)) as Pp.
  set (dm := fmtInteger m) in *. set (dt := fmtInteger t) in *.
  set (dp := fmtInteger p) in *.
  assert (Hhuge : hugeWid = 1073741824) by reflexivity.
  rewrite utf8_facts.runes_ascii.
  2:{ cbn [String.append every].
      repeat (rewrite every_append; cbn [every]).
      rewrite (every_impl _ _ dm is_digit_ascii Dm),
              (every_impl _ _ dt is_digit_ascii Dt),
              (every_impl _ _ dp is_digit_ascii Dp). reflexivity. }
  rewrite !codes_append.
  change (codes "m=") with [ascii_to_Z "m"; ascii_to_Z "="].
  change (codes ",t=") with [ascii_to_Z ","; ascii_to_Z "t"; ascii_to_Z "="].
  change (codes ",p=") with [ascii_to_Z ","; ascii_to_Z "p"; ascii_to_Z "="].
  change (String.length "m=%d,t=%d,p=%d") with 14%nat.
  cbn [app].
  erewrite doScanf_literals;
    [| rewrite !advance_literal by (reflexivity || lia);
       apply advance_verb; reflexivity | lia].
  erewrite doScanf_verb_d;
    [| apply SkipSpace_codes; [intros E; rewrite E in Lm; cbn in Lm; lia | assumption]
     | apply scanUint_digits with (u := m) (bitSize := 32);
       [intros E; rewrite E in Lm; cbn in Lm; lia | assumption
       | apply stops_code; reflexivity | lia | assumption | lia] ].
  erewrite doScanf_literals;
    [| rewrite !advance_literal by (reflexivity || lia);
       apply advance_verb; reflexivity | lia].
  erewrite doScanf_verb_d;
    [| apply SkipSpace_codes; [intros E; rewrite E in Lt; cbn in Lt; lia | assumption]
     | apply scanUint_digits with (u := t) (bitSize := 32);
       [intros E; rewrite E in Lt; cbn in Lt; lia | assumption
       | apply stops_code; reflexivity | lia | assumption | lia] ].
  erewrite doScanf_literals;
    [| rewrite !advance_literal by (reflexivity || lia);
       apply advance_verb; reflexivity | lia].
  rewrite <- (app_nil_r (codes dp)).
  erewrite doScanf_verb_d;
    [| apply SkipSpace_codes; [intros E; rewrite E in Lp; cbn in Lp; lia | assumption]
     | apply scanUint_digits with (u := p) (bitSize := 8);
       [intros E; rewrite E in Lp; cbn in Lp; lia | assumption
       | exact I | lia | assumption | lia] ].
  reflexivity.
Qed.
End scanf_facts.

(** ** The credential string *)

Lemma eqb_empty_false (s : string) : s <> "" -> String.eqb s "" = false.
Proof. intros H. apply String.eqb_neq. assumption. Qed.

Lemma HashPassword_join (IDKey : primitive) (password salt : string)
      (options : Options) (hash : list byte) :
  password <> "" -> salt <> "" ->
  IDKey (bytes_of_string password) (bytes_of_string salt)
        (Time options) (Memory options) (Threads options) (KeyLen options)
  = Some hash ->
  HashPassword IDKey password salt options
  = Ok (join (segments salt options hash)).
Proof.
  intros Hp Hs Hk. unfold HashPassword.
  rewrite (eqb_empty_false _ Hp), (eqb_empty_false _ Hs), Hk. f_equal.
  unfold segments. cbn [join fmt.Sprintf Ascii.eqb Bool.eqb negb].
  repeat first [rewrite scan_facts.append_assoc
               | progress cbn [String.append]].
  rewrite scan_facts.append_nil_r. reflexivity.
Qed.

Lemma Count_every (P : ascii -> bool) (sep : ascii) (s : string) :
  (forall c, P c = true -> Ascii.eqb c sep = false) ->
  every P s = true -> strings.Count s sep = O.
Proof.
  intros HP. induction s as [|c s IH]; cbn; [reflexivity|].
  rewrite andb_true_iff. intros [Hc Hs]. rewrite (HP c Hc). auto.
Qed.

Lemma is_digit_not_dollar (c : ascii) :
  is_digit c = true -> Ascii.eqb c "$" = false.
Proof.
  intros H. apply Ascii.eqb_neq. intros ->. discriminate H.
Qed.

Lemma Count_digits (d : string) :
  every is_digit d = true -> strings.Count d "$" = O.
Proof. apply Count_every, is_digit_not_dollar. Qed.

Lemma encode_not_dollar (v : Z) :
  0 <= v < 64 -> Ascii.eqb (base64.encode v) "$" = false.
Proof.
  intros Hv.
  assert (H : forallb (fun n => negb (Ascii.eqb (base64.encode (Z.of_nat n)) "$"))
                (seq 0 64) = true) by (vm_compute; reflexivity).
  rewrite forallb_forall in H.
  specialize (H (Z.to_nat v)). rewrite Z2Nat.id in H by lia.
  apply negb_true_iff, H, in_seq. lia.
Qed.

(** The URL-safe alphabet has no ["$"]. *)
Lemma Count_Encode (b : list byte) : strings.Count (base64.Encode b) "$" = O.
Proof.
  induction b as [| b0 | b0 b1 | b0 b1 b2 rest IH] using list_ind3;
    cbn [base64.Encode strings.Count]; unfold base64.sextet;
    rewrite ?encode_not_dollar by apply base64_facts.sextet_bound;
    auto.
Qed.

(** Splitting undoes joining when no segment contains the separator. *)
Lemma Split_join (segs : list string) :
  segs <> [] -> Forall (fun s => strings.Count s "$" = O) segs ->
  strings.Split (join segs) "$" = segs.
Proof.
  induction segs as [|s segs IH]; intros Hne Hall; [contradiction|].
  inversion_clear Hall as [|? ? Hs Hsegs].
  destruct segs as [|s' segs].
  - cbn [join]. apply strings_facts.Split_single. assumption.
  - change (join (s :: s' :: segs))
      with (String.append s (String "$" (join (s' :: segs)))).
    rewrite strings_facts.Split_cons by assumption.
    rewrite IH; [reflexivity | discriminate | assumption].
Qed.

Lemma segments_no_separator (salt : string) (options : Options)
      (hash : list byte) :
  Options_ok options ->
  Forall (fun s => strings.Count s "$" = O) (segments salt options hash).
Proof.
  intros (Ht & Hm & Hp & Hk). unfold segments.
  repeat apply Forall_cons; try apply Forall_nil;
    try reflexivity; try apply Count_Encode.
  repeat first [rewrite strings_facts.Count_append
               | rewrite Count_digits by (apply fmt_facts.fmtInteger_digits; lia)
               | progress cbn [String.append strings.Count Ascii.eqb
                                 Bool.eqb Nat.add]].
  reflexivity.
Qed.

Lemma uint32_small (z : Z) : 0 <= z < 2 ^ 32 -> uint32 z = z.
Proof. intros H. apply Z.mod_small. assumption. Qed.

(** Verification of the string that hashing has produced. *)
Lemma VerifyPassword_join (IDKey : primitive) (password salt : string)
      (options : Options) (hash : list byte) (first second : string) :
  password <> "" -> Options_ok options ->
  strings.Count first "$" = O -> strings.Count second "$" = O ->
  IDKey (bytes_of_string password) (bytes_of_string salt)
        (Time options) (Memory options) (Threads options) (KeyLen options)
  = Some hash ->
  len hash = KeyLen options ->
  VerifyPassword IDKey password
    (join (first :: second :: skipn 2 (segments salt options hash)))
  = Ok tt.
Proof.
  intros Hp Hok H1 H2 Hk Hlen.
  pose proof (segments_no_separator salt options hash Hok) as Hall.
  destruct Hok as (Ht & Hm & Hth & Hkl).
  unfold VerifyPassword. rewrite (eqb_empty_false _ Hp).
  rewrite Split_join.
  2: discriminate.
  2:{ unfold segments in *. cbn [skipn].
      inversion_clear Hall as [|? ? _ Hall']. inversion_clear Hall' as [|? ? _ Hall].
      auto. }
  replace (String.eqb _ "") with false.
  2:{ symmetry. apply String.eqb_neq. cbn [join segments skipn].
      destruct first; discriminate. }
  unfold segments. cbn [skipn nth].
  replace (negb (len _ =? 6)) with false by reflexivity.
  replace (fmt.Sscanf _ "v=%d" _) with ([argon2.Version], @None scan_error)
    by (vm_compute; reflexivity).
  cbn [nth]. rewrite Z.eqb_refl. cbn [negb].
  rewrite scanf_facts.Sscanf_params by assumption.
  rewrite !roundtrip. cbn [nth].
  rewrite Hlen, uint32_small by assumption. rewrite Hk.
  replace (subtle.ConstantTimeCompare hash hash) with 1
    by (symmetry; apply subtle_facts.ConstantTimeCompare_eq; reflexivity).
  reflexivity.
Qed.

(** What [VerifyPassword] does once the key has split in six segments, the
    version has been read and is current, the parameters have been read
    and both byte fields have been decoded. *)
Lemma VerifyPassword_parsed (IDKey : primitive) (password key : string)
      (s0 s1 s2 s3 s4 s5 : string) (vs ps : list Z) (salt hash : list byte) :
  password <> "" ->
  strings.Split key "$" = [s0; s1; s2; s3; s4; s5] ->
  fmt.Sscanf s2 "v=%d" [fmt.PtrInt] = (vs, None) ->
  nth 0 vs argon2.Version = argon2.Version ->
  fmt.Sscanf s3 "m=%d,t=%d,p=%d" [fmt.PtrUint32; fmt.PtrUint32; fmt.PtrUint8]
  = (ps, None) ->
  DecodeBase64String s4 = (salt, None) ->
  DecodeBase64String s5 = (hash, None) ->
  VerifyPassword IDKey password key
  = match IDKey (bytes_of_string password) salt
                (nth 1 ps 0) (nth 0 ps 0) (nth 2 ps 0) (uint32 (len hash)) with
    | None => Panic
    | Some control =>
        if subtle.ConstantTimeCompare hash control =? 1 then Ok tt
        else Err ErrHashNotEqualPassword
    end.
Proof.
  intros Hp Hsplit Hv Hcur Hps Hsalt Hhash. unfold VerifyPassword.
  rewrite (eqb_empty_false _ Hp).
  assert (Hkey : String.eqb key "" = false).
  { destruct key; [discriminate Hsplit | reflexivity]. }
  rewrite Hkey, Hsplit. cbn [nth].
  replace (negb (len _ =? 6)) with false by reflexivity.
  rewrite Hv, Hcur, Z.eqb_refl. cbn [negb].
  rewrite Hps, Hsalt, Hhash. reflexivity.
Qed.

(** ** The codec on an encoding followed by one more character *)

Module base64_tail.
Import base64 base64_facts.

Lemma collect_symbol (c : ascii) (rest : string) (si : Z) (j : nat)
      (dbuf : list Z) :
  decodeMap c <> 255 -> (j < 4)%nat ->
  collect (String c rest) si j dbuf
  = collect rest (si + 1) (S j) (dbuf ++ [decodeMap c]).
Proof.
  intros Hc Hj.
  destruct j as [|[|[|[|j]]]]; try lia; cbn [collect Nat.eqb];
    (destruct (Z.eqb_spec (decodeMap c) 255); [contradiction | reflexivity]).
Qed.

Lemma collect_newline (c : ascii) (rest : string) (si : Z) (j : nat)
      (dbuf : list Z) :
  newline c = true -> (j < 4)%nat ->
  collect (String c rest) si j dbuf = collect rest (si + 1) j dbuf.
Proof.
  intros Hc Hj. unfold newline in Hc.
  assert (Hmap : decodeMap c = 255).
  { apply orb_true_iff in Hc as [H|H]; apply Ascii.eqb_eq in H; subst;
      reflexivity. }
  destruct j as [|[|[|[|j]]]]; try lia; cbn [collect Nat.eqb];
    rewrite Hmap, Hc; reflexivity.
Qed.

Lemma collect_corrupt (c : ascii) (rest : string) (si : Z) (j : nat)
      (dbuf : list Z) :
  decodeMap c = 255 -> newline c = false -> (j < 4)%nat ->
  collect (String c rest) si j dbuf = Corrupt (si + 1) (si + 1 - 1).
Proof.
  intros Hmap Hc Hj. unfold newline in Hc.
  destruct j as [|[|[|[|j]]]]; try lia; cbn [collect Nat.eqb];
    rewrite Hmap, Hc; reflexivity.
Qed.

Lemma decodeMap_range (c : ascii) :
  decodeMap c <> 255 -> 0 <= decodeMap c < 64.
Proof.
  intros H.
  assert (Hall : forallb (fun n =>
                   let v := decodeMap (ascii_of_nat n) in
                   (v =? 255) || ((0 <=? v) && (v <? 64))) (seq 0 256) = true)
    by (vm_compute; reflexivity).
  rewrite forallb_forall in Hall.
  specialize (Hall (nat_of_ascii c)). rewrite ascii_nat_embedding in Hall.
  cbv zeta in Hall.
  assert (Hin : In (nat_of_ascii c) (seq 0 256)).
  { apply in_seq. pose proof (nat_ascii_bounded c). lia. }
  specialize (Hall Hin).
  apply orb_true_iff in Hall as [E|R].
  - apply Z.eqb_eq in E. contradiction.
  - apply andb_true_iff in R as [R1 R2].
    apply Z.leb_le in R1. apply Z.ltb_lt in R2. lia.
Qed.

(** One whole group of the encoding is one iteration of the decoder. *)
Lemma Decode_loop_group (b0 b1 b2 : byte) (rest : list byte) (t : string)
      (fuel : nat) (si : Z) (dst : list byte) :
  Decode_loop (S fuel) (String.append (Encode (b0 :: b1 :: b2 :: rest)) t)
              si dst
  = Decode_loop fuel (String.append (Encode rest) t) (si + 1 + 1 + 1 + 1)
                (dst ++ [b0; b1; b2]).
Proof.
  pose proof (byte_to_Z_range b0) as R0.
  pose proof (byte_to_Z_range b1) as R1.
  pose proof (byte_to_Z_range b2) as R2.
  cbn [Encode String.append Decode_loop]. unfold sextet.
  rewrite decodeQuantum_4 by apply sextet_bound.
  cbv zeta. rewrite pack3 by assumption. rewrite unpack4 by lia.
  rewrite (byte_of_Z_eq _ b0), (byte_of_Z_eq _ b1), (byte_of_Z_eq _ b2);
    [reflexivity | | |]; rewrite Z.shiftr_div_pow2 by lia; arith.
Qed.

(** A trailing line break changes nothing. *)
Lemma Decode_loop_Encode_newline (c : ascii) (b : list byte) :
  newline c = true ->
  forall (fuel : nat) (si : Z) (dst : list byte),
    (S (String.length (Encode b)) <= fuel)%nat ->
    Decode_loop fuel (String.append (Encode b) (String c "")) si dst
    = (dst ++ b, None).
Proof.
  intros Hc.
  induction b as [| b0 | b0 b1 | b0 b1 b2 rest IH] using list_ind3;
    intros fuel si dst Hfuel;
    (destruct fuel as [|fuel]; [cbn in Hfuel; lia|]).
  - cbn [Encode String.append Decode_loop]. unfold decodeQuantum.
    rewrite collect_newline by (assumption || lia). cbn [collect Nat.eqb].
    destruct fuel; cbn [Decode_loop]; reflexivity.
  - pose proof (byte_to_Z_range b0) as R0.
    cbn [Encode String.append Decode_loop]. unfold sextet, decodeQuantum.
    rewrite !collect_valid by (apply sextet_bound || lia).
    rewrite collect_newline by (assumption || lia).
    cbn [collect Nat.eqb app nth Nat.sub firstn].
    rewrite !Z.lor_0_r.
    rewrite unpack2.
    + rewrite (byte_of_Z_eq _ b0).
      * destruct fuel; reflexivity.
      * rewrite Z.shiftr_div_pow2, Z.shiftl_mul_pow2 by lia. arith.
    + rewrite Z.shiftl_mul_pow2 by lia. lia.
    + rewrite Z.shiftl_mul_pow2 by lia. arith.
  - pose proof (byte_to_Z_range b0) as R0.
    pose proof (byte_to_Z_range b1) as R1.
    cbn [Encode String.append Decode_loop]. unfold sextet, decodeQuantum.
    rewrite !collect_valid by (apply sextet_bound || lia).
    rewrite collect_newline by (assumption || lia).
    cbn [collect Nat.eqb app nth Nat.sub firstn].
    rewrite !Z.lor_0_r.
    rewrite pack2 by assumption. rewrite unpack3 by arith.
    rewrite (byte_of_Z_eq _ b0), (byte_of_Z_eq _ b1).
    + destruct fuel; reflexivity.
    + rewrite Z.shiftr_div_pow2 by lia. arith.
    + rewrite Z.shiftr_div_pow2 by lia. arith.
  - rewrite Decode_loop_group, IH.
    + rewrite <- app_assoc. reflexivity.
    + cbn [Encode String.length] in Hfuel. lia.
Qed.

Lemma mod3_group (n : nat) : (S (S (S n)) mod 3 = n mod 3)%nat.
Proof.
  replace (S (S (S n))) with (n + 1 * 3)%nat by lia.
  apply Nat.Div0.mod_add.
Qed.

(** A trailing byte outside the alphabet that is no line break is corrupt
    input, at the index where it stands. *)
Lemma Decode_loop_Encode_corrupt (c : ascii) (b : list byte) :
  decodeMap c = 255 -> newline c = false ->
  forall (fuel : nat) (si : Z) (dst : list byte),
    (S (String.length (Encode b)) <= fuel)%nat ->
    snd (Decode_loop fuel (String.append (Encode b) (String c "")) si dst)
    = Some (CorruptInputError (si + Z.of_nat (String.length (Encode b)))).
Proof.
  intros Hmap Hc.
  induction b as [| b0 | b0 b1 | b0 b1 b2 rest IH] using list_ind3;
    intros fuel si dst Hfuel;
    (destruct fuel as [|fuel]; [cbn in Hfuel; lia|]).
  - cbn [Encode String.append Decode_loop]. unfold decodeQuantum.
    rewrite collect_corrupt by (assumption || lia).
    cbn [snd String.length]. do 2 f_equal. lia.
  - cbn [Encode String.append Decode_loop]. unfold sextet, decodeQuantum.
    rewrite !collect_valid by (apply sextet_bound || lia).
    rewrite collect_corrupt by (assumption || lia).
    cbn [snd String.length]. do 2 f_equal. lia.
  - cbn [Encode String.append Decode_loop]. unfold sextet, decodeQuantum.
    rewrite !collect_valid by (apply sextet_bound || lia).
    rewrite collect_corrupt by (assumption || lia).
    cbn [snd String.length]. do 2 f_equal. lia.
  - rewrite Decode_loop_group, IH.
    + cbn [Encode String.length]. do 2 f_equal. lia.
    + cbn [Encode String.length] in Hfuel. lia.
Qed.

(** After whole groups, one more character of the alphabet is one
    character short of decodable input. *)
Lemma Decode_loop_Encode_symbol_short (c : ascii) (b : list byte) :
  decodeMap c <> 255 -> (List.length b mod 3 = 0)%nat ->
  forall (fuel : nat) (si : Z) (dst : list byte),
    (S (String.length (Encode b)) <= fuel)%nat ->
    snd (Decode_loop fuel (String.append (Encode b) (String c "")) si dst)
    = Some (CorruptInputError (si + Z.of_nat (String.length (Encode b)))).
Proof.
  intros Hmap.
  induction b as [| b0 | b0 b1 | b0 b1 b2 rest IH] using list_ind3;
    intros Hlen fuel si dst Hfuel;
    (destruct fuel as [|fuel]; [cbn in Hfuel; lia|]).
  - cbn [Encode String.append Decode_loop]. unfold decodeQuantum.
    rewrite collect_symbol by (assumption || lia).
    cbn [collect Nat.eqb snd String.length]. do 2 f_equal. lia.
  - discriminate Hlen.
  - discriminate Hlen.
  - cbn [List.length] in Hlen. rewrite mod3_group in Hlen.
    rewrite Decode_loop_group, IH.
    + cbn [Encode String.length]. do 2 f_equal. lia.
    + assumption.
    + cbn [Encode String.length] in Hfuel. lia.
Qed.

(** After one or two bytes beyond whole groups, one more character of the
    alphabet completes one more byte. *)
Lemma Decode_loop_Encode_symbol_long (c : ascii) (b : list byte) :
  decodeMap c <> 255 -> (List.length b mod 3 <> 0)%nat ->
  forall (fuel : nat) (si : Z) (dst : list byte),
    (S (String.length (Encode b)) <= fuel)%nat ->
    exists x : byte,
      Decode_loop fuel (String.append (Encode b) (String c "")) si dst
      = (dst ++ b ++ [x], None).
Proof.
  intros Hmap.
  pose proof (decodeMap_range c Hmap) as Rc.
  induction b as [| b0 | b0 b1 | b0 b1 b2 rest IH] using list_ind3;
    intros Hlen fuel si dst Hfuel;
    (destruct fuel as [|fuel]; [cbn in Hfuel; lia|]).
  - contradiction Hlen. reflexivity.
  - pose proof (byte_to_Z_range b0) as R0.
    cbn [Encode String.append Decode_loop]. unfold sextet, decodeQuantum.
    rewrite !collect_valid by (apply sextet_bound || lia).
    rewrite collect_symbol by (assumption || lia).
    cbn [collect Nat.eqb app nth Nat.sub firstn].
    rewrite !Z.lor_0_r.
    eexists. rewrite (byte_of_Z_eq _ b0).
    + destruct fuel; reflexivity.
    + bits_to_arith.
      rewrite (lor_add _ (_ * 2 ^ 12) 18) by arith.
      rewrite (lor_add _ (_ * 2 ^ 6) 12) by arith.
      arith.
  - pose proof (byte_to_Z_range b0) as R0.
    pose proof (byte_to_Z_range b1) as R1.
    cbn [Encode String.append Decode_loop]. unfold sextet, decodeQuantum.
    rewrite !collect_valid by (apply sextet_bound || lia).
    rewrite collect_symbol by (assumption || lia).
    rewrite collect_full.
    cbn [app nth Nat.sub firstn].
    rewrite pack2 by assumption.
    eexists. rewrite (byte_of_Z_eq _ b0), (byte_of_Z_eq _ b1).
    + destruct fuel; reflexivity.
    + bits_to_arith.
      rewrite (lor_add _ (_ * 2 ^ 12) 18) by arith.
      rewrite (lor_add _ (_ * 2 ^ 6) 12) by arith.
      rewrite (lor_add _ (decodeMap c) 6) by arith.
      arith.
    + bits_to_arith.
      rewrite (lor_add _ (_ * 2 ^ 12) 18) by arith.
      rewrite (lor_add _ (_ * 2 ^ 6) 12) by arith.
      rewrite (lor_add _ (decodeMap c) 6) by arith.
      arith.
  - cbn [List.length] in Hlen. rewrite mod3_group in Hlen.
    rewrite Decode_loop_group.
    destruct (IH Hlen fuel (si + 1 + 1 + 1 + 1) (dst ++ [b0; b1; b2]))
      as [x Hx]; [cbn [Encode String.length] in Hfuel; lia|].
    exists x. rewrite Hx. rewrite <- app_assoc. reflexivity.
Qed.

End base64_tail.

(** ** One more character after the credential string *)

Lemma length_append (a b : string) :
  String.length (String.append a b) = (String.length a + String.length b)%nat.
Proof. induction a as [|c a IH]; cbn; [|rewrite IH]; reflexivity. Qed.

Lemma join_cons (s : string) (segs : list string) :
  segs <> [] -> join (s :: segs) = String.append s (String "$" (join segs)).
Proof. destruct segs; [contradiction | reflexivity]. Qed.

(** What is appended to the string is appended to its last segment. *)
Lemma join_last_append (segs : list string) (s t : string) :
  String.append (join (segs ++ [s])) t = join (segs ++ [String.append s t]).
Proof.
  induction segs as [|x segs IH]; [reflexivity|].
  cbn [app]. rewrite !join_cons by (destruct segs; discriminate).
  rewrite scan_facts.append_assoc. cbn [String.append]. rewrite IH.
  reflexivity.
Qed.

(** An appended separator opens one more, empty segment. *)
Lemma join_separator (segs : list string) :
  segs <> [] ->
  String.append (join segs) (String "$" "") = join (segs ++ [""]).
Proof.
  induction segs as [|x segs IH]; intros Hne; [contradiction|].
  destruct segs as [|y segs]; [reflexivity|].
  cbn [app]. rewrite !join_cons by discriminate.
  rewrite scan_facts.append_assoc. cbn [String.append].
  rewrite IH by discriminate. reflexivity.
Qed.

(** What [VerifyPassword] does once the key has split in six segments, the
    version has been read and is current, the parameters have been read
    and the salt has been decoded. *)
Lemma VerifyPassword_hash_segment (IDKey : primitive) (password key : string)
      (s0 s1 s2 s3 s4 s5 : string) (vs ps : list Z) (salt : list byte) :
  password <> "" ->
  strings.Split key "$" = [s0; s1; s2; s3; s4; s5] ->
  fmt.Sscanf s2 "v=%d" [fmt.PtrInt] = (vs, None) ->
  nth 0 vs argon2.Version = argon2.Version ->
  fmt.Sscanf s3 "m=%d,t=%d,p=%d" [fmt.PtrUint32; fmt.PtrUint32; fmt.PtrUint8]
  = (ps, None) ->
  DecodeBase64String s4 = (salt, None) ->
  VerifyPassword IDKey password key
  = match DecodeBase64String s5 with
    | (_, Some err) => Err err
    | (hash, None) =>
        match IDKey (bytes_of_string password) salt
                    (nth 1 ps 0) (nth 0 ps 0) (nth 2 ps 0)
                    (uint32 (len hash)) with
        | None => Panic
        | Some control =>
            if subtle.ConstantTimeCompare hash control =? 1 then Ok tt
            else Err ErrHashNotEqualPassword
        end
    end.
Proof.
  intros Hp Hsplit Hv Hcur Hps Hsalt. unfold VerifyPassword.
  rewrite (eqb_empty_false _ Hp).
  assert (Hkey : String.eqb key "" = false).
  { destruct key; [discriminate Hsplit | reflexivity]. }
  rewrite Hkey, Hsplit. cbn [nth].
  replace (negb (len _ =? 6)) with false by reflexivity.
  rewrite Hv, Hcur, Z.eqb_refl. cbn [negb].
  rewrite Hps, Hsalt. reflexivity.
Qed.

(** The string that hashing has produced, followed by a character that is
    not the separator: the character joins the hash segment, and the
    outcome is decided by decoding that segment. *)
Lemma VerifyPassword_join_char (IDKey : primitive) (password salt : string)
      (options : Options) (hash : list byte) (c : ascii) :
  password <> "" -> Options_ok options -> Ascii.eqb c "$" = false ->
  VerifyPassword IDKey password
    (String.append (join (segments salt options hash)) (String c ""))
  = match DecodeBase64String
            (String.append (EncodeToBase64String hash) (String c "")) with
    | (_, Some err) => Err err
    | (hash', None) =>
        match IDKey (bytes_of_string password) (bytes_of_string salt)
                    (Time options) (Memory options) (Threads options)
                    (uint32 (len hash')) with
        | None => Panic
        | Some control =>
            if subtle.ConstantTimeCompare hash' control =? 1 then Ok tt
            else Err ErrHashNotEqualPassword
        end
    end.
Proof.
  intros Hp Hok Hc.
  pose proof (segments_no_separator salt options hash Hok) as Hall.
  unfold segments in *.
  match goal with
  | |- context [join [?a; ?b; ?v; ?p; ?s; ?h]] =>
      change [a; b; v; p; s; h] with ([a; b; v; p; s] ++ [h]);
      rewrite join_last_append;
      rewrite (VerifyPassword_hash_segment IDKey password _ a b v p s
                 (String.append h (String c ""))
                 [argon2.Version]
                 [Memory options; Time options; Threads options]
                 (bytes_of_string salt))
  end.
  - reflexivity.
  - assumption.
  - apply Split_join; [discriminate|].
    cbn [app]. repeat (inversion_clear Hall as [|? ? ? Hall']; rename Hall' into Hall;
                       apply Forall_cons; [assumption|]).
    apply Forall_cons; [|apply Forall_nil].
    rewrite strings_facts.Count_append. 
    inversion_clear Hall as [|? ? Hh _]. rewrite Hh. cbn. rewrite Hc. reflexivity.
  - vm_compute. reflexivity.
  - reflexivity.
  - destruct Hok as (Ht & Hm & Hth & Hkl).
    apply scanf_facts.Sscanf_params; assumption.
  - apply roundtrip.
Qed.

Lemma len_app_one (h : list byte) (x : byte) : len (h ++ [x]) = len h + 1.
Proof. unfold len. rewrite length_app. cbn [List.length]. lia. Qed.

(** ** Scanning a segment that goes on after its last number *)

Module utf8_more.
Import utf8.

Lemma runes_loop_ascii_append (a b : string) :
  forall fuel, (String.length a + String.length b <= fuel)%nat ->
    every is_ascii a = true ->
    runes_loop fuel (String.append a b)
    = codes a ++ runes_loop (fuel - String.length a) b.
Proof.
  induction a as [|c a IH]; intros fuel Hfuel Ha.
  - cbn [String.append codes app String.length]. rewrite Nat.sub_0_r.
    reflexivity.
  - destruct fuel as [|fuel]; [cbn in Hfuel; lia|].
    cbn in Ha. apply andb_true_iff in Ha as [Hc Ha].
    unfold is_ascii in Hc.
    cbn [String.append runes_loop DecodeRuneInString]. rewrite Hc.
    cbn [drop codes app String.length Nat.sub].
    rewrite IH; [reflexivity | cbn in Hfuel; lia | assumption].
Qed.

(** One-byte runes in front are read character by character. *)
Lemma runes_ascii_append (a b : string) :
  every is_ascii a = true ->
  runes (String.append a b) = codes a ++ runes b.
Proof.
  intros Ha. unfold runes. rewrite length_append.
  rewrite runes_loop_ascii_append by (assumption || lia).
  replace (String.length a + String.length b - String.length a)%nat
    with (String.length b) by lia.
  reflexivity.
Qed.

End utf8_more.

Module scanf_suffix.
Import fmt scan_facts scanf_facts.

(** A signed number in decimal digits without sign, followed by something
    that is not a digit, is scanned to its value. *)
Lemma scanInt_digits (d : string) (rest : list Z) (cnt u : Z) :
  d <> "" -> every is_digit d = true -> stops rest ->
  cnt + Z.of_nat (String.length d) <= hugeWid ->
  strconv.ParseUint d = (u, None) -> 0 <= u < 2 ^ 63 ->
  scanInt (mkss (codes d ++ rest) cnt) intBits
  = inl (u, mkss rest (cnt + Z.of_nat (String.length d))).
Proof.
  intros Hne Hd Hrest Hcnt Hparse Hu.
  destruct d as [|c d]; [contradiction|].
  pose proof Hd as Hd'. cbn in Hd'. apply andb_true_iff in Hd' as [Hc Hd'].
  cbn [String.length] in Hcnt.
  assert (Hsign : indexRune sign (ascii_to_Z c) = false).
  { unfold is_digit in Hc. apply andb_true_iff in Hc as [H1 H2].
    apply Z.leb_le in H1, H2. unfold sign. cbn [indexRune].
    change (ascii_to_Z "+") with 43. change (ascii_to_Z "-") with 45.
    destruct (Z.eqb_spec 43 (ascii_to_Z c)); [lia|].
    destruct (Z.eqb_spec 45 (ascii_to_Z c)); [lia|]. reflexivity. }
  assert (Hc0 : Ascii.eqb c "+" = false /\ Ascii.eqb c "-" = false).
  { split; apply Ascii.eqb_neq; intros ->; discriminate Hsign. }
  destruct Hc0 as [Hplus Hminus].
  unfold scanInt. cbn [codes app].
  rewrite SkipSpace_digit by assumption.
  unfold notEOF, scanNumber, notEOF, accept.
  rewrite getRune_cons by lia. rewrite Hsign.
  rewrite getRune_cons by lia.
  rewrite indexRune_digit by assumption.
  cbn [input count]. rewrite writeRune_code. cbn [String.append].
  rewrite accept_loop_digits by (assumption || lia).
  cbn [String.append]. unfold strconv.ParseInt. rewrite Hplus, Hminus, Hparse.
  cbn [negb andb].
  destruct (Z.leb_spec (2 ^ 63) u); [lia|].
  unfold intBits.
  destruct (Z.leb_spec (- 2 ^ (64 - 1)) u); [|lia].
  destruct (Z.ltb_spec u (2 ^ (64 - 1))); [|lia].
  cbn [andb]. f_equal. f_equal. f_equal. cbn [String.length]. lia.
Qed.

(** The version segment as [HashPassword] prints it, followed by anything
    that does not begin with a digit. *)
Lemma Sscanf_version_suffix (v : Z) (suffix : string) :
  0 <= v < 2 ^ 63 -> stops (utf8.runes suffix) ->
  Sscanf (String.append "v=" (String.append (fmtInteger v) suffix))
         "v=%d" [PtrInt]
  = ([v], None).
Proof.
  intros Hv Hstop. unfold Sscanf.
  pose proof (fmt_facts.fmtInteger_digits v ltac:(lia)) as Dv.
  pose proof (fmt_facts.fmtInteger_length v ltac:(lia)) as Lv.
  pose proof (fmt_facts.ParseUint_fmtInteger v ltac:(lia)) as Pv.
  set (dv := fmtInteger v) in *.
  assert (Hhuge : hugeWid = 1073741824) by reflexivity.
  replace (String.append "v=" (String.append dv suffix))
    with (String.append (String.append "v=" dv) suffix)
    by (rewrite append_assoc; reflexivity).
  rewrite utf8_more.runes_ascii_append.
  2:{ cbn [String.append every].
      rewrite (every_impl _ _ dv is_digit_ascii Dv). reflexivity. }
  rewrite codes_append.
  change (codes "v=") with [ascii_to_Z "v"; ascii_to_Z "="].
  change (String.length "v=%d") with 4%nat.
  cbn [app].
  erewrite doScanf_literals;
    [| rewrite !advance_literal by (reflexivity || lia);
       apply advance_verb; reflexivity | lia].
  erewrite doScanf_verb_d;
    [| apply SkipSpace_codes; [intros E; rewrite E in Lv; cbn in Lv; lia | assumption]
     | apply scanInt_digits with (u := v);
       [intros E; rewrite E in Lv; cbn in Lv; lia | assumption
       | assumption | lia | assumption | lia] ].
  reflexivity.
Qed.

(** The parameter segment as [HashPassword] prints it, followed by
    anything that does not begin with a digit. *)
Lemma Sscanf_params_suffix (m t p : Z) (suffix : string) :
  0 <= m < 2 ^ 32 -> 0 <= t < 2 ^ 32 -> 0 <= p < 2 ^ 8 ->
  stops (utf8.runes suffix) ->
  Sscanf (String.append
            (String.append "m=" (String.append (fmtInteger m)
              (String.append ",t=" (String.append (fmtInteger t)
                (String.append ",p=" (fmtInteger p))))))
            suffix)
         "m=%d,t=%d,p=%d" [PtrUint32; PtrUint32; PtrUint8]
  = ([m; t; p], None).
Proof.
  intros Hm Ht Hp Hstop. unfold Sscanf.
  pose proof (fmt_facts.fmtInteger_digits m ltac:(lia)) as Dm.
  pose proof (fmt_facts.fmtInteger_digits t ltac:(lia)) as Dt.
  pose proof (fmt_facts.fmtInteger_digits p ltac:(lia)) as Dp.
  pose proof (fmt_facts.fmtInteger_length m ltac:(lia)) as Lm.
  pose proof (fmt_facts.fmtInteger_length t ltac:(lia)) as Lt.
  pose proof (fmt_facts.fmtInteger_length p ltac:(lia)) as Lp.
  pose proof (fmt_facts.ParseUint_fmtInteger m ltac:(lia)) as Pm.
  pose proof (fmt_facts.ParseUint_fmtInteger t ltac:(lia)) as Pt.
  pose proof (fmt_facts.ParseUint_fmtInteger p ltac:(lia)) as Pp.
  set (dm := fmtInteger m) in *. set (dt := fmtInteger t) in *.
  set (dp := fmtInteger p) in *.
  assert (Hhuge : hugeWid = 1073741824) by reflexivity.
  rewrite utf8_more.runes_ascii_append.
  2:{ cbn [String.append every].
      repeat (rewrite every_append; cbn [every]).
      rewrite (every_impl _ _ dm is_digit_ascii Dm),
              (every_impl _ _ dt is_digit_ascii Dt),
              (every_impl _ _ dp is_digit_ascii Dp). reflexivity. }
  rewrite !codes_append.
  change (codes "m=") with [ascii_to_Z "m"; ascii_to_Z "="].
  change (codes ",t=") with [ascii_to_Z ","; ascii_to_Z "t"; ascii_to_Z "="].
  change (codes ",p=") with [ascii_to_Z ","; ascii_to_Z "p"; ascii_to_Z "="].
  change (String.length "m=%d,t=%d,p=%d") with 14%nat.
  cbn [app]. repeat (rewrite <- app_assoc; cbn [app]).
  erewrite doScanf_literals;
    [| rewrite !advance_literal by (reflexivity || lia);
       apply advance_verb; reflexivity | lia].
  erewrite doScanf_verb_d;
    [| apply SkipSpace_codes; [intros E; rewrite E in Lm; cbn in Lm; lia | assumption]
     | apply scanUint_digits with (u := m) (bitSize := 32);
       [intros E; rewrite E in Lm; cbn in Lm; lia | assumption
       | apply stops_code; reflexivity | lia | assumption | lia] ].
  erewrite doScanf_literals;
    [| rewrite !advance_literal by (reflexivity || lia);
       apply advance_verb; reflexivity | lia].
  erewrite doScanf_verb_d;
    [| apply SkipSpace_codes; [intros E; rewrite E in Lt; cbn in Lt; lia | assumption]
     | apply scanUint_digits with (u := t) (bitSize := 32);
       [intros E; rewrite E in Lt; cbn in Lt; lia | assumption
       | apply stops_code; reflexivity | lia | assumption | lia] ].
  erewrite doScanf_literals;
    [| rewrite !advance_literal by (reflexivity || lia);
       apply advance_verb; reflexivity | lia].
  erewrite doScanf_verb_d;
    [| apply SkipSpace_codes; [intros E; rewrite E in Lp; cbn in Lp; lia | assumption]
     | apply scanUint_digits with (u := p) (bitSize := 8);
       [intros E; rewrite E in Lp; cbn in Lp; lia | assumption
       | assumption | lia | assumption | lia] ].
  reflexivity.
Qed.

End scanf_suffix.

Module utf8_first.
Import utf8.

Ltac split_tests :=
  repeat match goal with
         | |- context [Z.ltb ?a ?b] => destruct (Z.ltb_spec a b)
         | |- context [Z.leb ?a ?b] => destruct (Z.leb_spec a b)
         | |- context [Z.eqb ?a ?b] => destruct (Z.eqb_spec a b)
         | |- context [Nat.ltb ?a ?b] => destruct (Nat.ltb_spec a b)
         | |- context [match ?s with EmptyString => _ | String _ _ => _ end] =>
             destruct s
         | _ => progress cbn [fst negb andb orb Nat.leb]
         end.

Ltac masks_to_mod :=
  repeat rewrite Z.shiftl_mul_pow2 by lia;
  change 63 with (Z.ones 6); change 31 with (Z.ones 5);
  change 15 with (Z.ones 4); change 7 with (Z.ones 3);
  repeat rewrite Z.land_ones by lia.

(** A rune that begins with a byte of [0x80] or more is not below
    [0x80]. *)
Lemma DecodeRuneInString_high (c : ascii) (s : string) :
  128 <= ascii_to_Z c -> 128 <= fst (DecodeRuneInString (String c s)).
Proof.
  intros Hc. pose proof (ascii_to_Z_range c) as Rc.
  unfold DecodeRuneInString, first, cont.
  destruct (Z.ltb_spec (ascii_to_Z c) 128); [lia|].
  split_tests; unfold RuneError; try lia.
  all: masks_to_mod.
  all: try (rewrite (lor_add _ (_ mod 2 ^ 6) 6) by arith; arith).
  all: try (rewrite (lor_add _ (_ * 2 ^ 6) 12) by arith;
            rewrite (lor_add _ (_ mod 2 ^ 6) 6) by arith; arith).
  all: rewrite (lor_add _ (_ * 2 ^ 12) 18) by arith;
       rewrite (lor_add _ (_ * 2 ^ 6) 12) by arith;
       rewrite (lor_add _ (_ mod 2 ^ 6) 6) by arith; arith.
Qed.

(** The first rune of a non-empty string: the first byte itself when it
    is below [0x80], and a rune that is not below [0x80] otherwise. *)
Lemma runes_first (c : ascii) (s : string) :
  exists (r : Z) (rs : list Z),
    runes (String c s) = r :: rs
    /\ (ascii_to_Z c < 128 -> r = ascii_to_Z c /\ rs = runes s)
    /\ (128 <= ascii_to_Z c -> 128 <= r).
Proof.
  unfold runes. cbn [String.length runes_loop].
  destruct (DecodeRuneInString (String c s)) as [r size] eqn:E.
  exists r, (runes_loop (String.length s) (drop size (String c s))).
  split; [reflexivity|]. split.
  - intros Hc. unfold DecodeRuneInString in E.
    destruct (Z.ltb_spec (ascii_to_Z c) 128); [|lia].
    injection E as <- <-. split; reflexivity.
  - intros Hc. pose proof (DecodeRuneInString_high c s Hc) as H.
    rewrite E in H. exact H.
Qed.

End utf8_first.

Module scanf_prefix.
Import fmt scan_facts scanf_facts.

Lemma ascii_to_Z_inj (a b : ascii) : ascii_to_Z a = ascii_to_Z b -> a = b.
Proof.
  intros H. rewrite <- (ascii_of_to_Z a), <- (ascii_of_to_Z b), H.
  reflexivity.
Qed.

(** A rune read from a string whose first byte is not the one-byte
    character [k] is not [k]. *)
Lemma runes_first_differs (k c : ascii) (s : string) :
  ascii_to_Z k < 128 -> c <> k ->
  exists (r : Z) (rs : list Z),
    utf8.runes (String c s) = r :: rs /\ r <> ascii_to_Z k.
Proof.
  intros Hk Hne.
  destruct (utf8_first.runes_first c s) as (r & rs & E & Hlow & Hhigh).
  exists r, rs. split; [assumption|].
  destruct (Z.lt_ge_cases (ascii_to_Z c) 128) as [Hc|Hc].
  - destruct (Hlow Hc) as [-> _]. intros E'. apply Hne, ascii_to_Z_inj, E'.
  - specialize (Hhigh Hc). lia.
Qed.

(** A format that begins with two literal characters rejects every input
    that does not begin with them. *)
Lemma doScanf_requires_prefix (a b : ascii) (frest str : string)
      (fuel : nat) (ops : list operand) :
  ascii_to_Z a < 128 -> ascii_to_Z b < 128 ->
  isSpace (ascii_to_Z a) = false -> isSpace (ascii_to_Z b) = false ->
  Ascii.eqb a "%" = false -> Ascii.eqb b "%" = false ->
  String.prefix (String a (String b "")) str = false ->
  exists (vs : list Z) (e : scan_error),
    doScanf (S fuel) (String a (String b frest))
            (mkss (utf8.runes str) 0) ops []
    = (vs, Some e).
Proof.
  intros Ha Hb Sa Sb Pa Pb Hpre.
  assert (Hhuge : hugeWid = 1073741824) by reflexivity.
  destruct str as [|c str].
  - exists [], ScanUnexpectedEOF. cbn [doScanf advance].
    rewrite Sa, Pa. reflexivity.
  - destruct (Ascii.eqb_spec a c) as [<-|Hac].
    + (* the first character is there; the second is not *)
      destruct (utf8_first.runes_first a str) as (r & rs & E & Hlow & _).
      destruct (Hlow Ha) as [-> ->]. rewrite E.
      cbn [String.prefix] in Hpre.
      destruct (Ascii.ascii_dec a a) as [_|N]; [|contradiction].
      destruct str as [|c' str].
      * exists [], ScanUnexpectedEOF. cbn [doScanf].
        rewrite advance_literal by (assumption || lia).
        cbn [advance]. rewrite Sb, Pb. reflexivity.
      * cbn [String.prefix] in Hpre.
        destruct (Ascii.ascii_dec b c') as [<-|Hbc];
          [destruct str; discriminate Hpre|].
        destruct (runes_first_differs b c' str Hb) as (r & rs & E' & Hr);
          [congruence|].
        rewrite E'. exists [], ScanInputMismatch. cbn [doScanf].
        rewrite advance_literal by (assumption || lia).
        cbn [advance]. rewrite Sb, Pb.
        rewrite getRune_cons by lia.
        destruct (Z.eqb_spec (ascii_to_Z b) r); [congruence|].
        cbn [negb]. rewrite Pa. reflexivity.
    + destruct (runes_first_differs a c str Ha) as (r & rs & E & Hr);
        [congruence|].
      rewrite E. exists [], ScanInputMismatch. cbn [doScanf advance].
      rewrite Sa, Pa. rewrite getRune_cons by lia.
      destruct (Z.eqb_spec (ascii_to_Z a) r); [congruence|].
      reflexivity.
Qed.

End scanf_prefix.

(** ** The scanner on arbitrary input *)

Module scan_any.
Import fmt scan_facts.

Lemma len_cons {A} (x : A) (l : list A) : len (x :: l) = len l + 1.
Proof. unfold len. cbn [List.length]. lia. Qed.

Lemma len_nonneg {A} (l : list A) : 0 <= len l.
Proof. unfold len. lia. Qed.

Lemma getRune_state_cons (n r : Z) (rs : list Z) :
  n <= hugeWid -> getRune (state n (r :: rs)) = Some (r, state n rs).
Proof.
  intros Hn. unfold state. rewrite len_cons.
  pose proof (len_nonneg rs).
  rewrite getRune_cons by lia. do 3 f_equal. lia.
Qed.

Lemma getRune_state_nil (n : Z) : getRune (state n []) = None.
Proof. unfold state, getRune. cbn [input count]. destruct (_ <=? _); reflexivity. Qed.

(** *** Blanks *)

Lemma skip_blanks_head (rs : list Z) :
  match skip_blanks rs with
  | [] => True
  | r :: _ => blank r = false
  end.
Proof.
  induction rs as [|r rs IH]; cbn [skip_blanks]; [exact I|].
  destruct (blank r) eqn:E; [exact IH | exact E].
Qed.

Lemma skip_blanks_idem (rs : list Z) :
  skip_blanks (skip_blanks rs) = skip_blanks rs.
Proof.
  pose proof (skip_blanks_head rs) as H.
  destruct (skip_blanks rs) as [|r rs']; [reflexivity|].
  cbn [skip_blanks]. rewrite H. reflexivity.
Qed.

(** [SkipSpace] stops in front of the first rune that is no blank, and
    fails when this is a line feed. *)
Lemma SkipSpace_state (n : Z) (rs : list Z) :
  n <= hugeWid ->
  SkipSpace (state n rs)
  = match skip_blanks rs with
    | [] => inl (state n [])
    | r :: rs' =>
        if r =? 10 then inr ScanUnexpectedNewline else inl (state n (r :: rs'))
    end.
Proof.
  intros Hn. unfold SkipSpace, state. cbn [input count].
  induction rs as [|r rs IH].
  - cbn [SkipSpace_loop skip_blanks]. destruct (_ <=? _); reflexivity.
  - cbn [SkipSpace_loop skip_blanks]. rewrite len_cons.
    pose proof (len_nonneg rs).
    destruct (Z.leb_spec hugeWid (n - (len rs + 1))); [lia|].
    replace (n - (len rs + 1) + 1) with (n - len rs) by lia.
    unfold blank.
    destruct (Z.eqb_spec r 10) as [->|H10].
    + cbn. reflexivity.
    + destruct (isSpace r) eqn:Hsp; cbn [negb andb].
      * rewrite IH. destruct (_ && _); reflexivity.
      * destruct (Z.eqb_spec r 13) as [->|H13]; [discriminate Hsp|].
        cbn [andb]. destruct (Z.eqb_spec r 10); [contradiction|].
        rewrite len_cons. reflexivity.
Qed.

(** After [SkipSpace], a second [SkipSpace] changes nothing. *)
Lemma SkipSpace_again (n : Z) (rs : list Z) (s1 : ss) :
  n <= hugeWid -> SkipSpace (state n rs) = inl s1 ->
  s1 = state n (skip_blanks rs) /\ SkipSpace s1 = inl s1.
Proof.
  intros Hn H. rewrite SkipSpace_state in H by assumption.
  assert (E : s1 = state n (skip_blanks rs)).
  { destruct (skip_blanks rs) as [|r rs']; [congruence|].
    destruct (r =? 10); [discriminate | congruence]. }
  split; [exact E|]. subst s1.
  rewrite SkipSpace_state, skip_blanks_idem by assumption.
  destruct (skip_blanks rs) as [|r rs']; [reflexivity|].
  destruct (r =? 10); [discriminate | reflexivity].
Qed.

Lemma scanOne_after_SkipSpace (n : Z) (rs : list Z) (s1 : ss) (arg : operand) :
  n <= hugeWid -> SkipSpace (state n rs) = inl s1 ->
  scanOne s1 arg = scanOne (state n rs) arg.
Proof.
  intros Hn H. destruct (SkipSpace_again n rs s1 Hn H) as [_ H1].
  destruct arg; unfold scanOne, scanInt, scanUint; rewrite H, H1; reflexivity.
Qed.

Lemma scanOne_SkipSpace_error (s : ss) (e : scan_error) (arg : operand) :
  SkipSpace s = inr e -> scanOne s arg = inr e.
Proof.
  intros H. destruct arg; unfold scanOne, scanInt, scanUint; rewrite H; reflexivity.
Qed.

(** *** Digits *)

Lemma indexRune_digit_rune (r : Z) : indexRune decimalDigits r = digit_rune r.
Proof.
  unfold digit_rune.
  destruct (Z.leb_spec 48 r); destruct (Z.leb_spec r 57); cbn [andb].
  - assert (H1 : In r [48; 49; 50; 51; 52; 53; 54; 55; 56; 57]) by (cbn; lia).
    cbn in H1. repeat (destruct H1 as [<-|H1]; [reflexivity|]). contradiction.
  - unfold decimalDigits. cbn [indexRune].
    repeat match goal with
           | |- context [ascii_to_Z ?c =? r] =>
               let v := eval vm_compute in (ascii_to_Z c) in
               change (ascii_to_Z c) with v;
               destruct (Z.eqb_spec v r); [lia|]
           end.
    reflexivity.
  - unfold decimalDigits. cbn [indexRune].
    repeat match goal with
           | |- context [ascii_to_Z ?c =? r] =>
               let v := eval vm_compute in (ascii_to_Z c) in
               change (ascii_to_Z c) with v;
               destruct (Z.eqb_spec v r); [lia|]
           end.
    reflexivity.
  - lia.
Qed.

Lemma ascii_to_Z_of_rune (r : Z) :
  0 <= r < 256 -> ascii_to_Z (ascii_of_N (Z.to_N r)) = r.
Proof.
  intros H. unfold ascii_to_Z. rewrite N_ascii_embedding by lia. lia.
Qed.

Lemma digit_rune_range (r : Z) : digit_rune r = true -> 48 <= r <= 57.
Proof. unfold digit_rune. rewrite andb_true_iff, !Z.leb_le. tauto. Qed.

Lemma leading_digits_every (rs : list Z) :
  every is_digit (leading_digits rs) = true.
Proof.
  induction rs as [|r rs IH]; cbn [leading_digits every]; [reflexivity|].
  destruct (digit_rune r) eqn:E; [|reflexivity].
  cbn [every]. rewrite IH, andb_true_r.
  unfold is_digit. pose proof (digit_rune_range r E).
  rewrite ascii_to_Z_of_rune by lia. exact E.
Qed.

Lemma stops_after_digits (rs : list Z) : stops (after_digits rs).
Proof.
  induction rs as [|r rs IH]; cbn [after_digits]; [exact I|].
  destruct (digit_rune r) eqn:E; [exact IH|].
  cbn [stops]. rewrite indexRune_digit_rune. exact E.
Qed.

Lemma leading_after_digits (rs : list Z) :
  rs = codes (leading_digits rs) ++ after_digits rs.
Proof.
  induction rs as [|r rs IH]; cbn [leading_digits after_digits codes app];
    [reflexivity|].
  destruct (digit_rune r) eqn:E; [|reflexivity].
  cbn [codes app]. pose proof (digit_rune_range r E).
  rewrite ascii_to_Z_of_rune by lia. f_equal. exact IH.
Qed.

(** The loop [for s.accept(digits) {}] takes the digits at the head of
    the input, all of them and nothing else. *)
Lemma accept_loop_state (n : Z) (rs : list Z) :
  n <= hugeWid ->
  forall buf : string,
    accept_loop rs (n - len rs) decimalDigits buf
    = (state n (after_digits rs), String.append buf (leading_digits rs)).
Proof.
  intros Hn. induction rs as [|r rs IH]; intros buf.
  - cbn [accept_loop after_digits leading_digits]. rewrite append_nil_r.
    destruct (_ <=? _); reflexivity.
  - cbn [accept_loop after_digits leading_digits]. rewrite len_cons.
    pose proof (len_nonneg rs).
    destruct (Z.leb_spec hugeWid (n - (len rs + 1))); [lia|].
    rewrite indexRune_digit_rune.
    destruct (digit_rune r) eqn:E.
    + replace (n - (len rs + 1) + 1) with (n - len rs) by lia.
      rewrite IH. unfold writeRune. rewrite append_assoc. reflexivity.
    + rewrite append_nil_r. unfold state. rewrite len_cons. reflexivity.
Qed.

(** [scanNumber]: at least one digit, or an error. *)
Lemma scanNumber_state (n : Z) (rs : list Z) (buf : string) :
  n <= hugeWid ->
  scanNumber (state n rs) decimalDigits buf
  = match rs with
    | [] => inr ScanEOF
    | r :: _ =>
        if digit_rune r
        then inl (state n (after_digits rs),
                  String.append buf (leading_digits rs))
        else inr ScanExpectedInteger
    end.
Proof.
  intros Hn. unfold scanNumber, notEOF, accept.
  destruct rs as [|r rs].
  - rewrite getRune_state_nil. reflexivity.
  - rewrite getRune_state_cons by assumption.
    rewrite indexRune_digit_rune.
    destruct (digit_rune r) eqn:E; [|reflexivity].
    unfold state at 1 2. cbn [input count].
    rewrite accept_loop_state by assumption.
    cbn [after_digits leading_digits]. rewrite E.
    unfold writeRune. rewrite append_assoc. reflexivity.
Qed.

Lemma leading_digits_empty (rs : list Z) :
  String.eqb (leading_digits rs) "" = true ->
  match rs with [] => True | r :: _ => digit_rune r = false end.
Proof.
  destruct rs as [|r rs]; [intros; exact I|].
  cbn [leading_digits]. destruct (digit_rune r); [discriminate | reflexivity].
Qed.

Lemma leading_digits_nonempty (rs : list Z) :
  String.eqb (leading_digits rs) "" = false ->
  exists r rs', rs = r :: rs' /\ digit_rune r = true.
Proof.
  destruct rs as [|r rs]; [discriminate|].
  cbn [leading_digits]. destruct (digit_rune r) eqn:E; [|discriminate].
  intros _. exists r, rs. split; [reflexivity | exact E].
Qed.

(** *** The value of the digits *)

Lemma decimal_ge (ds : string) :
  every is_digit ds = true -> forall acc, 0 <= acc -> acc <= decimal ds acc.
Proof.
  induction ds as [|c ds IH]; intros Hd acc Hacc; cbn [decimal]; [lia|].
  cbn in Hd. apply andb_true_iff in Hd as [Hc Hd].
  unfold is_digit in Hc. apply andb_true_iff in Hc as [H1 H2].
  apply Z.leb_le in H1, H2.
  specialize (IH Hd (acc * 10 + (ascii_to_Z c - 48))). lia.
Qed.

(** [ParseUint] on a string of digits: the value, unless it does not fit
    64 bits. *)
Lemma ParseUint_loop_decimal (ds : string) :
  every is_digit ds = true ->
  forall n, 0 <= n <= strconv.maxUint64 ->
    strconv.ParseUint_loop ds n
    = if decimal ds n <=? strconv.maxUint64 then (decimal ds n, None)
      else (strconv.maxUint64, Some strconv.ErrRange).
Proof.
  induction ds as [|c ds IH]; intros Hd n Hn.
  - cbn [strconv.ParseUint_loop decimal].
    destruct (Z.leb_spec n strconv.maxUint64); [reflexivity | lia].
  - cbn in Hd. apply andb_true_iff in Hd as [Hc Hd].
    cbn [strconv.ParseUint_loop decimal].
    unfold is_digit in Hc. rewrite Hc.
    apply andb_true_iff in Hc as [H1 H2]. apply Z.leb_le in H1, H2.
    pose proof (decimal_ge ds Hd (n * 10 + (ascii_to_Z c - 48))) as Hge.
    assert (Hmax : strconv.maxUint64 = 18446744073709551615) by reflexivity.
    assert (Hcut : strconv.maxUint64 / 10 + 1 = 1844674407370955162)
      by reflexivity.
    rewrite Hcut.
    destruct (Z.leb_spec 1844674407370955162 n).
    + destruct (Z.leb_spec (decimal ds (n * 10 + (ascii_to_Z c - 48)))
                           strconv.maxUint64); [lia | reflexivity].
    + destruct (Z.ltb_spec strconv.maxUint64 (n * 10 + (ascii_to_Z c - 48))).
      * destruct (Z.leb_spec (decimal ds (n * 10 + (ascii_to_Z c - 48)))
                             strconv.maxUint64); [lia | reflexivity].
      * apply IH; [assumption | lia].
Qed.

Lemma ParseUint_decimal (ds : string) :
  String.eqb ds "" = false -> every is_digit ds = true ->
  strconv.ParseUint ds
  = if decimal ds 0 <=? strconv.maxUint64 then (decimal ds 0, None)
    else (strconv.maxUint64, Some strconv.ErrRange).
Proof.
  intros Hne Hd. destruct ds as [|c ds]; [discriminate|].
  unfold strconv.ParseUint. apply ParseUint_loop_decimal; [assumption|].
  unfold strconv.maxUint64. lia.
Qed.

End scan_any.

Module scan_numbers.
Import fmt scan_facts scan_any.

Lemma decimal_nonneg (ds : string) :
  every is_digit ds = true -> 0 <= decimal ds 0.
Proof. intros H. apply (decimal_ge ds H 0). lia. Qed.

Lemma pow2_le_64 (bits : Z) : 0 <= bits <= 64 -> 2 ^ bits <= 2 ^ 64.
Proof. intros H. apply Z.pow_le_mono_r; lia. Qed.

Lemma notEOF_state_cons (n r : Z) (rs : list Z) :
  n <= hugeWid -> notEOF (state n (r :: rs)) = None.
Proof.
  intros Hn. unfold notEOF. rewrite getRune_state_cons by assumption.
  reflexivity.
Qed.

Lemma notEOF_state_nil (n : Z) : notEOF (state n []) = Some ScanEOF.
Proof. unfold notEOF. rewrite getRune_state_nil. reflexivity. Qed.

(** [scanUint] reads what [read_unsigned] reads, and fails where it
    reads nothing. *)
Lemma scanUint_state (n : Z) (rs : list Z) (bits : Z) :
  n <= hugeWid -> 0 <= bits <= 64 ->
  match read_unsigned bits rs with
  | Some (v, rest) => scanUint (state n rs) bits = inl (v, state n rest)
  | None => exists e, scanUint (state n rs) bits = inr e
  end.
Proof.
  intros Hn Hbits. unfold read_unsigned, scanUint.
  rewrite SkipSpace_state by assumption.
  destruct (skip_blanks rs) as [|r rs1].
  - cbn [leading_digits String.eqb]. rewrite notEOF_state_nil.
    eexists; reflexivity.
  - destruct (Z.eqb_spec r 10) as [->|H10].
    + cbn. eexists; reflexivity.
    + rewrite notEOF_state_cons by assumption.
      rewrite scanNumber_state by assumption.
      destruct (String.eqb (leading_digits (r :: rs1)) "") eqn:Hds.
      * apply leading_digits_empty in Hds. rewrite Hds. eexists; reflexivity.
      * destruct (leading_digits_nonempty _ Hds) as (r' & rs' & E & Hr).
        injection E as <- <-. rewrite Hr. cbn [String.append].
        pose proof (leading_digits_every (r :: rs1)) as Hev.
        rewrite (ParseUint_decimal _ Hds Hev).
        pose proof (pow2_le_64 bits Hbits) as Hpow.
        assert (Hmax : strconv.maxUint64 = 2 ^ 64 - 1) by reflexivity.
        destruct (Z.leb_spec (decimal (leading_digits (r :: rs1)) 0)
                             strconv.maxUint64).
        -- destruct (Z.ltb_spec (decimal (leading_digits (r :: rs1)) 0)
                                (2 ^ bits)).
           ++ reflexivity.
           ++ eexists; reflexivity.
        -- destruct (Z.ltb_spec (decimal (leading_digits (r :: rs1)) 0)
                                (2 ^ bits)); [lia|].
           eexists; reflexivity.
Qed.

(** [ParseInt] on the tokens that [scanInt] collects. *)
Lemma ParseInt_plus (ds : string) :
  String.eqb ds "" = false -> every is_digit ds = true ->
  strconv.ParseInt (String "+" ds)
  = if decimal ds 0 <? 2 ^ 63 then (decimal ds 0, None)
    else (2 ^ 63 - 1, Some strconv.ErrRange).
Proof.
  intros Hne Hd. unfold strconv.ParseInt.
  change (Ascii.eqb "+" "+") with true. cbv iota beta.
  rewrite (ParseUint_decimal _ Hne Hd).
  assert (Hmax : strconv.maxUint64 = 2 ^ 64 - 1) by reflexivity.
  destruct (Z.leb_spec (decimal ds 0) strconv.maxUint64).
  - cbn [negb andb].
    destruct (Z.leb_spec (2 ^ 63) (decimal ds 0));
      destruct (Z.ltb_spec (decimal ds 0) (2 ^ 63)); try lia; reflexivity.
  - cbn [negb andb].
    destruct (Z.leb_spec (2 ^ 63) strconv.maxUint64); [|lia].
    destruct (Z.ltb_spec (decimal ds 0) (2 ^ 63)); [lia | reflexivity].
Qed.

Lemma ParseInt_minus (ds : string) :
  String.eqb ds "" = false -> every is_digit ds = true ->
  strconv.ParseInt (String "-" ds)
  = if decimal ds 0 <=? 2 ^ 63 then (- decimal ds 0, None)
    else (- 2 ^ 63, Some strconv.ErrRange).
Proof.
  intros Hne Hd. unfold strconv.ParseInt.
  change (Ascii.eqb "-" "+") with false.
  change (Ascii.eqb "-" "-") with true. cbv iota beta.
  rewrite (ParseUint_decimal _ Hne Hd).
  assert (Hmax : strconv.maxUint64 = 2 ^ 64 - 1) by reflexivity.
  destruct (Z.leb_spec (decimal ds 0) strconv.maxUint64).
  - cbn [negb andb].
    destruct (Z.ltb_spec (2 ^ 63) (decimal ds 0));
      destruct (Z.leb_spec (decimal ds 0) (2 ^ 63)); try lia; reflexivity.
  - cbn [negb andb].
    destruct (Z.ltb_spec (2 ^ 63) strconv.maxUint64); [|lia].
    destruct (Z.leb_spec (decimal ds 0) (2 ^ 63)); [lia | reflexivity].
Qed.

Lemma ParseInt_digits (c : ascii) (ds : string) :
  every is_digit (String c ds) = true ->
  strconv.ParseInt (String c ds)
  = if decimal (String c ds) 0 <? 2 ^ 63 then (decimal (String c ds) 0, None)
    else (2 ^ 63 - 1, Some strconv.ErrRange).
Proof.
  intros Hd. unfold strconv.ParseInt.
  assert (Hc : is_digit c = true).
  { cbn in Hd. apply andb_true_iff in Hd as [Hc _]. exact Hc. }
  assert (Hplus : Ascii.eqb c "+" = false).
  { destruct (Ascii.eqb_spec c "+") as [->|]; [discriminate Hc | reflexivity]. }
  assert (Hminus : Ascii.eqb c "-" = false).
  { destruct (Ascii.eqb_spec c "-") as [->|]; [discriminate Hc | reflexivity]. }
  rewrite Hplus, Hminus. cbv iota beta.
  rewrite (ParseUint_decimal (String c ds) eq_refl Hd).
  assert (Hmax : strconv.maxUint64 = 2 ^ 64 - 1) by reflexivity.
  destruct (Z.leb_spec (decimal (String c ds) 0) strconv.maxUint64).
  - cbn [negb andb].
    destruct (Z.leb_spec (2 ^ 63) (decimal (String c ds) 0));
      destruct (Z.ltb_spec (decimal (String c ds) 0) (2 ^ 63)); try lia;
      reflexivity.
  - cbn [negb andb].
    destruct (Z.leb_spec (2 ^ 63) strconv.maxUint64); [|lia].
    destruct (Z.ltb_spec (decimal (String c ds) 0) (2 ^ 63));
      [lia | reflexivity].
Qed.

(** The part of [scanInt] after the sign. *)
Lemma scanInt_number (n : Z) (rs : list Z) :
  n <= hugeWid ->
  match rs with [] => True | r :: _ => r <> 43 /\ r <> 45 end ->
  let ds := leading_digits rs in
  match scanNumber (state n rs) decimalDigits "" with
  | inr e =>
      String.eqb ds "" = true
  | inl (s, tok) =>
      String.eqb ds "" = false /\ s = state n (after_digits rs)
      /\ strconv.ParseInt tok
         = if decimal ds 0 <? 2 ^ 63 then (decimal ds 0, None)
           else (2 ^ 63 - 1, Some strconv.ErrRange)
  end.
Proof.
  intros Hn Hsign ds. subst ds. rewrite scanNumber_state by assumption.
  destruct rs as [|r rs]; [reflexivity|].
  destruct (digit_rune r) eqn:E.
  - cbn [String.append].
    pose proof (leading_digits_every (r :: rs)) as Hev.
    revert Hev. cbn [leading_digits]. rewrite E. intros Hev.
    split; [reflexivity|]. split; [reflexivity|].
    apply ParseInt_digits. exact Hev.
  - cbn [leading_digits]. rewrite E. reflexivity.
Qed.

Lemma indexRune_sign (r : Z) : indexRune sign r = (r =? 43) || (r =? 45).
Proof.
  unfold sign. cbn [indexRune].
  change (ascii_to_Z "+") with 43. change (ascii_to_Z "-") with 45.
  rewrite orb_false_r, (Z.eqb_sym 43 r), (Z.eqb_sym 45 r). reflexivity.
Qed.

Ltac decide_ranges :=
  repeat match goal with
         | |- context [Z.leb ?a ?b] => destruct (Z.leb_spec a b); try lia
         | |- context [Z.ltb ?a ?b] => destruct (Z.ltb_spec a b); try lia
         end;
  cbn [andb]; first [reflexivity | eexists; reflexivity].

(** [scanInt] reads what [read_signed] reads, and fails where it reads
    nothing. *)
Lemma scanInt_state (n : Z) (rs : list Z) :
  n <= hugeWid ->
  match read_signed rs with
  | Some (v, rest) => scanInt (state n rs) intBits = inl (v, state n rest)
  | None => exists e, scanInt (state n rs) intBits = inr e
  end.
Proof.
  intros Hn. unfold read_signed, scanInt.
  rewrite SkipSpace_state by assumption.
  change (2 ^ (intBits - 1)) with (2 ^ 63).
  destruct (skip_blanks rs) as [|r rs1].
  - cbn [leading_digits String.eqb]. rewrite notEOF_state_nil.
    eexists; reflexivity.
  - destruct (Z.eqb_spec r 10) as [->|H10].
    + cbn. eexists; reflexivity.
    + rewrite notEOF_state_cons by assumption.
      unfold accept. rewrite getRune_state_cons by assumption.
      rewrite indexRune_sign.
      destruct (Z.eqb_spec r 43) as [->|H43]; [|destruct (Z.eqb_spec r 45) as [->|H45]];
        cbn [orb].
      * (* a plus sign *)
        rewrite scanNumber_state by assumption.
        destruct rs1 as [|r2 rs2]; [cbn; eexists; reflexivity|].
        cbn [leading_digits after_digits].
        destruct (digit_rune r2) eqn:E; [|cbn; eexists; reflexivity].
        pose proof (leading_digits_every (r2 :: rs2)) as Hev.
        revert Hev. cbn [leading_digits]. rewrite E. intros Hev.
        change (String.append (writeRune "" 43) ?x) with (String "+" x).
        rewrite (ParseInt_plus (String _ _) eq_refl Hev).
        cbn [String.eqb]. pose proof (decimal_nonneg _ Hev) as Hpos.
        decide_ranges.
      * (* a minus sign *)
        rewrite scanNumber_state by assumption.
        destruct rs1 as [|r2 rs2]; [cbn; eexists; reflexivity|].
        cbn [leading_digits after_digits].
        destruct (digit_rune r2) eqn:E; [|cbn; eexists; reflexivity].
        pose proof (leading_digits_every (r2 :: rs2)) as Hev.
        revert Hev. cbn [leading_digits]. rewrite E. intros Hev.
        change (String.append (writeRune "" 45) ?x) with (String "-" x).
        rewrite (ParseInt_minus (String _ _) eq_refl Hev).
        cbn [String.eqb]. pose proof (decimal_nonneg _ Hev) as Hpos.
        decide_ranges.
      * (* no sign *)
        pose proof (scanInt_number n (r :: rs1) Hn (conj H43 H45)) as H.
        cbv zeta in H.
        destruct (scanNumber (state n (r :: rs1)) decimalDigits "")
          as [[s tok]|e].
        -- destruct H as (Hne & -> & Hparse). rewrite Hne, Hparse.
           pose proof (decimal_nonneg _ (leading_digits_every (r :: rs1))) as Hpos.
           decide_ranges.
        -- rewrite H. eexists; reflexivity.
Qed.

End scan_numbers.

Module scanf_any.
Import fmt scan_facts scanf_facts scan_any scan_numbers.

(** The literal bytes of a format in front of a verb are matched against
    the head of the input, one by one. *)
Lemma advance_expect (n : Z) (frest : string) (lit : string) :
  n <= hugeWid -> every literal_byte lit = true ->
  forall (i : Z) (rs : list Z),
    match expect lit rs with
    | Some rs' =>
        advance (String.append lit (String "%" (String "d" frest))) i
                (state n rs)
        = Adv (i + Z.of_nat (String.length lit))
              (String "%" (String "d" frest)) (state n rs')
    | None =>
        (exists e,
            advance (String.append lit (String "%" (String "d" frest))) i
                    (state n rs) = AdvErr e)
        \/ (exists f s,
            advance (String.append lit (String "%" (String "d" frest))) i
                    (state n rs) = Adv (-1) f s)
    end.
Proof.
  intros Hn. induction lit as [|c lit IH]; intros Hlit i rs.
  - cbn [expect String.append String.length].
    rewrite advance_verb by reflexivity. f_equal. cbn. lia.
  - cbn [every] in Hlit. apply andb_true_iff in Hlit as [Hc Hlit].
    unfold literal_byte in Hc. apply andb_true_iff in Hc as [Hsp Hpc].
    apply negb_true_iff in Hsp, Hpc.
    cbn [expect String.append advance]. rewrite Hsp, Hpc.
    destruct rs as [|r rs].
    + rewrite getRune_state_nil. left. eexists; reflexivity.
    + rewrite getRune_state_cons by assumption.
      destruct (Z.eqb_spec (ascii_to_Z c) r) as [E|E]; cbn [negb].
      * specialize (IH Hlit (i + 1) rs).
        destruct (expect lit rs) as [rs'|].
        -- rewrite IH. f_equal. cbn [String.length]. lia.
        -- exact IH.
      * right. eexists; eexists; reflexivity.
Qed.

(** One iteration of [doScanf] over literal bytes. *)
Lemma doScanf_literal_state (fuel : nat) (c : ascii) (lit frest : string)
      (n : Z) (rs : list Z) (a : list operand) (vals : list Z) :
  n <= hugeWid -> every literal_byte (String c lit) = true ->
  match expect (String c lit) rs with
  | Some rs' =>
      doScanf (S fuel)
              (String.append (String c lit) (String "%" (String "d" frest)))
              (state n rs) a vals
      = doScanf fuel (String "%" (String "d" frest)) (state n rs') a vals
  | None =>
      exists e,
        doScanf (S fuel)
                (String.append (String c lit) (String "%" (String "d" frest)))
                (state n rs) a vals
        = (vals, Some e)
  end.
Proof.
  intros Hn Hlit.
  pose proof (advance_expect n frest (String c lit) Hn Hlit 0 rs) as H.
  assert (Hpc : Ascii.eqb c "%" = false).
  { cbn [every] in Hlit. apply andb_true_iff in Hlit as [Hc _].
    unfold literal_byte in Hc. apply andb_true_iff in Hc as [_ Hc].
    apply negb_true_iff in Hc. exact Hc. }
  destruct (expect (String c lit) rs) as [rs'|].
  - apply (doScanf_literals fuel c _ _ a vals _ _ _ H).
    cbn [String.length]. lia.
  - cbn [String.append] in *. cbn [doScanf].
    destruct H as [[e H]|(f & s & H)]; rewrite H.
    + eexists; reflexivity.
    + cbn. rewrite Hpc. cbn. eexists; reflexivity.
Qed.

(** One iteration of [doScanf] over the verb [%d]. *)
Lemma doScanf_verb_state (fuel : nat) (frest : string) (n : Z) (rs : list Z)
      (arg : operand) (a : list operand) (vals : list Z) :
  n <= hugeWid ->
  doScanf (S fuel) (String "%" (String "d" frest)) (state n rs) (arg :: a) vals
  = match scanOne (state n rs) arg with
    | inl (v, s2) => doScanf fuel frest s2 a (vals ++ [v])
    | inr e => (vals, Some e)
    end.
Proof.
  intros Hn. cbn [doScanf]. rewrite advance_verb by reflexivity.
  cbn [Z.ltb Z.compare Ascii.eqb Bool.eqb negb].
  destruct (SkipSpace (state n rs)) as [s1|e] eqn:Hsk.
  - rewrite (scanOne_after_SkipSpace n rs s1 arg Hn Hsk). reflexivity.
  - rewrite (scanOne_SkipSpace_error _ e arg Hsk). reflexivity.
Qed.

Lemma state_start (rs : list Z) : mkss rs 0 = state (len rs) rs.
Proof. unfold state. f_equal. lia. Qed.

Lemma runes_loop_length (fuel : nat) :
  forall s, (List.length (utf8.runes_loop fuel s) <= fuel)%nat.
Proof.
  induction fuel as [|fuel IH]; intros s; cbn [utf8.runes_loop]; [cbn; lia|].
  destruct s as [|c s']; [cbn; lia|].
  destruct (utf8.DecodeRuneInString (String c s')) as [r size].
  cbn [List.length]. specialize (IH (utf8.drop size (String c s'))). lia.
Qed.

Lemma runes_length (s : string) :
  len (utf8.runes s) <= Z.of_nat (String.length s).
Proof.
  unfold len, utf8.runes. pose proof (runes_loop_length (String.length s) s).
  lia.
Qed.

(** [Sscanf] with the format of the version segment reads what
    [read_version] reads, and fails where it reads nothing. *)
Lemma Sscanf_version_read (s : string) :
  Z.of_nat (String.length s) <= hugeWid ->
  match read_version s with
  | Some v => Sscanf s "v=%d" [PtrInt] = ([v], None)
  | None => exists e, Sscanf s "v=%d" [PtrInt] = ([], Some e)
  end.
Proof.
  intros Hlen. unfold read_version, Sscanf.
  pose proof (runes_length s) as Hrunes.
  rewrite state_start.
  set (n := len (utf8.runes s)) in *.
  assert (Hn : n <= hugeWid) by lia.
  generalize (utf8.runes s). intros rs.
  change (String.length "v=%d") with 4%nat.
  pose proof (doScanf_literal_state 3 "v" "=" "" n rs [PtrInt] [] Hn eq_refl)
    as H1.
  cbn [String.append] in H1.
  destruct (expect "v=" rs) as [rs1|]; [|exact H1].
  rewrite H1, doScanf_verb_state by assumption.
  pose proof (scanInt_state n rs1 Hn) as H2. unfold scanOne.
  destruct (read_signed rs1) as [[v rest]|].
  - rewrite H2. reflexivity.
  - destruct H2 as [e H2]. rewrite H2. eexists; reflexivity.
Qed.

(** [Sscanf] with the format of the parameter segment reads what
    [read_params] reads, and fails where it reads nothing. *)
Lemma Sscanf_params_read (s : string) :
  Z.of_nat (String.length s) <= hugeWid ->
  match read_params s with
  | Some (m, t, p) =>
      Sscanf s "m=%d,t=%d,p=%d" [PtrUint32; PtrUint32; PtrUint8]
      = ([m; t; p], None)
  | None =>
      exists vs e,
        Sscanf s "m=%d,t=%d,p=%d" [PtrUint32; PtrUint32; PtrUint8]
        = (vs, Some e)
  end.
Proof.
  intros Hlen. unfold read_params, Sscanf.
  pose proof (runes_length s) as Hrunes.
  rewrite state_start.
  set (n := len (utf8.runes s)) in *.
  assert (Hn : n <= hugeWid) by lia.
  generalize (utf8.runes s). intros rs.
  change (String.length "m=%d,t=%d,p=%d") with 14%nat.
  (* m= *)
  pose proof (doScanf_literal_state 13 "m" "=" ",t=%d,p=%d" n rs
                [PtrUint32; PtrUint32; PtrUint8] [] Hn eq_refl) as H1.
  cbn [String.append] in H1.
  destruct (expect "m=" rs) as [rs1|];
    [|destruct H1 as [e H1]; eexists; eexists; exact H1].
  rewrite H1, doScanf_verb_state by assumption. clear H1.
  pose proof (scanUint_state n rs1 32 Hn ltac:(lia)) as H2. unfold scanOne.
  destruct (read_unsigned 32 rs1) as [[m rs2]|];
    [|destruct H2 as [e H2]; rewrite H2; eexists; eexists; reflexivity].
  rewrite H2. clear H2. cbn [app].
  (* ,t= *)
  pose proof (doScanf_literal_state 11 "," "t=" ",p=%d" n rs2
                [PtrUint32; PtrUint8] [m] Hn eq_refl) as H3.
  cbn [String.append] in H3.
  destruct (expect ",t=" rs2) as [rs3|];
    [|destruct H3 as [e H3]; eexists; eexists; exact H3].
  rewrite H3, doScanf_verb_state by assumption. clear H3.
  pose proof (scanUint_state n rs3 32 Hn ltac:(lia)) as H4. unfold scanOne.
  destruct (read_unsigned 32 rs3) as [[t rs4]|];
    [|destruct H4 as [e H4]; rewrite H4; eexists; eexists; reflexivity].
  rewrite H4. clear H4. cbn [app].
  (* ,p= *)
  pose proof (doScanf_literal_state 9 "," "p=" "" n rs4
                [PtrUint8] [m; t] Hn eq_refl) as H5.
  cbn [String.append] in H5.
  destruct (expect ",p=" rs4) as [rs5|];
    [|destruct H5 as [e H5]; eexists; eexists; exact H5].
  rewrite H5, doScanf_verb_state by assumption. clear H5.
  pose proof (scanUint_state n rs5 8 Hn ltac:(lia)) as H6. unfold scanOne.
  destruct (read_unsigned 8 rs5) as [[p rs6]|];
    [|destruct H6 as [e H6]; rewrite H6; eexists; eexists; reflexivity].
  rewrite H6. reflexivity.
Qed.

End scanf_any.

(** ** The segments that the recognisers accept *)

Module read_facts.
Import fmt scan_any scan_numbers.

Lemma expect_codes (lit : string) :
  forall rs rs', expect lit rs = Some rs' -> rs = codes lit ++ rs'.
Proof.
  induction lit as [|c lit IH]; intros rs rs' H; cbn [expect codes app] in *.
  - congruence.
  - destruct rs as [|r rs]; [discriminate|].
    destruct (Z.eqb_spec (ascii_to_Z c) r) as [<-|]; [|discriminate].
    f_equal. apply IH. exact H.
Qed.

Lemma skip_blanks_split (rs : list Z) :
  exists bl, rs = bl ++ skip_blanks rs /\ forallb blank bl = true.
Proof.
  induction rs as [|r rs (bl & E & Hbl)]; cbn [skip_blanks].
  - exists []. split; reflexivity.
  - destruct (blank r) eqn:Hr.
    + exists (r :: bl). cbn [app forallb]. rewrite Hr, Hbl.
      split; [f_equal; exact E | reflexivity].
    + exists []. split; reflexivity.
Qed.

Lemma eqb_empty_neq (s : string) : String.eqb s "" = false -> s <> "".
Proof. intros H ->. discriminate H. Qed.

Lemma read_unsigned_shape (bits : Z) (rs : list Z) (v : Z) (rest : list Z) :
  read_unsigned bits rs = Some (v, rest) ->
  exists (bl : list Z) (ds : string),
    rs = bl ++ codes ds ++ rest /\ forallb blank bl = true
    /\ ds <> "" /\ every is_digit ds = true /\ stops rest
    /\ v = decimal ds 0 /\ 0 <= v < 2 ^ bits.
Proof.
  unfold read_unsigned. intros H.
  destruct (skip_blanks_split rs) as (bl & E & Hbl).
  destruct (String.eqb (leading_digits (skip_blanks rs)) "") eqn:Hne;
    [discriminate|].
  destruct (Z.ltb_spec (decimal (leading_digits (skip_blanks rs)) 0) (2 ^ bits));
    [|discriminate].
  injection H as <- <-.
  exists bl, (leading_digits (skip_blanks rs)).
  pose proof (leading_digits_every (skip_blanks rs)) as Hev.
  pose proof (decimal_nonneg _ Hev).
  repeat split; try assumption.
  - rewrite <- leading_after_digits. exact E.
  - apply eqb_empty_neq. exact Hne.
  - apply stops_after_digits.
Qed.

Lemma read_signed_shape (rs : list Z) (v : Z) (rest : list Z) :
  read_signed rs = Some (v, rest) ->
  exists (bl : list Z) (sg ds : string),
    rs = bl ++ codes sg ++ codes ds ++ rest /\ forallb blank bl = true
    /\ (sg = "" \/ sg = "+" \/ sg = "-")
    /\ ds <> "" /\ every is_digit ds = true /\ stops rest
    /\ v = (if String.eqb sg "-" then - decimal ds 0 else decimal ds 0)
    /\ - 2 ^ 63 <= v < 2 ^ 63.
Proof.
  unfold read_signed. intros H.
  destruct (skip_blanks_split rs) as (bl & E & Hbl).
  assert (Hshape :
    forall (sg : string) (neg : bool) (rs1 : list Z),
      skip_blanks rs = codes sg ++ rs1 ->
      (sg = "" \/ sg = "+" \/ sg = "-") ->
      neg = String.eqb sg "-" ->
      (let ds := leading_digits rs1 in
       if String.eqb ds "" then None
       else
         let v := decimal ds 0 in
         if neg
         then (if v <=? 2 ^ 63 then Some (- v, after_digits rs1) else None)
         else (if v <? 2 ^ 63 then Some (v, after_digits rs1) else None))
      = Some (v, rest) ->
      exists (bl : list Z) (sg ds : string),
        rs = bl ++ codes sg ++ codes ds ++ rest /\ forallb blank bl = true
        /\ (sg = "" \/ sg = "+" \/ sg = "-")
        /\ ds <> "" /\ every is_digit ds = true /\ stops rest
        /\ v = (if String.eqb sg "-" then - decimal ds 0 else decimal ds 0)
        /\ - 2 ^ 63 <= v < 2 ^ 63).
  { intros sg neg rs1 E1 Hsg Hneg H1. cbv zeta in H1.
    destruct (String.eqb (leading_digits rs1) "") eqn:Hne; [discriminate|].
    pose proof (leading_digits_every rs1) as Hev.
    pose proof (decimal_nonneg _ Hev) as Hpos.
    exists bl, sg, (leading_digits rs1).
    assert (Hrest : rest = after_digits rs1 /\
                    v = (if neg then - decimal (leading_digits rs1) 0
                         else decimal (leading_digits rs1) 0) /\
                    - 2 ^ 63 <= v < 2 ^ 63).
    { destruct neg.
      - destruct (Z.leb_spec (decimal (leading_digits rs1) 0) (2 ^ 63));
          [|discriminate].
        injection H1 as <- <-. repeat split; lia.
      - destruct (Z.ltb_spec (decimal (leading_digits rs1) 0) (2 ^ 63));
          [|discriminate].
        injection H1 as <- <-. repeat split; lia. }
    destruct Hrest as (-> & Hv & Hrange).
    repeat split; try assumption; try lia.
    - rewrite <- leading_after_digits, <- E1. exact E.
    - apply eqb_empty_neq. exact Hne.
    - apply stops_after_digits.
    - rewrite <- Hneg. exact Hv. }
  destruct (skip_blanks rs) as [|r rs1] eqn:Esk.
  - apply (Hshape "" false []); [reflexivity | tauto | reflexivity | exact H].
  - destruct (Z.eqb_spec r 43) as [->|H43];
      [|destruct (Z.eqb_spec r 45) as [->|H45]].
    + apply (Hshape "+" false rs1); [reflexivity | tauto | reflexivity | exact H].
    + apply (Hshape "-" true rs1); [reflexivity | tauto | reflexivity | exact H].
    + apply (Hshape "" false (r :: rs1));
        [reflexivity | tauto | reflexivity | exact H].
Qed.

End read_facts.

(** The common first steps of [VerifyPassword] on a key of six segments. *)
Lemma VerifyPassword_six (IDKey : primitive) (password key : string)
      (s0 s1 s2 s3 s4 s5 : string) :
  password <> "" ->
  strings.Split key "$" = [s0; s1; s2; s3; s4; s5] ->
  VerifyPassword IDKey password key
  = match fmt.Sscanf s2 "v=%d" [fmt.PtrInt] with
    | (_, Some err) => Err (ScanError err)
    | (vs, None) =>
        if negb (nth 0 vs argon2.Version =? argon2.Version)
        then Err ErrArgonVersionMismatch
        else
          match fmt.Sscanf s3 "m=%d,t=%d,p=%d"
                  [fmt.PtrUint32; fmt.PtrUint32; fmt.PtrUint8] with
          | (_, Some err) => Err (ScanError err)
          | (ps, None) =>
              match DecodeBase64String s4 with
              | (_, Some err) => Err err
              | (salt, None) =>
                  match DecodeBase64String s5 with
                  | (_, Some err) => Err err
                  | (hash, None) =>
                      match IDKey (bytes_of_string password) salt
                                  (nth 1 ps 0) (nth 0 ps 0) (nth 2 ps 0)
                                  (uint32 (len hash)) with
                      | None => Panic
                      | Some control =>
                          if subtle.ConstantTimeCompare hash control =? 1
                          then Ok tt
                          else Err ErrHashNotEqualPassword
                      end
                  end
              end
          end
    end.
Proof.
  intros Hp Hsplit. unfold VerifyPassword. rewrite (eqb_empty_false _ Hp).
  assert (Hkey : String.eqb key "" = false).
  { destruct key; [discriminate Hsplit | reflexivity]. }
  rewrite Hkey, Hsplit. cbn [nth].
  replace (negb (len _ =? 6)) with false by reflexivity.
  reflexivity.
Qed.

Module shape_facts.
Import fmt scan_facts scan_any scan_numbers read_facts.

Lemma skip_blanks_app (bl rs : list Z) :
  forallb blank bl = true -> skip_blanks (bl ++ rs) = skip_blanks rs.
Proof.
  induction bl as [|r bl IH]; cbn [forallb app skip_blanks]; [reflexivity|].
  intros H. apply andb_true_iff in H as [Hr Hbl]. rewrite Hr. apply IH, Hbl.
Qed.

Lemma blank_digit (c : ascii) : is_digit c = true -> blank (ascii_to_Z c) = false.
Proof. intros H. unfold blank. rewrite (isSpace_digit c H). reflexivity. Qed.

Lemma skip_blanks_digits (ds : string) (rest : list Z) :
  ds <> "" -> every is_digit ds = true ->
  skip_blanks (codes ds ++ rest) = codes ds ++ rest.
Proof.
  intros Hne Hd. destruct ds as [|c ds]; [contradiction|].
  cbn in Hd. apply andb_true_iff in Hd as [Hc _].
  cbn [codes app skip_blanks]. rewrite (blank_digit c Hc). reflexivity.
Qed.

Lemma digits_of_codes (ds : string) (rest : list Z) :
  every is_digit ds = true -> stops rest ->
  leading_digits (codes ds ++ rest) = ds
  /\ after_digits (codes ds ++ rest) = rest.
Proof.
  intros Hd Hrest. induction ds as [|c ds IH].
  - cbn [codes app]. destruct rest as [|r rest]; [split; reflexivity|].
    cbn [stops] in Hrest. rewrite indexRune_digit_rune in Hrest.
    cbn [leading_digits after_digits]. rewrite Hrest. split; reflexivity.
  - cbn in Hd. apply andb_true_iff in Hd as [Hc Hd].
    destruct (IH Hd) as [IH1 IH2].
    cbn [codes app leading_digits after_digits].
    change (digit_rune (ascii_to_Z c)) with (is_digit c). rewrite Hc.
    rewrite ascii_of_to_Z, IH1, IH2. split; reflexivity.
Qed.

Lemma expect_app (lit : string) (rs : list Z) :
  expect lit (codes lit ++ rs) = Some rs.
Proof.
  induction lit as [|c lit IH]; cbn [codes app expect]; [reflexivity|].
  rewrite Z.eqb_refl. exact IH.
Qed.

(** [read_unsigned] reads a field, and only a field. *)
Lemma read_unsigned_field (bits : Z) (rs : list Z) (v : Z) (rest : list Z) :
  read_unsigned bits rs = Some (v, rest)
  <-> exists field, rs = field ++ rest /\ unsigned_field bits v field
                    /\ stops rest.
Proof.
  split.
  - intros H.
    destruct (read_unsigned_shape bits rs v rest H)
      as (bl & ds & E & Hbl & Hne & Hd & Hrest & Hv & Hrange).
    exists (bl ++ codes ds). split; [rewrite <- app_assoc; exact E|].
    split; [|exact Hrest].
    exists bl, ds. repeat split; (assumption || lia).
  - intros (field & E & (bl & ds & -> & Hbl & Hne & Hd & Hv & Hrange) & Hrest).
    subst rs. unfold read_unsigned.
    rewrite <- app_assoc, skip_blanks_app, skip_blanks_digits by assumption.
    destruct (digits_of_codes ds rest Hd Hrest) as [-> ->].
    rewrite (eqb_empty_false ds Hne). rewrite <- Hv.
    destruct (Z.ltb_spec v (2 ^ bits)); [reflexivity | lia].
Qed.

Lemma is_digit_code_not_sign (c : ascii) :
  is_digit c = true -> ascii_to_Z c <> 43 /\ ascii_to_Z c <> 45.
Proof.
  unfold is_digit. rewrite andb_true_iff, !Z.leb_le. lia.
Qed.

(** [read_signed] reads a signed field, and only that. *)
Lemma read_signed_field (rs : list Z) (v : Z) (rest : list Z) :
  read_signed rs = Some (v, rest)
  <-> exists field, rs = field ++ rest /\ signed_field v field /\ stops rest.
Proof.
  split.
  - intros H.
    destruct (read_signed_shape rs v rest H)
      as (bl & sg & ds & E & Hbl & Hsg & Hne & Hd & Hrest & Hv & Hrange).
    exists (bl ++ codes sg ++ codes ds).
    split; [rewrite <- !app_assoc; exact E|].
    split; [|exact Hrest].
    exists bl, sg, ds. repeat split; (assumption || lia).
  - intros (field & E
            & (bl & sg & ds & -> & Hbl & Hsg & Hne & Hd & Hv & Hrange) & Hrest).
    subst rs. unfold read_signed.
    rewrite <- !app_assoc, skip_blanks_app by assumption.
    destruct (digits_of_codes ds rest Hd Hrest) as [Hlead Hafter].
    pose proof (eqb_empty_false ds Hne) as Hne'.
    destruct Hsg as [->|[->| ->]]; cbn [codes app String.eqb Ascii.eqb Bool.eqb] in *.
    + rewrite skip_blanks_digits by assumption.
      destruct ds as [|c ds]; [contradiction|].
      assert (Hc : is_digit c = true).
      { cbn in Hd. apply andb_true_iff in Hd as [Hc _]. exact Hc. }
      destruct (is_digit_code_not_sign c Hc) as [H43 H45].
      cbn [codes app] in *.
      destruct (Z.eqb_spec (ascii_to_Z c) 43); [contradiction|].
      destruct (Z.eqb_spec (ascii_to_Z c) 45); [contradiction|].
      rewrite Hlead, Hafter, Hne', <- Hv.
      destruct (Z.ltb_spec v (2 ^ 63)); [reflexivity | lia].
    + change (ascii_to_Z "+") with 43.
      cbn [skip_blanks]. change (blank 43) with false. cbv iota.
      change (43 =? 43) with true. cbv iota.
      rewrite Hlead, Hafter, Hne', <- Hv.
      destruct (Z.ltb_spec v (2 ^ 63)); [reflexivity | lia].
    + change (ascii_to_Z "-") with 45.
      cbn [skip_blanks]. change (blank 45) with false. cbv iota.
      change (45 =? 43) with false. change (45 =? 45) with true. cbv iota.
      rewrite Hlead, Hafter, Hne'.
      assert (E : decimal ds 0 = - v) by lia. rewrite E.
      destruct (Z.leb_spec (- v) (2 ^ 63)); [|lia].
      replace (- - v) with v by lia. reflexivity.
Qed.

Lemma stops_comma (lit : string) (rs : list Z) :
  stops (codes (String "," lit) ++ rs).
Proof. reflexivity. Qed.

(** The recognisers and the shapes say the same. *)
Lemma read_version_shape (s : string) (v : Z) :
  read_version s = Some v <-> version_shape (utf8.runes s) v.
Proof.
  unfold read_version, version_shape. split.
  - intros H. destruct (expect "v=" (utf8.runes s)) as [rs1|] eqn:E1;
      [|discriminate].
    apply expect_codes in E1.
    destruct (read_signed rs1) as [[v' rest]|] eqn:E2; [|discriminate].
    injection H as ->.
    apply read_signed_field in E2 as (field & -> & Hf & Hrest).
    exists field, rest. repeat split; assumption.
  - intros (field & rest & -> & Hf & Hrest).
    rewrite expect_app.
    assert (E2 : read_signed (field ++ rest) = Some (v, rest)).
    { apply read_signed_field. exists field. repeat split; assumption. }
    rewrite E2. reflexivity.
Qed.

Lemma read_params_shape (s : string) (m t p : Z) :
  read_params s = Some (m, t, p) <-> params_shape (utf8.runes s) m t p.
Proof.
  unfold read_params, params_shape. split.
  - intros H.
    destruct (expect "m=" (utf8.runes s)) as [rs1|] eqn:E1; [|discriminate].
    apply expect_codes in E1.
    destruct (read_unsigned 32 rs1) as [[m' rs2]|] eqn:E2; [|discriminate].
    destruct (expect ",t=" rs2) as [rs3|] eqn:E3; [|discriminate].
    apply expect_codes in E3.
    destruct (read_unsigned 32 rs3) as [[t' rs4]|] eqn:E4; [|discriminate].
    destruct (expect ",p=" rs4) as [rs5|] eqn:E5; [|discriminate].
    apply expect_codes in E5.
    destruct (read_unsigned 8 rs5) as [[p' rs6]|] eqn:E6; [|discriminate].
    injection H as -> -> ->.
    apply read_unsigned_field in E2 as (fm & -> & Hm & _).
    apply read_unsigned_field in E4 as (ft & -> & Ht & _).
    apply read_unsigned_field in E6 as (fp & -> & Hp & Hrest).
    exists fm, ft, fp, rs6. subst rs4 rs2.
    repeat split; assumption.
  - intros (fm & ft & fp & rest & -> & Hm & Ht & Hp & Hrest).
    rewrite expect_app.
    assert (E2 : read_unsigned 32 (fm ++ codes ",t=" ++ ft ++ codes ",p=" ++ fp ++ rest)
                 = Some (m, codes ",t=" ++ ft ++ codes ",p=" ++ fp ++ rest)).
    { apply read_unsigned_field. exists fm.
      split; [reflexivity|]. split; [exact Hm | apply stops_comma]. }
    rewrite E2, expect_app.
    assert (E4 : read_unsigned 32 (ft ++ codes ",p=" ++ fp ++ rest)
                 = Some (t, codes ",p=" ++ fp ++ rest)).
    { apply read_unsigned_field. exists ft.
      split; [reflexivity|]. split; [exact Ht | apply stops_comma]. }
    rewrite E4, expect_app.
    assert (E6 : read_unsigned 8 (fp ++ rest) = Some (p, rest)).
    { apply read_unsigned_field. exists fp.
      split; [reflexivity|]. split; [exact Hp | exact Hrest]. }
    rewrite E6. reflexivity.
Qed.

End shape_facts.

(** * The properties of the specification *)

(** C1.  After the earlier checks, verification succeeds exactly when the
    primitive, applied to the password, the decoded salt, the parsed time,
    memory and threads and the length of the decoded hash, returns the
    decoded hash; when it returns anything else the error is
    [ErrHashNotEqualPassword].  The key length is the number of decoded
    bytes (as a [uint32]); it is not read from the text. *)
Theorem C1_verify_compares_derived_hash
      (IDKey : primitive) (password key : string)
      (s0 s1 s2 s3 s4 s5 : string) (vs ps : list Z) (salt hash : list byte) :
  password <> "" ->
  strings.Split key "$" = [s0; s1; s2; s3; s4; s5] ->
  fmt.Sscanf s2 "v=%d" [fmt.PtrInt] = (vs, None) ->
  nth 0 vs argon2.Version = argon2.Version ->
  fmt.Sscanf s3 "m=%d,t=%d,p=%d" [fmt.PtrUint32; fmt.PtrUint32; fmt.PtrUint8]
  = (ps, None) ->
  DecodeBase64String s4 = (salt, None) ->
  DecodeBase64String s5 = (hash, None) ->
  let keyLen := uint32 (len hash) in
  let derived := IDKey (bytes_of_string password) salt
                       (nth 1 ps 0) (nth 0 ps 0) (nth 2 ps 0) keyLen in
  (VerifyPassword IDKey password key = Ok tt <-> derived = Some hash)
  /\ (forall control, derived = Some control -> control <> hash ->
      VerifyPassword IDKey password key = Err ErrHashNotEqualPassword)
  /\ (len hash < 2 ^ 32 -> keyLen = len hash).
Proof.
  intros Hp Hsplit Hv Hcur Hps Hsalt Hhash keyLen derived.
  rewrite (VerifyPassword_parsed IDKey password key s0 s1 s2 s3 s4 s5
             vs ps salt hash) by assumption.
  fold keyLen. fold derived.
  split; [|split].
  - destruct derived as [control|]; [|split; discriminate].
    destruct (Z.eqb_spec (subtle.ConstantTimeCompare hash control) 1) as [E|N].
    + apply subtle_facts.ConstantTimeCompare_eq in E. subst. tauto.
    + split; [discriminate|]. intros [= ->]. exfalso. apply N.
      apply subtle_facts.ConstantTimeCompare_eq. reflexivity.
  - intros control -> Hne.
    destruct (Z.eqb_spec (subtle.ConstantTimeCompare hash control) 1) as [E|N];
      [|reflexivity].
    apply subtle_facts.ConstantTimeCompare_eq in E. congruence.
  - intros Hlen. apply uint32_small. unfold len in *. lia.
Qed.

Lemma C1_witness :
  VerifyPassword sampleIDKey "password" testVectorKey = Ok tt
  <-> sampleIDKey (bytes_of_string "password") (bytes_of_string "salt")
                  1 65536 4 32 = Some testVectorHash.
Proof.
  apply (C1_verify_compares_derived_hash sampleIDKey "password" testVectorKey
           "" "argon2id" "v=19" "m=65536,t=1,p=4" "c2FsdA"
           "OWwmnKFemKE2ILjM60j1so1oRXDFJYqvOiYlZTByvuU"
           [19] [65536; 1; 4] (bytes_of_string "salt") testVectorHash);
    try (vm_compute; reflexivity); discriminate.
Defined.

(** C2.  Verifying a password against the string that hashing it has
    produced succeeds, provided the primitive returns [KeyLen] bytes: the
    string splits in exactly six segments, its version and parameter
    segments are read back to the values used for hashing, and the hash
    derived again equals the stored one. *)
Theorem C2_verify_after_hash
      (IDKey : primitive) (password salt : string) (options : Options)
      (hash : list byte) :
  password <> "" -> salt <> "" -> Options_ok options ->
  IDKey (bytes_of_string password) (bytes_of_string salt)
        (Time options) (Memory options) (Threads options) (KeyLen options)
  = Some hash ->
  len hash = KeyLen options ->
  exists key : string,
    HashPassword IDKey password salt options = Ok key
    /\ strings.Count (EncodeToBase64String (bytes_of_string salt)) "$" = O
    /\ strings.Count (EncodeToBase64String hash) "$" = O
    /\ strings.Split key "$" = segments salt options hash
    /\ List.length (strings.Split key "$") = 6%nat
    /\ fmt.Sscanf (nth 2 (strings.Split key "$") "") "v=%d" [fmt.PtrInt]
       = ([argon2.Version], None)
    /\ fmt.Sscanf (nth 3 (strings.Split key "$") "") "m=%d,t=%d,p=%d"
                  [fmt.PtrUint32; fmt.PtrUint32; fmt.PtrUint8]
       = ([Memory options; Time options; Threads options], None)
    /\ DecodeBase64String (nth 4 (strings.Split key "$") "")
       = (bytes_of_string salt, None)
    /\ DecodeBase64String (nth 5 (strings.Split key "$") "") = (hash, None)
    /\ VerifyPassword IDKey password key = Ok tt.
Proof.
  intros Hp Hs Hok Hk Hlen.
  exists (join (segments salt options hash)).
  pose proof (segments_no_separator salt options hash Hok) as Hall.
  assert (Hsplit : strings.Split (join (segments salt options hash)) "$"
                   = segments salt options hash).
  { apply Split_join; [discriminate | assumption]. }
  rewrite Hsplit.
  split; [apply HashPassword_join; assumption|].
  split; [apply Count_Encode|]. split; [apply Count_Encode|].
  split; [reflexivity|]. split; [reflexivity|].
  split; [vm_compute; reflexivity|].
  destruct Hok as (Ht & Hm & Hth & Hkl).
  split; [apply scanf_facts.Sscanf_params; assumption|].
  split; [apply roundtrip|]. split; [apply roundtrip|].
  apply (VerifyPassword_join IDKey password salt options hash "" "argon2id");
    try assumption; try reflexivity.
  unfold Options_ok. tauto.
Qed.

Lemma C2_witness :
  exists key : string,
    HashPassword sampleIDKey "password" "salt" DefaultOptions = Ok key
    /\ VerifyPassword sampleIDKey "password" key = Ok tt.
Proof.
  destruct (C2_verify_after_hash sampleIDKey "password" "salt" DefaultOptions
              testVectorHash) as (key & H1 & _ & _ & _ & _ & _ & _ & _ & _ & H2);
    try discriminate; try reflexivity.
  - unfold Options_ok. cbn. lia.
  - exists key. split; assumption.
Defined.

(** C3.  The codec round-trip law: decoding the encoding of any byte
    sequence gives the sequence back, without error; the empty sequence
    encodes to the empty string and the empty string decodes to the empty
    sequence without error.  ([EncodeToBase64String] is a function: it is
    total and deterministic.) *)
Theorem C3_codec_roundtrip :
  (forall b : list byte,
      DecodeBase64String (EncodeToBase64String b) = (b, None))
  /\ EncodeToBase64String [] = ""
  /\ DecodeBase64String "" = ([], None).
Proof.
  split; [exact roundtrip | split; reflexivity].
Qed.

(** C4.  For a non-empty password and salt, [HashPassword] returns the six
    segments, joined by ["$"]: an empty one, the name, the version, the
    parameters in the order m, t, p, and the salt and the derived hash in
    the URL-safe encoding without padding.  With the derived key that the
    tests expect for the password ["password"], the salt ["salt"] and the
    default options the string is the one of the tests. *)
Theorem C4_hash_format :
  (forall (IDKey : primitive) (password salt : string) (options : Options)
          (hash : list byte),
      password <> "" -> salt <> "" -> Options_ok options ->
      IDKey (bytes_of_string password) (bytes_of_string salt)
            (Time options) (Memory options) (Threads options) (KeyLen options)
      = Some hash ->
      HashPassword IDKey password salt options
      = Ok (String.append "$argon2id$v=19$m="
             (String.append (fmt.fmtInteger (Memory options))
             (String.append ",t="
             (String.append (fmt.fmtInteger (Time options))
             (String.append ",p="
             (String.append (fmt.fmtInteger (Threads options))
             (String.append "$"
             (String.append (EncodeToBase64String (bytes_of_string salt))
             (String.append "$" (EncodeToBase64String hash))))))))))
      /\ strings.Split (join (segments salt options hash)) "$"
         = segments salt options hash
      /\ List.length (segments salt options hash) = 6%nat)
  /\ (forall IDKey : primitive,
      IDKey (bytes_of_string "password") (bytes_of_string "salt") 1 65536 4 32
      = Some testVectorHash ->
      HashPassword IDKey "password" "salt" DefaultOptions
      = Ok "$argon2id$v=19$m=65536,t=1,p=4$c2FsdA$OWwmnKFemKE2ILjM60j1so1oRXDFJYqvOiYlZTByvuU").
Proof.
  split.
  - intros IDKey password salt options hash Hp Hs Hok Hk.
    split; [|split; [|reflexivity]].
    + rewrite (HashPassword_join IDKey password salt options hash)
        by assumption.
      f_equal. unfold segments. cbn [join].
      repeat first [rewrite scan_facts.append_assoc
                   | progress cbn [String.append]].
      reflexivity.
    + apply Split_join; [discriminate|].
      apply segments_no_separator. assumption.
  - intros IDKey Hk.
    rewrite (HashPassword_join IDKey "password" "salt" DefaultOptions
               testVectorHash) by (discriminate || assumption).
    reflexivity.
Qed.

Lemma C4_witness :
  HashPassword sampleIDKey "password" "salt" DefaultOptions
  = Ok "$argon2id$v=19$m=65536,t=1,p=4$c2FsdA$OWwmnKFemKE2ILjM60j1so1oRXDFJYqvOiYlZTByvuU".
Proof.
  apply (proj2 C4_hash_format sampleIDKey). reflexivity.
Defined.

(** C5, as the code has it.  The string that hashing has produced is
    extended by one character [c].  The separator opens a seventh segment:
    [ErrInvalidKeyLength].  Every other character joins the hash segment,
    and the decoder decides: a line break is skipped, so verification
    succeeds; a byte outside the alphabet is corrupt input, and so is a
    character of the alphabet after whole groups of four; after a partial
    group a character of the alphabet completes one more byte, the
    primitive is asked for a key one byte longer and the comparison
    decides between success and [ErrHashNotEqualPassword]. *)
Theorem C5_trailing_character
      (IDKey : primitive) (password salt : string) (options : Options)
      (hash : list byte) (c : ascii) :
  password <> "" -> salt <> "" -> Options_ok options ->
  IDKey (bytes_of_string password) (bytes_of_string salt)
        (Time options) (Memory options) (Threads options) (KeyLen options)
  = Some hash ->
  len hash = KeyLen options ->
  let key := join (segments salt options hash) in
  let b64Hash := EncodeToBase64String hash in
  let r := VerifyPassword IDKey password (String.append key (String c "")) in
  HashPassword IDKey password salt options = Ok key
  /\ (c = "$"%char -> r = Err ErrInvalidKeyLength)
  /\ (newline c = true -> r = Ok tt)
  /\ (c <> "$"%char -> newline c = false -> base64.decodeMap c = 255 ->
      r = Err (CorruptInputError (Z.of_nat (String.length b64Hash))))
  /\ (base64.decodeMap c <> 255 -> (List.length hash mod 3 = 0)%nat ->
      r = Err (CorruptInputError (Z.of_nat (String.length b64Hash))))
  /\ (base64.decodeMap c <> 255 -> (List.length hash mod 3 <> 0)%nat ->
      exists x : byte,
        r = match IDKey (bytes_of_string password) (bytes_of_string salt)
                        (Time options) (Memory options) (Threads options)
                        (uint32 (len hash + 1)) with
            | None => Panic
            | Some control =>
                if subtle.ConstantTimeCompare (hash ++ [x]) control =? 1
                then Ok tt
                else Err ErrHashNotEqualPassword
            end).
Proof.
  intros Hp Hs Hok Hk Hlen key b64Hash r.
  assert (Hfuel : (S (String.length (base64.Encode hash))
                   <= String.length (String.append (base64.Encode hash)
                                                   (String c "")))%nat).
  { rewrite length_append. cbn [String.length]. lia. }
  split; [apply HashPassword_join; assumption|].
  split; [|split; [|split; [|split]]].
  - intros ->. unfold r, key.
    rewrite join_separator by discriminate.
    unfold VerifyPassword. rewrite (eqb_empty_false _ Hp).
    rewrite Split_join.
    + reflexivity.
    + discriminate.
    + apply Forall_app. split; [apply segments_no_separator; assumption|].
      apply Forall_cons; [reflexivity | apply Forall_nil].
  - intros Hnl. unfold r, key.
    rewrite VerifyPassword_join_char; try assumption.
    2:{ unfold newline in Hnl. apply orb_true_iff in Hnl as [H|H];
          apply Ascii.eqb_eq in H; subst; reflexivity. }
    unfold DecodeBase64String, EncodeToBase64String, base64.DecodeString,
      base64.EncodeToString.
    rewrite base64_tail.Decode_loop_Encode_newline by assumption.
    cbn [app]. rewrite Hlen, uint32_small by (unfold Options_ok in Hok; tauto).
    rewrite Hk.
    replace (subtle.ConstantTimeCompare hash hash) with 1
      by (symmetry; apply subtle_facts.ConstantTimeCompare_eq; reflexivity).
    reflexivity.
  - intros Hc Hnl Hmap. unfold r, key.
    rewrite VerifyPassword_join_char; try assumption.
    2:{ apply Ascii.eqb_neq. assumption. }
    unfold DecodeBase64String, EncodeToBase64String, base64.DecodeString,
      base64.EncodeToString.
    pose proof (base64_tail.Decode_loop_Encode_corrupt c hash Hmap Hnl
                  _ 0 [] Hfuel) as Herr.
    destruct (base64.Decode_loop _ _ 0 []) as [out err].
    cbn [snd] in Herr. subst err. reflexivity.
  - intros Hmap Hmod. unfold r, key.
    rewrite VerifyPassword_join_char; try assumption.
    2:{ apply Ascii.eqb_neq. intros ->. apply Hmap. reflexivity. }
    unfold DecodeBase64String, EncodeToBase64String, base64.DecodeString,
      base64.EncodeToString.
    pose proof (base64_tail.Decode_loop_Encode_symbol_short c hash Hmap Hmod
                  _ 0 [] Hfuel) as Herr.
    destruct (base64.Decode_loop _ _ 0 []) as [out err].
    cbn [snd] in Herr. subst err. reflexivity.
  - intros Hmap Hmod. unfold r, key.
    rewrite VerifyPassword_join_char; try assumption.
    2:{ apply Ascii.eqb_neq. intros ->. apply Hmap. reflexivity. }
    unfold DecodeBase64String, EncodeToBase64String, base64.DecodeString,
      base64.EncodeToString.
    destruct (base64_tail.Decode_loop_Encode_symbol_long c hash Hmap Hmod
                _ 0 [] Hfuel) as [x Hx].
    exists x. rewrite Hx. cbn [app]. rewrite len_app_one. reflexivity.
Qed.

Lemma C5_witness :
  VerifyPassword sampleIDKey "password" (String.append testVectorKey "$")
  = Err ErrInvalidKeyLength.
Proof.
  assert (Hok : Options_ok DefaultOptions) by (unfold Options_ok; cbn; lia).
  pose proof (C5_trailing_character sampleIDKey "password" "salt"
                DefaultOptions testVectorHash "$"
                ltac:(discriminate) ltac:(discriminate) Hok
                eq_refl eq_refl) as H.
  cbv zeta in H. destruct H as (_ & H & _). exact (H eq_refl).
Defined.

(** C5 as stated fails: the credential string of the tests followed by a
    line feed is verified successfully, so the outcome is neither
    [ErrInvalidKeyLength] nor a decoding error. *)
Lemma C5_counterexample :
  HashPassword sampleIDKey "password" "salt" DefaultOptions = Ok testVectorKey
  /\ VerifyPassword sampleIDKey "password"
       (String.append testVectorKey (String "010" "")) = Ok tt.
Proof. repeat split; vm_compute; reflexivity. Qed.

(** C6, as the code has it.  [Sscanf] matches a beginning of the segment
    against the format.  A version segment is accepted exactly when it
    begins with [v=<int>], a parameter segment exactly when it begins with
    [m=<int>,t=<int>,p=<int>], the three fields in this order and
    separated by commas; [<int>] is a run of blanks (possibly none), a
    sign where the operand is signed, and one or more decimal digits with
    a value that fits the operand ([int], [uint32], [uint32], [uint8]).
    For every other segment [Sscanf] reports an error, and
    [VerifyPassword] returns this error: for the version segment at once,
    for the parameter segment once the version is the current one.  So
    [v=], [v=x], a missing field, another separator and another order of
    the fields are all rejected.  What follows the last integer is not
    looked at, unless it continues the number: a segment that goes on
    after it is accepted.  The segments are taken to be no longer than
    the limit [hugeWid] of the scanner. *)
Theorem C6_parse_errors_and_trailing_text :
  (* a version segment of another shape is rejected *)
  (forall (IDKey : primitive) (password key : string)
          (s0 s1 s2 s3 s4 s5 : string),
      password <> "" ->
      strings.Split key "$" = [s0; s1; s2; s3; s4; s5] ->
      Z.of_nat (String.length s2) <= fmt.hugeWid ->
      read_version s2 = None ->
      exists e,
        fmt.Sscanf s2 "v=%d" [fmt.PtrInt] = ([], Some e)
        /\ VerifyPassword IDKey password key = Err (ScanError e))
  (* a parameter segment of another shape is rejected *)
  /\ (forall (IDKey : primitive) (password key : string)
             (s0 s1 s2 s3 s4 s5 : string),
      password <> "" ->
      strings.Split key "$" = [s0; s1; s2; s3; s4; s5] ->
      Z.of_nat (String.length s2) <= fmt.hugeWid ->
      Z.of_nat (String.length s3) <= fmt.hugeWid ->
      read_version s2 = Some argon2.Version ->
      read_params s3 = None ->
      exists vs e,
        fmt.Sscanf s3 "m=%d,t=%d,p=%d"
                   [fmt.PtrUint32; fmt.PtrUint32; fmt.PtrUint8] = (vs, Some e)
        /\ VerifyPassword IDKey password key = Err (ScanError e))
  (* what [Sscanf] accepts, and with which values *)
  /\ (forall (s : string) (vs : list Z),
      Z.of_nat (String.length s) <= fmt.hugeWid ->
      (fmt.Sscanf s "v=%d" [fmt.PtrInt] = (vs, None)
       <-> exists v, vs = [v] /\ version_shape (utf8.runes s) v))
  /\ (forall (s : string) (vs : list Z),
      Z.of_nat (String.length s) <= fmt.hugeWid ->
      (fmt.Sscanf s "m=%d,t=%d,p=%d"
                  [fmt.PtrUint32; fmt.PtrUint32; fmt.PtrUint8] = (vs, None)
       <-> exists m t p, vs = [m; t; p] /\ params_shape (utf8.runes s) m t p))
  (* the recognisers decide the shapes *)
  /\ (forall (s : string) (v : Z),
      read_version s = Some v <-> version_shape (utf8.runes s) v)
  /\ (forall (s : string) (m t p : Z),
      read_params s = Some (m, t, p) <-> params_shape (utf8.runes s) m t p)
  (* the error of [Sscanf] is the error of [VerifyPassword] *)
  /\ (forall (IDKey : primitive) (password key : string)
             (s0 s1 s2 s3 s4 s5 : string) (vs : list Z) (e : scan_error),
      password <> "" ->
      strings.Split key "$" = [s0; s1; s2; s3; s4; s5] ->
      fmt.Sscanf s2 "v=%d" [fmt.PtrInt] = (vs, Some e) ->
      VerifyPassword IDKey password key = Err (ScanError e))
  /\ (forall (IDKey : primitive) (password key : string)
             (s0 s1 s2 s3 s4 s5 : string) (vs ps : list Z) (e : scan_error),
      password <> "" ->
      strings.Split key "$" = [s0; s1; s2; s3; s4; s5] ->
      fmt.Sscanf s2 "v=%d" [fmt.PtrInt] = (vs, None) ->
      nth 0 vs argon2.Version = argon2.Version ->
      fmt.Sscanf s3 "m=%d,t=%d,p=%d"
                 [fmt.PtrUint32; fmt.PtrUint32; fmt.PtrUint8] = (ps, Some e) ->
      VerifyPassword IDKey password key = Err (ScanError e))
  (* a segment of any length that begins otherwise is rejected *)
  /\ (forall s : string,
      String.prefix "v=" s = false ->
      exists vs e, fmt.Sscanf s "v=%d" [fmt.PtrInt] = (vs, Some e))
  /\ (forall s : string,
      String.prefix "m=" s = false ->
      exists vs e,
        fmt.Sscanf s "m=%d,t=%d,p=%d"
                   [fmt.PtrUint32; fmt.PtrUint32; fmt.PtrUint8]
        = (vs, Some e))
  (* the segments that [HashPassword] prints, followed by more text *)
  /\ (forall (v : Z) (suffix : string),
      0 <= v < 2 ^ 63 -> stops (utf8.runes suffix) ->
      fmt.Sscanf (String.append "v=" (String.append (fmt.fmtInteger v) suffix))
                 "v=%d" [fmt.PtrInt]
      = ([v], None))
  /\ (forall (m t p : Z) (suffix : string),
      0 <= m < 2 ^ 32 -> 0 <= t < 2 ^ 32 -> 0 <= p < 2 ^ 8 ->
      stops (utf8.runes suffix) ->
      fmt.Sscanf
        (String.append
           (String.append "m=" (String.append (fmt.fmtInteger m)
             (String.append ",t=" (String.append (fmt.fmtInteger t)
               (String.append ",p=" (fmt.fmtInteger p))))))
           suffix)
        "m=%d,t=%d,p=%d" [fmt.PtrUint32; fmt.PtrUint32; fmt.PtrUint8]
      = ([m; t; p], None))
  (* the fields [p] and [t] exchanged *)
  /\ fmt.Sscanf "m=65536,p=4,t=1" "m=%d,t=%d,p=%d"
                [fmt.PtrUint32; fmt.PtrUint32; fmt.PtrUint8]
     = ([65536], Some ScanInputMismatch).
Proof.
  assert (Hversion : forall (s : string) (vs : list Z),
      Z.of_nat (String.length s) <= fmt.hugeWid ->
      (fmt.Sscanf s "v=%d" [fmt.PtrInt] = (vs, None)
       <-> exists v, vs = [v] /\ read_version s = Some v)).
  { intros s vs Hlen. pose proof (scanf_any.Sscanf_version_read s Hlen) as H.
    destruct (read_version s) as [v|].
    - rewrite H. split.
      + intros E. injection E as <-. exists v. split; reflexivity.
      + intros (v' & -> & E). injection E as ->. reflexivity.
    - destruct H as [e H]. rewrite H. split.
      + discriminate.
      + intros (v' & _ & E). discriminate E. }
  assert (Hparams : forall (s : string) (vs : list Z),
      Z.of_nat (String.length s) <= fmt.hugeWid ->
      (fmt.Sscanf s "m=%d,t=%d,p=%d"
                  [fmt.PtrUint32; fmt.PtrUint32; fmt.PtrUint8] = (vs, None)
       <-> exists m t p, vs = [m; t; p] /\ read_params s = Some (m, t, p))).
  { intros s vs Hlen. pose proof (scanf_any.Sscanf_params_read s Hlen) as H.
    destruct (read_params s) as [[[m t] p]|].
    - rewrite H. split.
      + intros E. injection E as <-. exists m, t, p. split; reflexivity.
      + intros (m' & t' & p' & -> & E). injection E as -> -> ->. reflexivity.
    - destruct H as (vs' & e & H). rewrite H. split.
      + discriminate.
      + intros (m' & t' & p' & _ & E). discriminate E. }
  repeat apply conj.
  - intros IDKey password key s0 s1 s2 s3 s4 s5 Hp Hsplit Hlen Hread.
    pose proof (scanf_any.Sscanf_version_read s2 Hlen) as H.
    rewrite Hread in H. destruct H as [e H]. exists e. split; [exact H|].
    rewrite (VerifyPassword_six IDKey password key s0 s1 s2 s3 s4 s5 Hp Hsplit).
    rewrite H. reflexivity.
  - intros IDKey password key s0 s1 s2 s3 s4 s5 Hp Hsplit Hlen2 Hlen3 Hv Hread.
    pose proof (scanf_any.Sscanf_version_read s2 Hlen2) as H2.
    rewrite Hv in H2.
    pose proof (scanf_any.Sscanf_params_read s3 Hlen3) as H3.
    rewrite Hread in H3. destruct H3 as (vs & e & H3). exists vs, e.
    split; [exact H3|].
    rewrite (VerifyPassword_six IDKey password key s0 s1 s2 s3 s4 s5 Hp Hsplit).
    rewrite H2. cbn [nth]. rewrite Z.eqb_refl. cbn [negb].
    rewrite H3. reflexivity.
  - intros s vs Hlen. rewrite (Hversion s vs Hlen).
    split; intros (v & E & H); exists v; (split; [exact E|]);
      apply shape_facts.read_version_shape; exact H.
  - intros s vs Hlen. rewrite (Hparams s vs Hlen).
    split; intros (m & t & p & E & H); exists m, t, p; (split; [exact E|]);
      apply shape_facts.read_params_shape; exact H.
  - intros s v. apply shape_facts.read_version_shape.
  - intros s m t p. apply shape_facts.read_params_shape.
  - intros IDKey password key s0 s1 s2 s3 s4 s5 vs e Hp Hsplit Hv.
    rewrite (VerifyPassword_six IDKey password key s0 s1 s2 s3 s4 s5 Hp Hsplit).
    rewrite Hv. reflexivity.
  - intros IDKey password key s0 s1 s2 s3 s4 s5 vs ps e Hp Hsplit Hv Hcur Hps.
    rewrite (VerifyPassword_six IDKey password key s0 s1 s2 s3 s4 s5 Hp Hsplit).
    rewrite Hv, Hcur, Z.eqb_refl. cbn [negb]. rewrite Hps. reflexivity.
  - intros s Hpre. unfold fmt.Sscanf.
    change (String.length "v=%d") with 4%nat.
    apply scanf_prefix.doScanf_requires_prefix;
      (reflexivity || assumption).
  - intros s Hpre. unfold fmt.Sscanf.
    change (String.length "m=%d,t=%d,p=%d") with 14%nat.
    apply scanf_prefix.doScanf_requires_prefix;
      (reflexivity || assumption).
  - intros v suffix Hv Hstop.
    apply scanf_suffix.Sscanf_version_suffix; assumption.
  - intros m t p suffix Hm Ht Hp Hstop.
    apply scanf_suffix.Sscanf_params_suffix; assumption.
  - vm_compute. reflexivity.
Qed.

Lemma C6_witness :
  (exists e,
      fmt.Sscanf "v=" "v=%d" [fmt.PtrInt] = ([], Some e)
      /\ VerifyPassword sampleIDKey "password"
           "$argon2id$v=$m=65536,t=1,p=4$c2FsdA$OWwmnKFemKE2ILjM60j1so1oRXDFJYqvOiYlZTByvuU"
         = Err (ScanError e))
  /\ (exists e,
      fmt.Sscanf "v=x" "v=%d" [fmt.PtrInt] = ([], Some e)
      /\ VerifyPassword sampleIDKey "password"
           "$argon2id$v=x$m=65536,t=1,p=4$c2FsdA$OWwmnKFemKE2ILjM60j1so1oRXDFJYqvOiYlZTByvuU"
         = Err (ScanError e))
  /\ (exists vs e,
      fmt.Sscanf "m=65536,t=1" "m=%d,t=%d,p=%d"
                 [fmt.PtrUint32; fmt.PtrUint32; fmt.PtrUint8] = (vs, Some e)
      /\ VerifyPassword sampleIDKey "password"
           "$argon2id$v=19$m=65536,t=1$c2FsdA$OWwmnKFemKE2ILjM60j1so1oRXDFJYqvOiYlZTByvuU"
         = Err (ScanError e))
  /\ (exists vs e,
      fmt.Sscanf "m=65536;t=1;p=4" "m=%d,t=%d,p=%d"
                 [fmt.PtrUint32; fmt.PtrUint32; fmt.PtrUint8] = (vs, Some e)
      /\ VerifyPassword sampleIDKey "password"
           "$argon2id$v=19$m=65536;t=1;p=4$c2FsdA$OWwmnKFemKE2ILjM60j1so1oRXDFJYqvOiYlZTByvuU"
         = Err (ScanError e))
  /\ (exists vs e,
      fmt.Sscanf "m=65536,p=4,t=1" "m=%d,t=%d,p=%d"
                 [fmt.PtrUint32; fmt.PtrUint32; fmt.PtrUint8] = (vs, Some e)
      /\ VerifyPassword sampleIDKey "password"
           "$argon2id$v=19$m=65536,p=4,t=1$c2FsdA$OWwmnKFemKE2ILjM60j1so1oRXDFJYqvOiYlZTByvuU"
         = Err (ScanError e))
  /\ fmt.Sscanf "v=19x" "v=%d" [fmt.PtrInt] = ([19], None).
Proof.
  destruct C6_parse_errors_and_trailing_text
    as (Hv & Hp & _ & _ & _ & _ & _ & _ & _ & _ & Hsuffix & _).
  assert (Hlen : forall s : string,
             (Z.of_nat (String.length s) <=? fmt.hugeWid) = true ->
             Z.of_nat (String.length s) <= fmt.hugeWid).
  { intros s H. apply Z.leb_le. exact H. }
  repeat apply conj.
  - apply (Hv sampleIDKey "password" _ "" "argon2id" "v=" "m=65536,t=1,p=4"
              "c2FsdA" "OWwmnKFemKE2ILjM60j1so1oRXDFJYqvOiYlZTByvuU");
      [discriminate | reflexivity | apply Hlen; reflexivity | reflexivity].
  - apply (Hv sampleIDKey "password" _ "" "argon2id" "v=x" "m=65536,t=1,p=4"
              "c2FsdA" "OWwmnKFemKE2ILjM60j1so1oRXDFJYqvOiYlZTByvuU");
      [discriminate | reflexivity | apply Hlen; reflexivity | reflexivity].
  - apply (Hp sampleIDKey "password" _ "" "argon2id" "v=19" "m=65536,t=1"
              "c2FsdA" "OWwmnKFemKE2ILjM60j1so1oRXDFJYqvOiYlZTByvuU");
      [discriminate | reflexivity | apply Hlen; reflexivity
       | apply Hlen; reflexivity | reflexivity | reflexivity].
  - apply (Hp sampleIDKey "password" _ "" "argon2id" "v=19" "m=65536;t=1;p=4"
              "c2FsdA" "OWwmnKFemKE2ILjM60j1so1oRXDFJYqvOiYlZTByvuU");
      [discriminate | reflexivity | apply Hlen; reflexivity
       | apply Hlen; reflexivity | reflexivity | reflexivity].
  - apply (Hp sampleIDKey "password" _ "" "argon2id" "v=19" "m=65536,p=4,t=1"
              "c2FsdA" "OWwmnKFemKE2ILjM60j1so1oRXDFJYqvOiYlZTByvuU");
      [discriminate | reflexivity | apply Hlen; reflexivity
       | apply Hlen; reflexivity | reflexivity | reflexivity].
  - apply (Hsuffix 19 "x"); [lia | vm_compute; reflexivity].
Defined.

(** C6 as stated fails: a version segment and a parameter segment that
    go on after their last integer are accepted, and the password is
    verified successfully. *)
Lemma C6_counterexample :
  version_form "v=19x" = false
  /\ params_form "m=65536,t=1,p=4junk" = false
  /\ VerifyPassword sampleIDKey "password"
       "$argon2id$v=19x$m=65536,t=1,p=4junk$c2FsdA$OWwmnKFemKE2ILjM60j1so1oRXDFJYqvOiYlZTByvuU"
     = Ok tt.
Proof. repeat split; vm_compute; reflexivity. Qed.

(** C8.  When the version that was read differs from the current one the
    error is [ErrArgonVersionMismatch], whatever the later segments are
    and whatever the primitive does: neither are the parameters parsed nor
    the byte fields decoded before.  In the example of the tests the salt
    and hash segments are ["="], which the codec rejects. *)
Theorem C8_version_checked_first :
  (forall (IDKey : primitive) (password key : string)
          (s0 s1 s2 s3 s4 s5 : string) (vs : list Z),
      password <> "" ->
      strings.Split key "$" = [s0; s1; s2; s3; s4; s5] ->
      fmt.Sscanf s2 "v=%d" [fmt.PtrInt] = (vs, None) ->
      nth 0 vs argon2.Version <> argon2.Version ->
      VerifyPassword IDKey password key = Err ErrArgonVersionMismatch)
  /\ (forall IDKey : primitive,
      VerifyPassword IDKey "password" "$argon2id$v=1$m=65536,t=1,p=4$=$="
      = Err ErrArgonVersionMismatch)
  /\ DecodeBase64String "=" = ([], Some (CorruptInputError 0)).
Proof.
  split; [|split; [intros IDKey|]; reflexivity].
  intros IDKey password key s0 s1 s2 s3 s4 s5 vs Hp Hsplit Hv Hne.
  unfold VerifyPassword. rewrite (eqb_empty_false _ Hp).
  assert (Hkey : String.eqb key "" = false).
  { destruct key; [discriminate Hsplit | reflexivity]. }
  rewrite Hkey, Hsplit. cbn [nth].
  replace (negb (len _ =? 6)) with false by reflexivity.
  rewrite Hv. destruct (Z.eqb_spec (nth 0 vs argon2.Version) argon2.Version);
    [contradiction | reflexivity].
Qed.

Lemma C8_witness :
  VerifyPassword neverIDKey "password" "$argon2id$v=1$m=65536,t=1,p=4$=$="
  = Err ErrArgonVersionMismatch.
Proof.
  apply (proj1 C8_version_checked_first neverIDKey "password" _
           "" "argon2id" "v=1" "m=65536,t=1,p=4" "=" "=" [1]);
    try (vm_compute; reflexivity); discriminate.
Defined.

(** C9.  Missing or ill-shaped input is rejected first and in a fixed
    order, whatever the primitive is -- even one that never returns, so
    no derivation takes place -- and whatever the segments contain. *)
Theorem C9_required_inputs_first (IDKey : primitive) :
  (forall salt options,
      HashPassword IDKey "" salt options = Err ErrPasswordRequired)
  /\ (forall password options, password <> "" ->
      HashPassword IDKey password "" options = Err ErrSaltRequired)
  /\ (forall key, VerifyPassword IDKey "" key = Err ErrPasswordRequired)
  /\ (forall password, password <> "" ->
      VerifyPassword IDKey password "" = Err ErrArgon2KeyRequired)
  /\ (forall password key, password <> "" -> key <> "" ->
      List.length (strings.Split key "$") <> 6%nat ->
      VerifyPassword IDKey password key = Err ErrInvalidKeyLength).
Proof.
  repeat split.
  - intros password options Hp. unfold HashPassword.
    rewrite eqb_empty_false by assumption. reflexivity.
  - intros password Hp. unfold VerifyPassword.
    rewrite eqb_empty_false by assumption. reflexivity.
  - intros password key Hp Hk Hlen. unfold VerifyPassword.
    rewrite !eqb_empty_false by assumption.
    unfold len. destruct (Z.eqb_spec (Z.of_nat (List.length (strings.Split key "$"))) 6);
      [lia | reflexivity].
Qed.

Lemma C9_witness :
  HashPassword neverIDKey "password" "" DefaultOptions = Err ErrSaltRequired
  /\ VerifyPassword neverIDKey "password" "" = Err ErrArgon2KeyRequired
  /\ VerifyPassword neverIDKey "password" "$argon2id$v=19"
     = Err ErrInvalidKeyLength.
Proof.
  destruct (C9_required_inputs_first neverIDKey) as (_ & H2 & _ & H4 & H5).
  split; [apply H2; discriminate|].
  split; [apply H4; discriminate|].
  apply H5; [discriminate | discriminate | vm_compute; discriminate].
Defined.

(** C10.  The first two segments are only counted: two strings that
    differ in them alone are verified alike, and a string whose first
    segment is not empty and whose second is not ["argon2id"] is verified
    successfully when its other four segments are those that hashing has
    produced. *)
Theorem C10_leading_segments_ignored :
  (forall (IDKey : primitive) (password a b a' b' rest : string),
      strings.Count a "$" = O -> strings.Count b "$" = O ->
      strings.Count a' "$" = O -> strings.Count b' "$" = O ->
      VerifyPassword IDKey password
        (String.append a (String "$" (String.append b (String "$" rest))))
      = VerifyPassword IDKey password
          (String.append a' (String "$" (String.append b' (String "$" rest)))))
  /\ (forall (IDKey : primitive) (password salt : string) (options : Options)
             (hash : list byte),
      password <> "" -> Options_ok options ->
      IDKey (bytes_of_string password) (bytes_of_string salt)
            (Time options) (Memory options) (Threads options) (KeyLen options)
      = Some hash ->
      len hash = KeyLen options ->
      VerifyPassword IDKey password
        (join ("x" :: "other" :: skipn 2 (segments salt options hash)))
      = Ok tt).
Proof.
  split.
  - intros IDKey password a b a' b' rest Ha Hb Ha' Hb'.
    unfold VerifyPassword.
    rewrite !strings_facts.Split_cons by assumption.
    replace (String.eqb (String.append a _) "") with false
      by (symmetry; apply String.eqb_neq; destruct a; discriminate).
    replace (String.eqb (String.append a' _) "") with false
      by (symmetry; apply String.eqb_neq; destruct a'; discriminate).
    reflexivity.
  - intros IDKey password salt options hash Hp Hok Hk Hlen.
    apply VerifyPassword_join; try assumption; reflexivity.
Qed.

Lemma C10_witness :
  VerifyPassword sampleIDKey "password"
    "x$other$v=19$m=65536,t=1,p=4$c2FsdA$OWwmnKFemKE2ILjM60j1so1oRXDFJYqvOiYlZTByvuU"
  = Ok tt.
Proof.
  apply (proj2 C10_leading_segments_ignored sampleIDKey "password" "salt"
           DefaultOptions testVectorHash);
    try reflexivity; try discriminate.
  unfold Options_ok. cbn. lia.
Defined.

(** * Further properties of the code *)

(** ** The encoder *)

Lemma encode_url_safe (v : Z) : 0 <= v < 64 -> url_safe (base64.encode v) = true.
Proof.
  intros Hv.
  assert (H : forallb (fun n => url_safe (base64.encode (Z.of_nat n)))
                (seq 0 64) = true) by (vm_compute; reflexivity).
  rewrite forallb_forall in H.
  specialize (H (Z.to_nat v)). rewrite Z2Nat.id in H by lia.
  apply H, in_seq. lia.
Qed.

(** X1.  The encoding of [n] bytes has [(4 n + 2) / 3] characters: four
    for every three bytes, two for one byte left over and three for two,
    and nothing for padding. *)
Theorem X1_encoded_length (b : list byte) :
  String.length (EncodeToBase64String b)
  = ((4 * List.length b + 2) / 3)%nat.
Proof.
  unfold EncodeToBase64String, base64.EncodeToString.
  induction b as [| b0 | b0 b1 | b0 b1 b2 rest IH] using list_ind3;
    try reflexivity.
  cbn [base64.Encode String.length List.length]. rewrite IH.
  replace (4 * S (S (S (List.length rest))) + 2)%nat
    with (4 * List.length rest + 2 + 4 * 3)%nat by lia.
  rewrite Nat.div_add by lia. lia.
Qed.

(** X2.  Every character of an encoding is a letter, a digit, ["-"] or
    ["_"]: the encoder writes no padding, no separator and no line
    break. *)
Theorem X2_encoding_is_url_safe (b : list byte) :
  every url_safe (EncodeToBase64String b) = true.
Proof.
  unfold EncodeToBase64String, base64.EncodeToString.
  induction b as [| b0 | b0 b1 | b0 b1 b2 rest IH] using list_ind3;
    cbn [base64.Encode every]; unfold base64.sextet;
    rewrite ?encode_url_safe by apply base64_facts.sextet_bound;
    auto.
Qed.

(** X3.  Different byte sequences have different encodings. *)
Theorem X3_encoding_injective (b b' : list byte) :
  EncodeToBase64String b = EncodeToBase64String b' -> b = b'.
Proof.
  intros H.
  assert (E : DecodeBase64String (EncodeToBase64String b)
              = DecodeBase64String (EncodeToBase64String b')) by (rewrite H; reflexivity).
  rewrite !roundtrip in E. congruence.
Qed.

Lemma X3_witness :
  bytes_of_string "salt" = [x73; x61; x6c; x74].
Proof.
  apply X3_encoding_injective. vm_compute. reflexivity.
Defined.

(** X4.  After a whole number of three-byte groups the encoder starts
    afresh: the encoding of a concatenation is the concatenation of the
    encodings. *)
Theorem X4_encoding_of_concatenation (b b' : list byte) :
  (List.length b mod 3 = 0)%nat ->
  EncodeToBase64String (b ++ b')
  = String.append (EncodeToBase64String b) (EncodeToBase64String b').
Proof.
  unfold EncodeToBase64String, base64.EncodeToString.
  induction b as [| b0 | b0 b1 | b0 b1 b2 rest IH] using list_ind3;
    intros Hlen; try discriminate Hlen; [reflexivity|].
  cbn [List.length] in Hlen. rewrite base64_tail.mod3_group in Hlen.
  cbn [app base64.Encode String.append]. rewrite IH by assumption.
  reflexivity.
Qed.

Lemma X4_witness :
  EncodeToBase64String (bytes_of_string "saltsalt")
  = String.append (EncodeToBase64String (bytes_of_string "sal"))
                  (EncodeToBase64String (bytes_of_string "tsalt")).
Proof.
  apply (X4_encoding_of_concatenation (bytes_of_string "sal")
           (bytes_of_string "tsalt")).
  reflexivity.
Defined.

(** ** The decoder on arbitrary input *)

Module base64_any.
Import base64 base64_facts base64_tail.

Lemma list_ind4 {A} (P : list A -> Prop) :
  P [] -> (forall a, P [a]) -> (forall a b, P [a; b]) ->
  (forall a b c, P [a; b; c]) ->
  (forall a b c d l, P l -> P (a :: b :: c :: d :: l)) ->
  forall l, P l.
Proof.
  intros H0 H1 H2 H3 H4 l.
  enough (P l /\ (forall a, P (a :: l)) /\ (forall a b, P (a :: b :: l))
          /\ (forall a b c, P (a :: b :: c :: l))) by tauto.
  induction l as [|x l (IH0 & IH1 & IH2 & IH3)]; auto 6.
Qed.

Lemma decode_symbols_length (vs : list Z) :
  List.length (decode_symbols vs) = (3 * List.length vs / 4)%nat.
Proof.
  induction vs as [| a | a b | a b c | a b c d l IH] using list_ind4;
    try reflexivity.
  cbn [decode_symbols]. rewrite length_app, IH.
  cbn [quantum Nat.sub firstn List.length].
  replace (3 * S (S (S (S (List.length l)))))%nat
    with (3 * List.length l + 3 * 4)%nat by lia.
  rewrite Nat.div_add by lia. lia.
Qed.

Lemma decodeQuantum_collected (src rest : string) (si nsi : Z)
      (dbuf : list Z) (dlen : nat) :
  collect src si 0 [] = Collected rest nsi dbuf dlen ->
  decodeQuantum src si = (rest, nsi, quantum dbuf dlen, None).
Proof. intros H. unfold decodeQuantum. rewrite H. reflexivity. Qed.

Lemma no_invalid_cons (c : ascii) (s : string) :
  no_invalid (String c s) = true ->
  (decodeMap c <> 255 \/ (decodeMap c = 255 /\ newline c = true))
  /\ no_invalid s = true.
Proof.
  unfold no_invalid. cbn [every]. rewrite andb_true_iff.
  intros [Hc Hs]. split; [|assumption].
  unfold invalid in Hc.
  destruct (Z.eqb_spec (decodeMap c) 255) as [E|N]; [|left; assumption].
  right. split; [assumption|]. destruct (newline c); [reflexivity | discriminate].
Qed.

(** What the collecting loop returns, in terms of the six-bit values
    already collected and those still in the input. *)
Lemma collect_symbols (src : string) :
  no_invalid src = true ->
  forall (si : Z) (j : nat) (dbuf : list Z),
    List.length dbuf = j -> (j <= 4)%nat ->
    match collect src si j dbuf with
    | Collected rest nsi d dlen =>
        (dlen = 4%nat /\ d = firstn 4 (dbuf ++ symbols src)
         /\ (4 <= List.length (dbuf ++ symbols src))%nat
         /\ no_invalid rest = true
         /\ symbols rest = skipn 4 (dbuf ++ symbols src)
         /\ (String.length rest <= String.length src)%nat
         /\ ((j < 4)%nat -> (String.length rest < String.length src)%nat))
        \/ (rest = "" /\ d = dbuf ++ symbols src /\ dlen = List.length d
            /\ (2 <= dlen < 4)%nat)
    | Finished _ => dbuf ++ symbols src = []
    | Corrupt _ _ => List.length (dbuf ++ symbols src) = 1%nat
    end.
Proof.
  induction src as [|c src IH]; intros Hvalid si j dbuf Hlen Hj.
  - cbn [symbols]. rewrite app_nil_r.
    destruct dbuf as [|v0 [|v1 [|v2 [|v3 [|v4 dbuf]]]]]; cbn in Hlen; subst j;
      cbn [collect Nat.eqb]; try reflexivity; try (cbn in Hj; lia).
    + right. repeat split; cbn; lia.
    + right. repeat split; cbn; lia.
    + left. cbn. repeat split; lia.
  - apply no_invalid_cons in Hvalid as [Hc Hvalid].
    destruct (Nat.eq_dec j 4) as [->|Hj4].
    + destruct dbuf as [|v0 [|v1 [|v2 [|v3 [|v4 dbuf]]]]]; try discriminate Hlen.
      cbn [collect Nat.eqb]. left.
      cbn [app firstn skipn List.length]. unfold no_invalid in *.
      repeat split; try lia.
      cbn [every]. rewrite Hvalid.
      destruct Hc as [Hc|[Hc Hnl]]; unfold invalid.
      * destruct (Z.eqb_spec (decodeMap c) 255); [contradiction|reflexivity].
      * rewrite Hnl. rewrite andb_false_r. reflexivity.
    + assert (Hlt : (j < 4)%nat) by lia.
      destruct Hc as [Hc|[Hc Hnl]].
      * rewrite collect_symbol by assumption.
        cbn [symbols]. destruct (Z.eqb_spec (decodeMap c) 255); [contradiction|].
        specialize (IH Hvalid (si + 1) (S j) (dbuf ++ [decodeMap c])).
        rewrite <- app_assoc in IH. cbn [app] in IH.
        rewrite length_app in IH. cbn [List.length] in IH.
        specialize (IH ltac:(lia) ltac:(lia)).
        destruct (collect src (si + 1) (S j) (dbuf ++ [decodeMap c]))
          as [rest nsi d dlen| |]; try assumption.
        destruct IH as [(H1 & H2 & H3 & H4 & H5 & H6 & H7)|H]; [left|right; assumption].
        cbn [String.length]. repeat split; try assumption; lia.
      * rewrite collect_newline by assumption.
        cbn [symbols]. rewrite Hc. cbn [Z.eqb Pos.eqb].
        specialize (IH Hvalid (si + 1) j dbuf Hlen Hj).
        destruct (collect src (si + 1) j dbuf)
          as [rest nsi d dlen| |]; try assumption.
        destruct IH as [(H1 & H2 & H3 & H4 & H5 & H6 & H7)|H]; [left|right; assumption].
        cbn [String.length]. repeat split; try assumption; lia.
Qed.

Lemma mod4_group (n : nat) : (S (S (S (S n))) mod 4 = n mod 4)%nat.
Proof.
  replace (S (S (S (S n)))) with (n + 1 * 4)%nat by lia.
  apply Nat.Div0.mod_add.
Qed.

Lemma Decode_loop_nil (fuel : nat) (si : Z) (dst : list byte) :
  Decode_loop fuel "" si dst = (dst, None).
Proof. destruct fuel; reflexivity. Qed.

(** The decoder on input without invalid bytes: the bytes are those of
    the six-bit values of the alphabet characters, and there is an error
    exactly when one such character is left over after groups of four. *)
Lemma Decode_loop_symbols (fuel : nat) :
  forall (src : string) (si : Z) (dst : list byte),
    no_invalid src = true -> (String.length src <= fuel)%nat ->
    exists err,
      Decode_loop fuel src si dst
      = (dst ++ decode_symbols (symbols src), err)
      /\ (err = None <-> (List.length (symbols src) mod 4 <> 1)%nat).
Proof.
  induction fuel as [|fuel IH]; intros src si dst Hvalid Hfuel.
  - destruct src; [|cbn in Hfuel; lia].
    exists None. cbn. rewrite app_nil_r. split; [reflexivity|].
    split; [discriminate | reflexivity].
  - destruct src as [|c src].
    { exists None. cbn. rewrite app_nil_r. split; [reflexivity|].
      split; [discriminate | reflexivity]. }
    cbn [Decode_loop].
    pose proof (collect_symbols (String c src) Hvalid si 0 [] eq_refl
                  ltac:(lia)) as Hcol.
    cbn [app] in Hcol.
    destruct (collect (String c src) si 0 []) as [rest nsi d dlen|nsi|nsi off]
      eqn:Ecol.
    + rewrite (decodeQuantum_collected _ _ _ _ _ _ Ecol).
      destruct Hcol as [(-> & Hd & Hlen & Hrest & Hsym & Hle & Hlt)
                       |(-> & Hd & Hdlen & Hrange)].
      * destruct (symbols (String c src)) as [|v0 [|v1 [|v2 [|v3 tl]]]] eqn:Es;
          try (cbn in Hlen; lia).
        cbn [firstn skipn] in Hd, Hsym. subst d.
        destruct (IH rest nsi (dst ++ quantum [v0; v1; v2; v3] 4) Hrest
                    ltac:(specialize (Hlt ltac:(lia)); lia))
          as (err & Herr & Hiff).
        exists err. rewrite Herr, Hsym. cbn [decode_symbols].
        rewrite <- app_assoc. split; [reflexivity|].
        cbn [List.length]. rewrite mod4_group. rewrite Hsym in Hiff.
        assumption.
      * subst d. rewrite Decode_loop_nil. exists None.
        destruct (symbols (String c src)) as [|v0 [|v1 [|v2 [|v3 tl]]]] eqn:Es;
          cbn in Hrange, Hdlen; try lia; subst dlen.
        -- split; [reflexivity|]. split; [discriminate | reflexivity].
        -- split; [reflexivity|]. split; [discriminate | reflexivity].
    + unfold decodeQuantum. rewrite Ecol. rewrite Decode_loop_nil.
      rewrite Hcol. exists None. cbn. rewrite !app_nil_r.
      split; [reflexivity|]. split; [discriminate | reflexivity].
    + unfold decodeQuantum. rewrite Ecol.
      destruct (symbols (String c src)) as [|v0 [|v1 tl]] eqn:Es;
        try discriminate Hcol.
      exists (Some (CorruptInputError off)). cbn. rewrite app_nil_r.
      split; [reflexivity|]. split; [discriminate | intros H; contradiction H; reflexivity].
Qed.

End base64_any.

Module base64_invalid.
Import base64 base64_facts base64_tail base64_any.

Lemma invalid_inv (c : ascii) :
  invalid c = true -> decodeMap c = 255 /\ newline c = false.
Proof.
  unfold invalid. rewrite andb_true_iff, negb_true_iff, Z.eqb_eq. tauto.
Qed.

(** The collecting loop in front of an invalid byte: it either reaches
    the byte, or it returns four values and what is left still holds the
    byte. *)
Lemma collect_invalid (pre : string) :
  no_invalid pre = true ->
  forall (c : ascii) (post : string) (si : Z) (j : nat) (dbuf : list Z),
    invalid c = true -> (j <= 4)%nat ->
    match collect (String.append pre (String c post)) si j dbuf with
    | Corrupt _ off => off = si + Z.of_nat (String.length pre)
    | Collected rest nsi _ dlen =>
        exists pre1 pre2,
          pre = String.append pre1 pre2
          /\ rest = String.append pre2 (String c post)
          /\ nsi = si + Z.of_nat (String.length pre1)
          /\ no_invalid pre2 = true
          /\ ((j < 4)%nat -> pre1 <> "")
    | Finished _ => False
    end.
Proof.
  induction pre as [|x pre IH]; intros Hvalid c post si j dbuf Hc Hj.
  - cbn [String.append String.length].
    destruct (Nat.eq_dec j 4) as [->|Hj4].
    + cbn [collect Nat.eqb]. exists "", "". cbn. repeat split; try lia.
    + destruct (invalid_inv c Hc) as [Hmap Hnl].
      rewrite collect_corrupt by (assumption || lia). cbn. lia.
  - apply no_invalid_cons in Hvalid as [Hx Hvalid].
    cbn [String.append].
    destruct (Nat.eq_dec j 4) as [->|Hj4].
    + cbn [collect Nat.eqb]. exists "", (String x pre). cbn [String.append String.length].
      repeat split; try lia.
      unfold no_invalid in *. cbn [every]. rewrite Hvalid.
      destruct Hx as [Hx|[Hx Hnl]]; unfold invalid.
      * destruct (Z.eqb_spec (decodeMap x) 255); [contradiction|reflexivity].
      * rewrite Hnl. rewrite andb_false_r. reflexivity.
    + destruct Hx as [Hx|[Hx Hnl]].
      * rewrite collect_symbol by (assumption || lia).
        specialize (IH Hvalid c post (si + 1) (S j) (dbuf ++ [decodeMap x]) Hc
                      ltac:(lia)).
        destruct (collect _ (si + 1) (S j) _) as [rest nsi d dlen| |];
          try assumption.
        -- destruct IH as (p1 & p2 & -> & -> & -> & Hp2 & _).
           exists (String x p1), p2. cbn [String.append String.length].
           repeat split; try assumption; try lia. discriminate.
        -- cbn [String.length]. lia.
      * rewrite collect_newline by (assumption || lia).
        specialize (IH Hvalid c post (si + 1) j dbuf Hc Hj).
        destruct (collect _ (si + 1) j _) as [rest nsi d dlen| |];
          try assumption.
        -- destruct IH as (p1 & p2 & -> & -> & -> & Hp2 & _).
           exists (String x p1), p2. cbn [String.append String.length].
           repeat split; try assumption; try lia. discriminate.
        -- cbn [String.length]. lia.
Qed.

(** The first invalid byte stops the decoder, with its index. *)
Lemma Decode_loop_invalid (fuel : nat) :
  forall (pre : string) (c : ascii) (post : string) (si : Z) (dst : list byte),
    no_invalid pre = true -> invalid c = true ->
    (String.length (String.append pre (String c post)) <= fuel)%nat ->
    snd (Decode_loop fuel (String.append pre (String c post)) si dst)
    = Some (CorruptInputError (si + Z.of_nat (String.length pre))).
Proof.
  induction fuel as [|fuel IH]; intros pre c post si dst Hvalid Hc Hfuel.
  - rewrite length_append in Hfuel. cbn in Hfuel. lia.
  - pose proof (collect_invalid pre Hvalid c post si 0 [] Hc ltac:(lia))
      as Hcol.
    destruct (String.append pre (String c post)) as [|y src] eqn:Esrc.
    { destruct pre; discriminate Esrc. }
    cbn [Decode_loop]. unfold decodeQuantum.
    destruct (collect (String y src) si 0 []) as [rest nsi d dlen|nsi|nsi off].
    + destruct Hcol as (p1 & p2 & -> & -> & -> & Hp2 & Hne).
      specialize (Hne ltac:(lia)).
      rewrite IH; try assumption.
      * rewrite length_append, Nat2Z.inj_add. do 2 f_equal. lia.
      * rewrite scan_facts.append_assoc in Esrc.
        assert (Hlen : String.length (String y src)
                       = (String.length p1
                          + String.length (String.append p2 (String c post)))%nat).
        { rewrite <- Esrc, length_append. reflexivity. }
        destruct p1; [contradiction|]. cbn [String.length] in *. lia.
    + contradiction.
    + subst off. reflexivity.
Qed.

End base64_invalid.

(** ** The decoder of the package *)

(** X5.  A byte that is neither in the alphabet nor a line break makes
    decoding fail, with the index of the first such byte in the error;
    in particular padding is not accepted. *)
Theorem X5_invalid_byte_rejected (pre : string) (c : ascii) (post : string) :
  no_invalid pre = true -> invalid c = true ->
  snd (DecodeBase64String (String.append pre (String c post)))
  = Some (CorruptInputError (Z.of_nat (String.length pre))).
Proof.
  intros Hpre Hc. unfold DecodeBase64String, base64.DecodeString.
  rewrite base64_invalid.Decode_loop_invalid by (assumption || lia).
  reflexivity.
Qed.

Lemma X5_witness :
  snd (DecodeBase64String "c2FsdA==") = Some (CorruptInputError 6).
Proof.
  apply (X5_invalid_byte_rejected "c2FsdA" "=" "="); reflexivity.
Defined.

(** X6.  On input without such a byte decoding succeeds exactly when the
    number of alphabet characters is not one more than a multiple of
    four, and every four characters give three bytes: [k] characters give
    [3 k / 4] bytes. *)
Theorem X6_decoder_accepts (s : string) :
  no_invalid s = true ->
  (snd (DecodeBase64String s) = None
   <-> (List.length (symbols s) mod 4 <> 1)%nat)
  /\ List.length (fst (DecodeBase64String s))
     = (3 * List.length (symbols s) / 4)%nat.
Proof.
  intros Hs. unfold DecodeBase64String, base64.DecodeString.
  destruct (base64_any.Decode_loop_symbols (String.length s) s 0 [] Hs
              ltac:(lia)) as (err & -> & Hiff).
  cbn [fst snd app]. split; [assumption|].
  apply base64_any.decode_symbols_length.
Qed.

Lemma X6_witness :
  (snd (DecodeBase64String "c2FsdA") = None
   <-> (List.length (symbols "c2FsdA") mod 4 <> 1)%nat)
  /\ List.length (fst (DecodeBase64String "c2FsdA"))
     = (3 * List.length (symbols "c2FsdA") / 4)%nat.
Proof.
  apply (X6_decoder_accepts "c2FsdA"). reflexivity.
Defined.

(** X7.  Line breaks are ignored wherever they stand: two inputs without
    invalid bytes that have the same alphabet characters in the same
    order decode to the same bytes, and one is accepted exactly when the
    other is. *)
Theorem X7_line_breaks_ignored (s s' : string) :
  no_invalid s = true -> no_invalid s' = true ->
  symbols s = symbols s' ->
  fst (DecodeBase64String s) = fst (DecodeBase64String s')
  /\ (snd (DecodeBase64String s) = None
      <-> snd (DecodeBase64String s') = None).
Proof.
  intros Hs Hs' Hsym. unfold DecodeBase64String, base64.DecodeString.
  destruct (base64_any.Decode_loop_symbols (String.length s) s 0 [] Hs
              ltac:(lia)) as (err & -> & Hiff).
  destruct (base64_any.Decode_loop_symbols (String.length s') s' 0 [] Hs'
              ltac:(lia)) as (err' & -> & Hiff').
  cbn [fst snd]. rewrite Hsym in *. split; [reflexivity | tauto].
Qed.

Lemma X7_witness :
  fst (DecodeBase64String (String "c" (String "2" (String "010" "FsdA"))))
  = fst (DecodeBase64String "c2FsdA").
Proof.
  apply (X7_line_breaks_ignored
           (String "c" (String "2" (String "010" "FsdA"))) "c2FsdA");
    reflexivity.
Defined.

(** ** Hashing and verifying *)

(** A successful [HashPassword] has seen a non-empty password and salt
    and a primitive that returned; its result is the six segments. *)
Lemma HashPassword_Ok_inv (IDKey : primitive) (password salt : string)
      (options : Options) (key : string) :
  HashPassword IDKey password salt options = Ok key ->
  password <> "" /\ salt <> ""
  /\ exists hash,
      IDKey (bytes_of_string password) (bytes_of_string salt)
            (Time options) (Memory options) (Threads options) (KeyLen options)
      = Some hash
      /\ key = join (segments salt options hash).
Proof.
  intros H.
  assert (Hp : password <> "").
  { intros ->. discriminate H. }
  assert (Hs : salt <> "").
  { intros ->. unfold HashPassword in H.
    rewrite (eqb_empty_false _ Hp) in H. discriminate H. }
  split; [assumption|]. split; [assumption|].
  destruct (IDKey (bytes_of_string password) (bytes_of_string salt)
                  (Time options) (Memory options) (Threads options)
                  (KeyLen options)) as [hash|] eqn:Hk.
  - exists hash. split; [reflexivity|].
    rewrite (HashPassword_join IDKey password salt options hash Hp Hs Hk) in H.
    congruence.
  - unfold HashPassword in H.
    rewrite (eqb_empty_false _ Hp), (eqb_empty_false _ Hs), Hk in H.
    discriminate H.
Qed.

Lemma bytes_of_string_inj (s s' : string) :
  bytes_of_string s = bytes_of_string s' -> s = s'.
Proof.
  unfold bytes_of_string. intros H.
  rewrite <- (string_of_list_byte_of_string s),
          <- (string_of_list_byte_of_string s'), H.
  reflexivity.
Qed.

(** X8.  The credential string determines what it was made of: two
    successful calls of [HashPassword] that return the same string have
    used the same salt, memory, time and threads and have derived the
    same hash. *)
Theorem X8_credential_string_determines_its_fields
      (IDKey IDKey' : primitive) (password password' salt salt' : string)
      (options options' : Options) (key : string) :
  Options_ok options -> Options_ok options' ->
  HashPassword IDKey password salt options = Ok key ->
  HashPassword IDKey' password' salt' options' = Ok key ->
  salt = salt'
  /\ Memory options = Memory options'
  /\ Time options = Time options'
  /\ Threads options = Threads options'
  /\ IDKey (bytes_of_string password) (bytes_of_string salt)
           (Time options) (Memory options) (Threads options) (KeyLen options)
     = IDKey' (bytes_of_string password') (bytes_of_string salt')
              (Time options') (Memory options') (Threads options')
              (KeyLen options').
Proof.
  intros Hok Hok' H H'.
  apply HashPassword_Ok_inv in H as (_ & _ & hash & Hk & ->).
  apply HashPassword_Ok_inv in H' as (_ & _ & hash' & Hk' & Hjoin).
  assert (Hseg : segments salt options hash = segments salt' options' hash').
  { rewrite <- (Split_join (segments salt options hash)),
            <- (Split_join (segments salt' options' hash')), Hjoin;
      try reflexivity; try discriminate;
      apply segments_no_separator; assumption. }
  unfold segments in Hseg. injection Hseg as Hparams Hsalt Hhash.
  assert (Hvals : [Memory options; Time options; Threads options]
                  = [Memory options'; Time options'; Threads options']).
  { destruct Hok as (Ht & Hm & Hth & _). destruct Hok' as (Ht' & Hm' & Hth' & _).
    pose proof (scanf_facts.Sscanf_params _ _ _ Hm Ht Hth) as E.
    pose proof (scanf_facts.Sscanf_params _ _ _ Hm' Ht' Hth') as E'.
    cbn [String.append] in E, E'. rewrite Hparams in E. congruence. }
  injection Hvals as Hm Ht Hth.
  assert (Esalt : bytes_of_string salt = bytes_of_string salt').
  { pose proof (roundtrip (bytes_of_string salt)) as R.
    rewrite Hsalt, roundtrip in R. congruence. }
  assert (Ehash : hash = hash').
  { pose proof (roundtrip hash) as R. rewrite Hhash, roundtrip in R.
    congruence. }
  repeat split; try assumption.
  - apply bytes_of_string_inj. assumption.
  - rewrite Hk, Hk', Ehash. reflexivity.
Qed.

Lemma X8_witness :
  "salt" = "salt" /\ Memory DefaultOptions = Memory DefaultOptions.
Proof.
  assert (Hok : Options_ok DefaultOptions) by (unfold Options_ok; cbn; lia).
  destruct (X8_credential_string_determines_its_fields
              sampleIDKey sampleIDKey "password" "password" "salt" "salt"
              DefaultOptions DefaultOptions testVectorKey Hok Hok
              eq_refl eq_refl) as (H1 & H2 & _).
  split; assumption.
Defined.

(** X9.  Any password against the string that hashing has produced: the
    primitive is called with the salt, the parameters and the key length
    of the hashing, and verification succeeds exactly when it returns the
    stored hash; when it returns another key the error is
    [ErrHashNotEqualPassword]. *)
Theorem X9_verify_other_password
      (IDKey : primitive) (password salt : string) (options : Options)
      (hash : list byte) (key attempt : string) :
  Options_ok options ->
  HashPassword IDKey password salt options = Ok key ->
  IDKey (bytes_of_string password) (bytes_of_string salt)
        (Time options) (Memory options) (Threads options) (KeyLen options)
  = Some hash ->
  len hash = KeyLen options ->
  attempt <> "" ->
  let derived := IDKey (bytes_of_string attempt) (bytes_of_string salt)
                       (Time options) (Memory options) (Threads options)
                       (KeyLen options) in
  (VerifyPassword IDKey attempt key = Ok tt <-> derived = Some hash)
  /\ (forall control, derived = Some control -> control <> hash ->
      VerifyPassword IDKey attempt key = Err ErrHashNotEqualPassword)
  /\ (derived = None -> VerifyPassword IDKey attempt key = Panic).
Proof.
  intros Hok H Hk Hlen Ha derived.
  apply HashPassword_Ok_inv in H as (_ & _ & hash0 & Hk0 & ->).
  assert (hash0 = hash) by congruence. subst hash0.
  pose proof (segments_no_separator salt options hash Hok) as Hall.
  assert (Hsplit : strings.Split (join (segments salt options hash)) "$"
                   = segments salt options hash).
  { apply Split_join; [discriminate | assumption]. }
  assert (Hv : VerifyPassword IDKey attempt (join (segments salt options hash))
               = match derived with
                 | None => Panic
                 | Some control =>
                     if subtle.ConstantTimeCompare hash control =? 1
                     then Ok tt else Err ErrHashNotEqualPassword
                 end).
  { unfold segments in Hsplit |- *.
    rewrite (VerifyPassword_parsed IDKey attempt _ _ _ _ _ _ _
               [argon2.Version]
               [Memory options; Time options; Threads options]
               (bytes_of_string salt) hash Ha Hsplit).
    - cbn [nth]. rewrite Hlen, uint32_small by (unfold Options_ok in Hok; tauto).
      reflexivity.
    - vm_compute. reflexivity.
    - reflexivity.
    - destruct Hok as (Ht & Hm & Hth & _).
      apply scanf_facts.Sscanf_params; assumption.
    - apply roundtrip.
    - apply roundtrip. }
  rewrite Hv. clear Hv.
  split; [|split].
  - destruct derived as [control|]; [|split; discriminate].
    destruct (Z.eqb_spec (subtle.ConstantTimeCompare hash control) 1) as [E|N].
    + apply subtle_facts.ConstantTimeCompare_eq in E. subst. tauto.
    + split; [discriminate|]. intros [= ->]. exfalso. apply N.
      apply subtle_facts.ConstantTimeCompare_eq. reflexivity.
  - intros control -> Hne.
    destruct (Z.eqb_spec (subtle.ConstantTimeCompare hash control) 1) as [E|N];
      [|reflexivity].
    apply subtle_facts.ConstantTimeCompare_eq in E. congruence.
  - intros ->. reflexivity.
Qed.

Lemma X9_witness :
  VerifyPassword sampleIDKey "password1" testVectorKey
  = Err ErrHashNotEqualPassword.
Proof.
  assert (Hok : Options_ok DefaultOptions) by (unfold Options_ok; cbn; lia).
  pose proof (X9_verify_other_password sampleIDKey "password" "salt"
                DefaultOptions testVectorHash testVectorKey "password1"
                Hok eq_refl eq_refl eq_refl ltac:(discriminate)) as H.
  cbv zeta in H. destruct H as (_ & H & _).
  apply (H (firstn 32 (bytes_of_string "password1" ++ bytes_of_string "salt"
                       ++ repeat x00 32)));
    [reflexivity | discriminate].
Defined.

(** ** Parameters that do not fit their type *)

Module scanf_overflow.
Import fmt scan_facts scanf_facts.

(** A number in decimal digits that does not fit [bitSize] bits. *)
Lemma scanUint_overflow (d : string) (rest : list Z) (cnt u bitSize : Z) :
  d <> "" -> every is_digit d = true -> stops rest ->
  cnt + Z.of_nat (String.length d) <= hugeWid ->
  strconv.ParseUint d = (u, None) -> 2 ^ bitSize <= u ->
  scanUint (mkss (codes d ++ rest) cnt) bitSize = inr ScanOverflow.
Proof.
  intros Hne Hd Hrest Hcnt Hparse Hu.
  destruct d as [|c d]; [contradiction|].
  pose proof Hd as Hd'. cbn in Hd'. apply andb_true_iff in Hd' as [Hc Hd'].
  cbn [String.length] in Hcnt.
  unfold scanUint. cbn [codes app].
  rewrite SkipSpace_digit by assumption.
  unfold notEOF, scanNumber, notEOF, accept.
  rewrite getRune_cons by lia.
  rewrite indexRune_digit by assumption.
  cbn [input count]. rewrite writeRune_code. cbn [String.append].
  rewrite accept_loop_digits by (assumption || lia).
  cbn [String.append]. rewrite Hparse.
  destruct (Z.ltb_spec u (2 ^ bitSize)); [lia | reflexivity].
Qed.

(** One iteration of [doScanf] over the verb [%d], when the scan fails. *)
Lemma doScanf_verb_d_error (fuel : nat) (frest : string) (s s1 : ss)
      (arg : operand) (a : list operand) (vals : list Z) (e : scan_error) :
  SkipSpace s = inl s1 -> scanOne s1 arg = inr e ->
  doScanf (S fuel) (String "%" (String "d" frest)) s (arg :: a) vals
  = (vals, Some e).
Proof.
  intros Hsk Hscan. cbn [doScanf]. rewrite advance_verb by reflexivity.
  cbn. rewrite Hsk, Hscan. reflexivity.
Qed.

(** The first field that does not fit its type ends the scan. *)
Lemma Sscanf_params_overflow (m t p : Z) :
  0 <= m < 2 ^ 64 -> 0 <= t < 2 ^ 64 -> 0 <= p < 2 ^ 64 ->
  2 ^ 32 <= m \/ 2 ^ 32 <= t \/ 2 ^ 8 <= p ->
  snd (Sscanf (params_segment m t p) "m=%d,t=%d,p=%d"
              [PtrUint32; PtrUint32; PtrUint8])
  = Some ScanOverflow.
Proof.
  intros Hm Ht Hp Hover. unfold Sscanf, params_segment.
  pose proof (fmt_facts.fmtInteger_digits m ltac:(lia)) as Dm.
  pose proof (fmt_facts.fmtInteger_digits t ltac:(lia)) as Dt.
  pose proof (fmt_facts.fmtInteger_digits p ltac:(lia)) as Dp.
  pose proof (fmt_facts.fmtInteger_length m ltac:(lia)) as Lm.
  pose proof (fmt_facts.fmtInteger_length t ltac:(lia)) as Lt.
  pose proof (fmt_facts.fmtInteger_length p ltac:(lia)) as Lp.
  pose proof (fmt_facts.ParseUint_fmtInteger m ltac:(lia)) as Pm.
  pose proof (fmt_facts.ParseUint_fmtInteger t ltac:(lia)) as Pt.
  pose proof (fmt_facts.ParseUint_fmtInteger p ltac:(lia)) as Pp.
  set (dm := fmtInteger m) in *. set (dt := fmtInteger t) in *.
  set (dp := fmtInteger p) in *.
  assert (Hhuge : hugeWid = 1073741824) by reflexivity.
  assert (Nm : dm <> "") by (intros E; rewrite E in Lm; cbn in Lm; lia).
  assert (Nt : dt <> "") by (intros E; rewrite E in Lt; cbn in Lt; lia).
  assert (Np : dp <> "") by (intros E; rewrite E in Lp; cbn in Lp; lia).
  rewrite utf8_facts.runes_ascii.
  2:{ cbn [String.append every].
      repeat (rewrite every_append; cbn [every]).
      rewrite (every_impl _ _ dm is_digit_ascii Dm),
              (every_impl _ _ dt is_digit_ascii Dt),
              (every_impl _ _ dp is_digit_ascii Dp). reflexivity. }
  rewrite !codes_append.
  change (codes "m=") with [ascii_to_Z "m"; ascii_to_Z "="].
  change (codes ",t=") with [ascii_to_Z ","; ascii_to_Z "t"; ascii_to_Z "="].
  change (codes ",p=") with [ascii_to_Z ","; ascii_to_Z "p"; ascii_to_Z "="].
  change (String.length "m=%d,t=%d,p=%d") with 14%nat.
  cbn [app].
  erewrite doScanf_literals;
    [| rewrite !advance_literal by (reflexivity || lia);
       apply advance_verb; reflexivity | lia].
  destruct (Z.le_gt_cases (2 ^ 32) m) as [Om|Im].
  { erewrite doScanf_verb_d_error;
      [reflexivity
      | apply SkipSpace_codes; assumption
      | apply scanUint_overflow with (u := m) (bitSize := 32);
        [assumption | assumption | apply stops_code; reflexivity
        | lia | assumption | lia] ]. }
  erewrite doScanf_verb_d;
    [| apply SkipSpace_codes; assumption
     | apply scanUint_digits with (u := m) (bitSize := 32);
       [assumption | assumption | apply stops_code; reflexivity
       | lia | assumption | lia] ].
  erewrite doScanf_literals;
    [| rewrite !advance_literal by (reflexivity || lia);
       apply advance_verb; reflexivity | lia].
  destruct (Z.le_gt_cases (2 ^ 32) t) as [Ot|It].
  { erewrite doScanf_verb_d_error;
      [reflexivity
      | apply SkipSpace_codes; assumption
      | apply scanUint_overflow with (u := t) (bitSize := 32);
        [assumption | assumption | apply stops_code; reflexivity
        | lia | assumption | lia] ]. }
  erewrite doScanf_verb_d;
    [| apply SkipSpace_codes; assumption
     | apply scanUint_digits with (u := t) (bitSize := 32);
       [assumption | assumption | apply stops_code; reflexivity
       | lia | assumption | lia] ].
  erewrite doScanf_literals;
    [| rewrite !advance_literal by (reflexivity || lia);
       apply advance_verb; reflexivity | lia].
  rewrite <- (app_nil_r (codes dp)).
  erewrite doScanf_verb_d_error;
    [reflexivity
    | apply SkipSpace_codes; assumption
    | apply scanUint_overflow with (u := p) (bitSize := 8);
      [assumption | assumption | exact I | lia | assumption | lia] ].
Qed.

End scanf_overflow.

Lemma params_segment_no_separator (m t p : Z) :
  0 <= m -> 0 <= t -> 0 <= p ->
  strings.Count (params_segment m t p) "$" = O.
Proof.
  intros Hm Ht Hp. unfold params_segment.
  repeat first [rewrite strings_facts.Count_append
               | rewrite Count_digits by (apply fmt_facts.fmtInteger_digits; lia)
               | progress cbn [String.append strings.Count Ascii.eqb
                                 Bool.eqb Nat.add]].
  reflexivity.
Qed.

(** X10.  A credential string whose memory or time does not fit 32 bits,
    or whose threads do not fit 8 bits, is rejected with the scanner's
    overflow error: the value is not truncated, and neither the byte
    fields nor the primitive are reached. *)
Theorem X10_parameters_out_of_range
      (IDKey : primitive) (password s0 s1 s4 s5 : string) (m t p : Z) :
  password <> "" ->
  strings.Count s0 "$" = O -> strings.Count s1 "$" = O ->
  strings.Count s4 "$" = O -> strings.Count s5 "$" = O ->
  0 <= m < 2 ^ 64 -> 0 <= t < 2 ^ 64 -> 0 <= p < 2 ^ 64 ->
  2 ^ 32 <= m \/ 2 ^ 32 <= t \/ 2 ^ 8 <= p ->
  VerifyPassword IDKey password
    (join [s0; s1; "v=19"; params_segment m t p; s4; s5])
  = Err (ScanError ScanOverflow).
Proof.
  intros Hp H0 H1 H4 H5 Hm Ht Hpp Hover.
  pose proof (scanf_overflow.Sscanf_params_overflow m t p Hm Ht Hpp Hover)
    as Hscan.
  unfold VerifyPassword. rewrite (eqb_empty_false _ Hp).
  rewrite Split_join.
  2: discriminate.
  2:{ repeat apply Forall_cons; try apply Forall_nil; try assumption;
        try reflexivity.
      apply params_segment_no_separator; lia. }
  replace (String.eqb _ "") with false.
  2:{ symmetry. apply String.eqb_neq. cbn [join]. destruct s0; discriminate. }
  cbn [nth]. replace (negb (len _ =? 6)) with false by reflexivity.
  replace (fmt.Sscanf "v=19" "v=%d" _) with ([argon2.Version], @None scan_error)
    by (vm_compute; reflexivity).
  cbn [nth]. rewrite Z.eqb_refl. cbn [negb].
  destruct (fmt.Sscanf (params_segment m t p) _ _) as [ps err].
  cbn [snd] in Hscan. subst err. reflexivity.
Qed.

Lemma X10_witness :
  VerifyPassword neverIDKey "password"
    "$argon2id$v=19$m=65536,t=1,p=256$c2FsdA$OWwmnKFemKE2ILjM60j1so1oRXDFJYqvOiYlZTByvuU"
  = Err (ScanError ScanOverflow).
Proof.
  apply (X10_parameters_out_of_range neverIDKey "password" "" "argon2id"
           "c2FsdA" "OWwmnKFemKE2ILjM60j1so1oRXDFJYqvOiYlZTByvuU" 65536 1 256);
    try reflexivity; try discriminate; lia.
Defined.

(** ** Line breaks inside the byte fields *)

Lemma DecodeBase64String_symbols (s : string) :
  no_invalid s = true -> (List.length (symbols s) mod 4 <> 1)%nat ->
  DecodeBase64String s = (decode_symbols (symbols s), None).
Proof.
  intros Hs Hmod. unfold DecodeBase64String, base64.DecodeString.
  destruct (base64_any.Decode_loop_symbols (String.length s) s 0 [] Hs
              ltac:(lia)) as (err & -> & Hiff).
  apply Hiff in Hmod. subst err. reflexivity.
Qed.

Lemma no_invalid_no_separator (s : string) :
  no_invalid s = true -> strings.Count s "$" = O.
Proof.
  apply Count_every. intros c Hc.
  apply Ascii.eqb_neq. intros ->. discriminate Hc.
Qed.

(** X11.  Verification does not see line breaks inside the salt and hash
    segments: two credential strings whose salt and hash segments are
    decodable and differ only in line breaks are verified alike. *)
Theorem X11_verify_ignores_line_breaks
      (IDKey : primitive) (password s0 s1 s2 s3 s4 s5 s4' s5' : string) :
  strings.Count s0 "$" = O -> strings.Count s1 "$" = O ->
  strings.Count s2 "$" = O -> strings.Count s3 "$" = O ->
  no_invalid s4 = true -> no_invalid s4' = true ->
  no_invalid s5 = true -> no_invalid s5' = true ->
  symbols s4 = symbols s4' -> symbols s5 = symbols s5' ->
  (List.length (symbols s4) mod 4 <> 1)%nat ->
  (List.length (symbols s5) mod 4 <> 1)%nat ->
  VerifyPassword IDKey password (join [s0; s1; s2; s3; s4; s5])
  = VerifyPassword IDKey password (join [s0; s1; s2; s3; s4'; s5']).
Proof.
  intros H0 H1 H2 H3 V4 V4' V5 V5' E4 E5 M4 M5.
  unfold VerifyPassword.
  rewrite !Split_join;
    try discriminate;
    try (repeat apply Forall_cons; try apply Forall_nil;
         assumption || (apply no_invalid_no_separator; assumption)).
  replace (String.eqb (join [s0; s1; s2; s3; s4; s5]) "") with false
    by (symmetry; apply String.eqb_neq; cbn [join]; destruct s0; discriminate).
  replace (String.eqb (join [s0; s1; s2; s3; s4'; s5']) "") with false
    by (symmetry; apply String.eqb_neq; cbn [join]; destruct s0; discriminate).
  cbn [nth len List.length].
  rewrite (DecodeBase64String_symbols s4), (DecodeBase64String_symbols s5),
          (DecodeBase64String_symbols s4'), (DecodeBase64String_symbols s5');
    try assumption; try (rewrite <- ?E4, <- ?E5; assumption).
  rewrite E4, E5. reflexivity.
Qed.

Lemma X11_witness :
  VerifyPassword sampleIDKey "password"
    (join [""; "argon2id"; "v=19"; "m=65536,t=1,p=4";
           String "c" (String "2" (String "010" "FsdA"));
           "OWwmnKFemKE2ILjM60j1so1oRXDFJYqvOiYlZTByvuU"])
  = VerifyPassword sampleIDKey "password" testVectorKey.
Proof.
  apply (X11_verify_ignores_line_breaks sampleIDKey "password"
           "" "argon2id" "v=19" "m=65536,t=1,p=4"
           (String "c" (String "2" (String "010" "FsdA")))
           "OWwmnKFemKE2ILjM60j1so1oRXDFJYqvOiYlZTByvuU"
           "c2FsdA" "OWwmnKFemKE2ILjM60j1so1oRXDFJYqvOiYlZTByvuU");
    try reflexivity; vm_compute; discriminate.
Defined.

(** ** The causes of the errors *)

(** The decoder has one kind of error. *)
Lemma Decode_loop_error (fuel : nat) :
  forall (src : string) (si : Z) (dst : list byte) (e : error),
    snd (base64.Decode_loop fuel src si dst) = Some e ->
    exists n, e = CorruptInputError n.
Proof.
  induction fuel as [|fuel IH]; intros src si dst e H; [discriminate H|].
  destruct src as [|c src]; [discriminate H|].
  cbn [base64.Decode_loop] in H. unfold base64.decodeQuantum in H.
  destruct (base64.collect (String c src) si 0 []) as [rest nsi d dlen|nsi|nsi off].
  - apply IH in H. assumption.
  - rewrite base64_any.Decode_loop_nil in H. discriminate H.
  - cbn in H. injection H as <-. eauto.
Qed.

Lemma DecodeBase64String_error (s : string) (out : list byte) (e : error) :
  DecodeBase64String s = (out, Some e) -> exists n, e = CorruptInputError n.
Proof.
  intros H. apply (Decode_loop_error (String.length s) s 0 []).
  unfold DecodeBase64String, base64.DecodeString in H. rewrite H. reflexivity.
Qed.

Lemma six_segments (key : string) :
  (len (strings.Split key "$") =? 6) = true <-> strings.Count key "$" = 5%nat.
Proof.
  unfold len. rewrite strings_facts.Split_length, Z.eqb_eq. lia.
Qed.

Ltac leaf :=
  repeat split; intros;
  repeat match goal with
         | H : _ /\ _ |- _ => destruct H
         | H : exists _, _ |- _ => destruct H
         end;
  try reflexivity; try discriminate; try contradiction; try congruence;
  try tauto.

(** X12.  Each of the sentinel errors that [VerifyPassword] returns
    before the byte fields are decoded has exactly one cause: an empty
    password; a non-empty password with an empty key; a key with other
    than five separators; a version that is read and is not the current
    one.  [ErrSaltRequired] is never returned. *)
Theorem X12_causes_of_the_errors
      (IDKey : primitive) (password key : string) :
  (VerifyPassword IDKey password key = Err ErrPasswordRequired
   <-> password = "")
  /\ (VerifyPassword IDKey password key = Err ErrArgon2KeyRequired
      <-> password <> "" /\ key = "")
  /\ (VerifyPassword IDKey password key = Err ErrInvalidKeyLength
      <-> password <> "" /\ key <> "" /\ strings.Count key "$" <> 5%nat)
  /\ (VerifyPassword IDKey password key = Err ErrArgonVersionMismatch
      <-> password <> "" /\ strings.Count key "$" = 5%nat
          /\ exists vs,
              fmt.Sscanf (nth 2 (strings.Split key "$") "") "v=%d" [fmt.PtrInt]
              = (vs, None)
              /\ nth 0 vs argon2.Version <> argon2.Version)
  /\ VerifyPassword IDKey password key <> Err ErrSaltRequired.
Proof.
  unfold VerifyPassword.
  destruct (String.eqb_spec password "") as [Hp|Hp]; [leaf|].
  destruct (String.eqb_spec key "") as [Hk|Hk].
  { subst key. leaf. }
  pose proof (six_segments key) as Hsix.
  destruct (len (strings.Split key "$") =? 6) eqn:Hlen; cbn [negb].
  2:{ assert (Hcount : strings.Count key "$" <> 5%nat).
      { intros E. apply Hsix in E. discriminate E. }
      leaf. }
  assert (Hcount : strings.Count key "$" = 5%nat) by (apply Hsix; reflexivity).
  destruct (fmt.Sscanf (nth 2 (strings.Split key "$") "") "v=%d" [fmt.PtrInt])
    as [vs [e|]] eqn:Hv.
  { leaf. }
  destruct (Z.eqb_spec (nth 0 vs argon2.Version) argon2.Version) as [Hcur|Hcur];
    cbn [negb].
  2:{ leaf. eauto. }
  destruct (fmt.Sscanf (nth 3 (strings.Split key "$") "") _ _) as [ps [e|]].
  { leaf. }
  destruct (DecodeBase64String (nth 4 (strings.Split key "$") ""))
    as [salt [e|]] eqn:Hsalt.
  { apply DecodeBase64String_error in Hsalt as [n ->]. leaf. }
  destruct (DecodeBase64String (nth 5 (strings.Split key "$") ""))
    as [hash [e|]] eqn:Hhash.
  { apply DecodeBase64String_error in Hhash as [n ->]. leaf. }
  destruct (IDKey _ _ _ _ _ _) as [control|]; [|leaf].
  destruct (subtle.ConstantTimeCompare hash control =? 1); leaf.
Qed.
